(** * Execution-hook handler of the processing-service template (service.py)

    A shallow embedding of [CustomStacIO] and of
    [EoepcaCalrissianRunnerExecutionHandler]: the constructor, the pre- and
    post-execution hooks, the proxy helpers, [init_config_defaults],
    [get_user_name], [local_get_file] and [handle_outputs].

    Conventions.
    - Python values that travel through JSON documents and through
      [conf["additional_parameters"]] are terms of [value]; a Python [dict]
      inside such a value is an insertion-ordered association list with
      unique keys ([dict_set] keeps the position of an existing key and
      appends a new one, as Python does).
    - [os.environ] and [conf["additional_parameters"]] are finite maps.
    - A hook is a computation in a state-and-exception monad [M]: it threads
      the handler object, the process environment, the log of outbound HTTP
      calls and the local catalog, and ends in [Ok] or [Raise].
    - The collaborators the hooks call (cluster API, token decoder,
      workspace service, STAC reader, and the cloning of a STAC link) are
      fields of the record [Externals]; the file system, the YAML parser
      and the URL parser are section variables of the functions that use
      them.
    - Logging has no effect on any modelled state and is left out. *)

From Stdlib Require Import String Ascii List ZArith Bool Lia.
From stdpp Require Import base option gmap strings list fin_maps pretty.

Open Scope string_scope.
Open Scope Z_scope.

(** ** Python values *)

#[warnings="-register-all"]
Inductive value : Type :=
| VNone
| VBool (b : bool)
| VInt (n : Z)
| VStr (s : string)
| VList (l : list value)
| VDict (d : list (string * value)).

Abbreviation dict := (list (string * value)).

(** Python truthiness, as used by [if x:] and [x or y]. *)
Definition truthy (v : value) : bool :=
  match v with
  | VNone => false
  | VBool b => b
  | VInt n => negb (n =? 0)
  | VStr s => negb (s =? "")%string
  | VList l => match l with [] => false | _ => true end
  | VDict d => match d with [] => false | _ => true end
  end.

Definition py_or (a b : value) : value := if truthy a then a else b.

Definition str_truthy (s : string) : bool := negb (s =? "")%string.

(** ** Insertion-ordered dictionaries *)

Fixpoint dict_get (d : dict) (k : string) : option value :=
  match d with
  | [] => None
  | (k', v) :: d' => if (k =? k')%string then Some v else dict_get d' k
  end.

(** [d[k] = v] *)
Fixpoint dict_set (d : dict) (k : string) (v : value) : dict :=
  match d with
  | [] => [(k, v)]
  | (k', v') :: d' =>
      if (k =? k')%string then (k', v) :: d' else (k', v') :: dict_set d' k v
  end.

(** The dictionary left by [d.pop(k, None)]. *)
Fixpoint dict_remove (d : dict) (k : string) : dict :=
  match d with
  | [] => []
  | (k', v) :: d' =>
      if (k =? k')%string then d' else (k', v) :: dict_remove d' k
  end.

(** [d.get(k)], with Python's default [None]. *)
Definition dict_get_or_none (d : dict) (k : string) : value :=
  default VNone (dict_get d k).

Definition dict_has (d : dict) (k : string) : bool :=
  match dict_get d k with Some _ => true | None => false end.

Definition dict_keys (d : dict) : list string := map fst d.

(** ** [json.dumps(obj, indent=2)]

    Characters are code points below 256. With the default
    [ensure_ascii=True] every character outside the range space..tilde is
    escaped, as are the double quote and the backslash. *)

Definition hex_digit (n : N) : ascii :=
  ascii_of_N (if (n <? 10)%N then 48 + n else 87 + n)%N.

Definition escape_char (c : ascii) : string :=
  let n := N_of_ascii c in
  if (n =? 34)%N then String "\" (String c "")
  else if (n =? 92)%N then "\\"
  else if (n =? 10)%N then "\n"
  else if (n =? 13)%N then "\r"
  else if (n =? 9)%N then "\t"
  else if (n =? 8)%N then "\b"
  else if (n =? 12)%N then "\f"
  else if ((n <? 32) || (126 <? n))%N then
    "\u00" +:+ String (hex_digit (n / 16)) (String (hex_digit (n mod 16)) "")
  else String c "".

Fixpoint escape_string (s : string) : string :=
  match s with
  | EmptyString => ""
  | String c s' => escape_char c +:+ escape_string s'
  end.

Definition quoted (s : string) : string :=
  String (ascii_of_N 34) (escape_string s) +:+ String (ascii_of_N 34) "".

Fixpoint spaces (n : nat) : string :=
  match n with O => "" | S n' => String " " (spaces n') end.

Definition newline_indent (indent level : nat) : string :=
  String (ascii_of_N 10) (spaces (indent * level)).

Fixpoint join (sep : string) (l : list string) : string :=
  match l with
  | [] => ""
  | [x] => x
  | x :: l' => x +:+ sep +:+ join sep l'
  end.

Fixpoint dumps_at (indent level : nat) (v : value) : string :=
  match v with
  | VNone => "null"
  | VBool true => "true"
  | VBool false => "false"
  | VInt n => pretty n
  | VStr s => quoted s
  | VList [] => "[]"
  | VList l =>
      "[" +:+ newline_indent indent (S level)
      +:+ join ("," +:+ newline_indent indent (S level))
               (map (dumps_at indent (S level)) l)
      +:+ newline_indent indent level +:+ "]"
  | VDict [] => "{}"
  | VDict d =>
      "{" +:+ newline_indent indent (S level)
      +:+ join ("," +:+ newline_indent indent (S level))
               (map (fun kv => quoted (fst kv) +:+ ": "
                               +:+ dumps_at indent (S level) (snd kv)) d)
      +:+ newline_indent indent level +:+ "}"
  end.

Definition json_dumps (v : value) (indent : nat) : string :=
  dumps_at indent 0 v.

(** ** Exceptions and results

    Each constructor stands for an exception class together with its
    subclasses: [YAMLError] covers [yaml.scanner.ScannerError], for
    instance. [UnicodeDecodeError] is kept apart from [ValueError], whose
    subclass it is; the handler has no clause that would catch either.
    [OtherError] is an exception of any other class. *)

Inductive exn : Type :=
| KeyError (key : string)
| TypeError
| ValueError
| UnicodeDecodeError
| AttributeError (attr : string)
| FileNotFoundError
| YAMLError
| ApiException
| OtherError (name : string).

Inductive result (A : Type) : Type :=
| Ok (a : A)
| Raise (e : exn).
Arguments Ok {A} a.
Arguments Raise {A} e.

(** [v[k]] on a JSON value. *)
Definition subscript (v : value) (k : string) : result value :=
  match v with
  | VDict d =>
      match dict_get d k with Some x => Ok x | None => Raise (KeyError k) end
  | _ => Raise TypeError
  end.

(** [v.get(k)] on a JSON value; only dictionaries have the method. *)
Definition method_get (v : value) (k : string) : result value :=
  match v with
  | VDict d => Ok (dict_get_or_none d k)
  | _ => Raise (AttributeError "get")
  end.

(** ** [get_user_name] *)

Definition username_keys : list string :=
  ["username"; "user_name"; "preferred_username"]%string.

Fixpoint first_present (keys : list string) (decodedJwt : dict) : value :=
  match keys with
  | [] => VStr ""
  | key :: keys' =>
      match dict_get decodedJwt key with
      | Some v => v
      | None => first_present keys' decodedJwt
      end
  end.

Definition get_user_name (decodedJwt : dict) : value :=
  first_present username_keys decodedJwt.

(** ** STAC objects (pystac), as far as the hooks use them *)

Module Stac.

(** An asset: the attributes of pystac's [Asset]. [VNone] is Python's [None]. *)
Record Asset : Type := {
  href : value;
  media_type : value;
  title : value;
  description : value;
  roles : value;
  extra_fields : dict
}.

Definition is_none (v : value) : bool :=
  match v with VNone => true | _ => false end.

Definition set_unless_none (d : dict) (k : string) (v : value) : dict :=
  if is_none v then d else dict_set d k v.

Definition dict_update (d extra : dict) : dict :=
  fold_left (fun acc kv => dict_set acc (fst kv) (snd kv)) extra d.

(** [Asset.to_dict]: href, then type, title and description when set, then
    the extra fields, then roles when set. *)
Definition Asset_to_dict (a : Asset) : dict :=
  let d := [("href"%string, href a)] in
  let d := set_unless_none d "type" (media_type a) in
  let d := set_unless_none d "title" (title a) in
  let d := set_unless_none d "description" (description a) in
  let d := dict_update d (extra_fields a) in
  set_unless_none d "roles" (roles a).

(** [Asset.from_dict]: pops the five named keys; what is left becomes the
    extra fields, provided [any(d)] finds a non-empty key. *)
Definition Asset_from_dict (d : dict) : result Asset :=
  match dict_get d "href" with
  | None => Raise (KeyError "href")
  | Some h =>
      let d1 := dict_remove d "href" in
      let d2 := dict_remove d1 "type" in
      let d3 := dict_remove d2 "title" in
      let d4 := dict_remove d3 "description" in
      let d5 := dict_remove d4 "roles" in
      Ok {| href := h;
            media_type := dict_get_or_none d1 "type";
            title := dict_get_or_none d2 "title";
            description := dict_get_or_none d3 "description";
            roles := dict_get_or_none d4 "roles";
            extra_fields := if existsb str_truthy (dict_keys d5) then d5 else [] |}
  end.

Definition Asset_clone (a : Asset) : Asset :=
  {| href := href a; media_type := media_type a; title := title a;
     description := description a; roles := roles a;
     extra_fields := extra_fields a |}.

(** An item: the attributes of pystac's [Item] in their serialised form,
    with the assets and the collection id kept apart, since the hook
    writes them. *)
Record Item : Type := {
  item_id : value;
  properties : value;
  geometry : value;
  links : list value;
  assets : list (string * Asset);
  bbox : value;
  stac_extensions : value;
  collection_id : value;
  item_extra_fields : dict
}.

Definition stac_version : string := "1.0.0".

Definition assets_to_dict (l : list (string * Asset)) : dict :=
  map (fun ka => (fst ka, VDict (Asset_to_dict (snd ka)))) l.

(** [Item.to_dict] *)
Definition Item_to_dict (i : Item) : dict :=
  let d := [("type"%string, VStr "Feature");
            ("stac_version"%string, VStr stac_version);
            ("id"%string, item_id i);
            ("properties"%string, properties i);
            ("geometry"%string, geometry i);
            ("links"%string, VList (links i));
            ("assets"%string, VDict (assets_to_dict (assets i)))] in
  let d := set_unless_none d "bbox" (bbox i) in
  let d := set_unless_none d "stac_extensions" (stac_extensions i) in
  let d := if truthy (collection_id i)
           then dict_set d "collection" (collection_id i) else d in
  dict_update d (item_extra_fields i).

(** [Item.clone]: a new item built by the constructor from the id, the
    geometry, the bounding box, the properties, the extensions
    ([stac_extensions or []]), the collection id and a clone of every asset;
    a clone of every link is then added. The extra fields are not handed to
    the constructor, so the clone has none. [Link_clone] is what
    [Link.clone] makes of a link, on links in serialised form. *)
Definition Item_clone (Link_clone : value -> value) (i : Item) : Item :=
  {| item_id := item_id i; properties := properties i; geometry := geometry i;
     links := map Link_clone (links i);
     assets := map (fun ka => (fst ka, Asset_clone (snd ka))) (assets i);
     bbox := bbox i;
     stac_extensions := py_or (stac_extensions i) (VList []);
     collection_id := collection_id i;
     item_extra_fields := [] |}.

(** A collection of the catalog: what [to_dict] and [get_self_href] give. *)
Record Collection : Type := {
  collection_dict : dict;
  self_href : value
}.

(** A catalog as the hook sees it: the collections and the items that
    [get_all_collections] and [get_all_items] yield, in order. *)
Record Catalog : Type := {
  get_all_collections : list Collection;
  get_all_items : list Item
}.

(** The object bound to [collection] in the post-execution hook: the
    catalog's own collection, or an [ItemCollection] built from items. *)
Inductive OutputCollection : Type :=
| FromCatalog (c : Collection)
| ItemCollection (items : list Item).

(** [ItemCollection(items=...)] clones every item it is given. *)
Definition new_ItemCollection (Link_clone : value -> value)
  (items : list Item) : OutputCollection :=
  ItemCollection (map (Item_clone Link_clone) items).

Definition to_dict (c : OutputCollection) : dict :=
  match c with
  | FromCatalog col => collection_dict col
  | ItemCollection items =>
      [("type"%string, VStr "FeatureCollection");
       ("features"%string, VList (map (fun i => VDict (Item_to_dict i)) items))]
  end.

(** Only catalog collections have [get_self_href]. *)
Definition get_self_href (c : OutputCollection) : result value :=
  match c with
  | FromCatalog col => Ok (self_href col)
  | ItemCollection _ => Raise (AttributeError "get_self_href")
  end.

End Stac.

(** ** The outside world *)

(** The workspace endpoint [.../workspaces/{prefix}-{username}], kept as the
    three parts it is formatted from. *)
Record WorkspaceRef : Type := {
  ws_url : string;
  ws_prefix : string;
  ws_user : value
}.

Inductive http_call : Type :=
| GetWorkspaceDetails (ws : WorkspaceRef) (token : string)
| PostRegisterJson (ws : WorkspaceRef) (token : string) (body : dict)
| PostRegister (ws : WorkspaceRef) (token : string) (body : dict).

(** An outbound call, with the value of [HTTP_PROXY] the HTTP client found
    in the process environment when the call was made. *)
Record http_event : Type := {
  call : http_call;
  proxy_seen : option string
}.

Record Response : Type := {
  status_code : Z;
  json : result value
}.

(** [Response.ok]: false exactly for the status codes 400 to 599. *)
Definition ok (r : Response) : bool :=
  negb ((400 <=? status_code r) && (status_code r <? 600)).

Record Externals : Type := {
  load_incluster_config : result unit;
  (* [None] is a config map without data *)
  read_namespaced_config_map :
    string -> string -> result (option (gmap string string));
  jwt_decode : string -> result dict;
  requests_get : http_call -> result Response;
  requests_post : http_call -> result Response;
  read_file : string -> result Stac.Catalog;
  (* pystac's [Link.clone], on a link in serialised form *)
  Link_clone : value -> value
}.

(** ** Configuration and handler state *)

Record Conf : Type := {
  eoepca : option (gmap string string);
  auth_env : option (gmap string string);
  lenv : option (gmap string string);
  additional_parameters : option (gmap string value)
}.

(** [conf.get(section, {}).get(key, dflt)] *)
Definition section_get (sec : option (gmap string string)) (key dflt : string)
  : string :=
  match sec with
  | Some m => default dflt (m !! key)
  | None => dflt
  end.

(** The attributes of the handler object ([self]). [username] is [None]
    until the pre-execution hook assigns the attribute. *)
Record Handler : Type := {
  conf : Conf;
  http_proxy_env : option string;
  domain : string;
  workspace_url : string;
  workspace_prefix : string;
  use_workspace : bool;
  workspace_name : string;
  ades_rx_token : string;
  username : option value;
  feature_collection : option string
}.

(** What a hook can read and write: the handler, [os.environ], the class
    attribute [CustomStacIO.access_point] ([None] while the class has no
    such attribute), the outbound calls made so far, and the local variable
    [cat] of the post-execution hook ([None] while unbound). The values of
    a process environment hold no NUL character: they are there from the
    start of the process or were put there by [environ_set]. *)
Record State : Type := {
  self : Handler;
  environ : gmap string string;
  class_access_point : option value;
  http_log : list http_event;
  cat : option Stac.Catalog
}.

Definition with_self (f : Handler -> Handler) (s : State) : State :=
  {| self := f (self s); environ := environ s;
     class_access_point := class_access_point s;
     http_log := http_log s; cat := cat s |}.

Definition with_environ (f : gmap string string -> gmap string string)
  (s : State) : State :=
  {| self := self s; environ := f (environ s);
     class_access_point := class_access_point s;
     http_log := http_log s; cat := cat s |}.

Definition with_class_access_point (v : value) (s : State) : State :=
  {| self := self s; environ := environ s;
     class_access_point := Some v;
     http_log := http_log s; cat := cat s |}.

Definition with_http_log (f : list http_event -> list http_event)
  (s : State) : State :=
  {| self := self s; environ := environ s;
     class_access_point := class_access_point s;
     http_log := f (http_log s); cat := cat s |}.

Definition with_cat (c : option Stac.Catalog) (s : State) : State :=
  {| self := self s; environ := environ s;
     class_access_point := class_access_point s;
     http_log := http_log s; cat := c |}.

Definition with_conf (f : Conf -> Conf) (h : Handler) : Handler :=
  {| conf := f (conf h); http_proxy_env := http_proxy_env h;
     domain := domain h; workspace_url := workspace_url h;
     workspace_prefix := workspace_prefix h;
     use_workspace := use_workspace h; workspace_name := workspace_name h;
     ades_rx_token := ades_rx_token h; username := username h;
     feature_collection := feature_collection h |}.

Definition with_use_workspace (b : bool) (h : Handler) : Handler :=
  {| conf := conf h; http_proxy_env := http_proxy_env h;
     domain := domain h; workspace_url := workspace_url h;
     workspace_prefix := workspace_prefix h;
     use_workspace := b; workspace_name := workspace_name h;
     ades_rx_token := ades_rx_token h; username := username h;
     feature_collection := feature_collection h |}.

Definition with_username (v : value) (h : Handler) : Handler :=
  {| conf := conf h; http_proxy_env := http_proxy_env h;
     domain := domain h; workspace_url := workspace_url h;
     workspace_prefix := workspace_prefix h;
     use_workspace := use_workspace h; workspace_name := workspace_name h;
     ades_rx_token := ades_rx_token h; username := Some v;
     feature_collection := feature_collection h |}.

Definition with_feature_collection (txt : string) (h : Handler) : Handler :=
  {| conf := conf h; http_proxy_env := http_proxy_env h;
     domain := domain h; workspace_url := workspace_url h;
     workspace_prefix := workspace_prefix h;
     use_workspace := use_workspace h; workspace_name := workspace_name h;
     ades_rx_token := ades_rx_token h; username := username h;
     feature_collection := Some txt |}.

Definition with_additional_parameters (p : gmap string value) (c : Conf) : Conf :=
  {| eoepca := eoepca c; auth_env := auth_env c; lenv := lenv c;
     additional_parameters := Some p |}.

(** ** The state-and-exception monad of the hooks *)

Definition M (A : Type) : Type := State -> result A * State.

Definition ret {A} (a : A) : M A := fun s => (Ok a, s).

Definition bind {A B} (m : M A) (k : A -> M B) : M B :=
  fun s =>
    match m s with
    | (Ok a, s') => k a s'
    | (Raise e, s') => (Raise e, s')
    end.

Definition raise {A} (e : exn) : M A := fun s => (Raise e, s).

Definition lift {A} (r : result A) : M A := fun s => (r, s).

Definition gets {A} (f : State -> A) : M A := fun s => (Ok (f s), s).

Definition modify (f : State -> State) : M unit := fun s => (Ok tt, f s).

(** [try: m  except Exception as e: handler e] *)
Definition try_except {A} (m : M A) (handler : exn -> M A) : M A :=
  fun s =>
    match m s with
    | (Ok a, s') => (Ok a, s')
    | (Raise e, s') => handler e s'
    end.

(** [try: m  finally: fin] *)
Definition try_finally {A} (m : M A) (fin : M unit) : M A :=
  fun s =>
    let (r, s') := m s in
    match fin s' with
    | (Ok _, s'') => (r, s'')
    | (Raise e, s'') => (Raise e, s'')
    end.

Declare Scope hook_scope.
Delimit Scope hook_scope with hook.
Notation "'do' x <- m 'in' k" := (bind m (fun x => k))
  (at level 10, x name, m at level 100, k at level 200) : hook_scope.
Notation "'exec' m 'in' k" := (bind m (fun _ => k))
  (at level 10, m at level 100, k at level 200) : hook_scope.
Open Scope hook_scope.

Definition rbind {A B} (r : result A) (k : A -> result B) : result B :=
  match r with
  | Ok a => k a
  | Raise e => Raise e
  end.

(** ** Reading and writing the handler *)

(** [self.conf["additional_parameters"][key]] *)
Definition conf_param (c : Conf) (key : string) : result value :=
  match additional_parameters c with
  | None => Raise (KeyError "additional_parameters")
  | Some p =>
      match p !! key with
      | Some v => Ok v
      | None => Raise (KeyError key)
      end
  end.

Definition param_get (key : string) : M value :=
  fun s => (conf_param (conf (self s)) key, s).

(** [self.conf["additional_parameters"][key] = v] *)
Definition param_set (key : string) (v : value) : M unit :=
  fun s =>
    match additional_parameters (conf (self s)) with
    | None => (Raise (KeyError "additional_parameters"), s)
    | Some p =>
        (Ok tt,
         with_self (with_conf (with_additional_parameters (<[key := v]> p))) s)
    end.

(** A string with an embedded NUL character. *)
Fixpoint has_nul (txt : string) : bool :=
  match txt with
  | EmptyString => false
  | String c rest => (N_of_ascii c =? 0)%N || has_nul rest
  end.

(** [os.environ[name] = v]: the environment only takes strings
    ([TypeError]), and no string with an embedded NUL ([ValueError]). The
    names the hook writes are non-empty constants without an equals sign. *)
Definition environ_set (name : string) (v : value) : M unit :=
  match v with
  | VStr txt =>
      if has_nul txt then raise ValueError
      else modify (with_environ (insert name txt))
  | _ => raise TypeError
  end.

(** Reading [self.username]. *)
Definition get_username : M value :=
  fun s =>
    match username (self s) with
    | Some v => (Ok v, s)
    | None => (Raise (AttributeError "username"), s)
    end.

(** An outbound HTTP call through [requests]. *)
Definition http (oracle : http_call -> result Response) (c : http_call)
  : M Response :=
  fun s =>
    (oracle c,
     with_http_log
       (fun l => (l ++ [{| call := c; proxy_seen := environ s !! "HTTP_PROXY" |}])%list)
       s).

(** ** [init_config_defaults] and the constructor *)

(** [os.environ.get(name, dflt)] *)
Definition environ_get (env : gmap string string) (name : string)
  (dflt : value) : value :=
  match env !! name with
  | Some v => VStr v
  | None => dflt
  end.

(** Each parameter is read from the environment variable of the same name. *)
Definition config_defaults : list (string * value) :=
  [ ("STAGEIN_AWS_SERVICEURL", VStr "http://s3-service.zoo.svc.cluster.local:9000");
    ("STAGEIN_AWS_ACCESS_KEY_ID", VStr "minio-admin");
    ("STAGEIN_AWS_SECRET_ACCESS_KEY", VStr "minio-secret-password");
    ("STAGEIN_AWS_REGION", VStr "RegionOne");
    ("STAGEOUT_AWS_SERVICEURL", VStr "http://s3-service.zoo.svc.cluster.local:9000");
    ("STAGEOUT_AWS_ACCESS_KEY_ID", VStr "minio-admin");
    ("STAGEOUT_AWS_SECRET_ACCESS_KEY", VStr "minio-secret-password");
    ("STAGEOUT_AWS_REGION", VStr "RegionOne");
    ("STAGEOUT_OUTPUT", VStr "eoepca");
    ("STAGEOUT_WORKSPACE", VStr "default");
    ("STAGEOUT_PULSAR_URL", VNone);
    ("STAGEOUT_ACCESS_POINT", VNone);
    ("WORKSPACE_DOMAIN", VNone) ]%string.

Definition install_defaults (env : gmap string string)
  (table : list (string * value)) (p : gmap string value) : gmap string value :=
  fold_left (fun acc kd => <[fst kd := environ_get env (fst kd) (snd kd)]> acc)
            table p.

Definition init_config_defaults (env : gmap string string) (c : Conf) : Conf :=
  with_additional_parameters
    (install_defaults env config_defaults
       (default ∅ (additional_parameters c)))
    c.

(** The constructor of the handler. *)
Definition __init__ (c : Conf) (inputs : gmap string (gmap string string))
  (env : gmap string string) : Handler :=
  let url := section_get (eoepca c) "workspace_url" "" in
  let prefix := section_get (eoepca c) "workspace_prefix" "" in
  {| conf := init_config_defaults env c;
     http_proxy_env := env !! "HTTP_PROXY";
     domain := section_get (eoepca c) "domain" "";
     workspace_url := url;
     workspace_prefix := prefix;
     use_workspace := str_truthy url && str_truthy prefix;
     workspace_name := section_get (inputs !! "workspace") "value" "default";
     ades_rx_token := section_get (auth_env c) "jwt" "";
     username := None;
     feature_collection := None |}.

(** ** The proxy helpers *)

Definition unset_http_proxy_env : M unit :=
  modify (with_environ (delete "HTTP_PROXY")).

Definition restore_http_proxy_env : M unit :=
  fun s =>
    match http_proxy_env (self s) with
    | Some v =>
        if str_truthy v
        then (Ok tt, with_environ (insert "HTTP_PROXY" v) s)
        else (Ok tt, s)
    | None => (Ok tt, s)
    end.

(** ** [pre_execution_hook] *)

(** Lines 150-156: the stage-out access point of the workspace config map;
    only [ApiException] is caught. *)
Definition lookup_access_point (ext : Externals) (name : string) : result value :=
  match read_namespaced_config_map ext "workspace-config" ("ws-" +:+ name) with
  | Ok (Some data) =>
      Ok (match data !! "S3_BUCKET_WORKSPACE" with
          | Some b => VStr b
          | None => VNone
          end)
  | Ok None => Raise (AttributeError "get")
  | Raise ApiException => Ok VNone
  | Raise e => Raise e
  end.

(** Lines 181-192: a good answer of the workspace API. *)
Definition use_workspace_details (resp : Response) : M unit :=
  do workspace_response <- lift (json resp) in
  do storage <- lift (subscript workspace_response "storage") in
  do storage_credentials <- lift (subscript storage "credentials") in
  do endpoint <- lift (method_get storage_credentials "endpoint") in
  exec param_set "STAGEOUT_AWS_SERVICEURL" endpoint in
  do access <- lift (method_get storage_credentials "access") in
  exec param_set "STAGEOUT_AWS_ACCESS_KEY_ID" access in
  do secret <- lift (method_get storage_credentials "secret") in
  exec param_set "STAGEOUT_AWS_SECRET_ACCESS_KEY" secret in
  do region <- lift (method_get storage_credentials "region") in
  exec param_set "STAGEOUT_AWS_REGION" region in
  do bucketname <- lift (method_get storage_credentials "bucketname") in
  param_set "STAGEOUT_OUTPUT" bucketname.

(** Lines 164-201. *)
Definition lookup_workspace (ext : Externals) : M unit :=
  do use_ws <- gets (fun s => use_workspace (self s)) in
  if use_ws then
    do prefix <- gets (fun s => workspace_prefix (self s)) in
    do user <- get_username in
    do url <- gets (fun s => workspace_url (self s)) in
    do token <- gets (fun s => ades_rx_token (self s)) in
    do resp <- http (requests_get ext)
                 (GetWorkspaceDetails
                    {| ws_url := url; ws_prefix := prefix; ws_user := user |}
                    token) in
    if ok resp then use_workspace_details resp
    else modify (with_self (with_use_workspace false))
  else ret tt.

Definition pre_execution_body (ext : Externals) : M unit :=
  exec unset_http_proxy_env in
  exec lift (load_incluster_config ext) in
  do name <- gets (fun s => workspace_name (self s)) in
  do access_point <- lift (lookup_access_point ext name) in
  do token <- gets (fun s => ades_rx_token (self s)) in
  exec (if str_truthy token
        then do claims <- lift (jwt_decode ext token) in
             modify (with_self (with_username (get_user_name claims)))
        else ret tt) in
  exec lookup_workspace ext in
  do usid <- gets (fun s => section_get (lenv (conf (self s))) "usid" "") in
  exec param_set "collection_id" (VStr usid) in
  exec param_set "process" (VStr "processing-results") in
  exec param_set "STAGEOUT_WORKSPACE" (VStr name) in
  param_set "STAGEOUT_ACCESS_POINT" access_point.

Definition pre_execution_hook (ext : Externals) : M unit :=
  try_finally
    (try_except (pre_execution_body ext) (fun e => raise e))
    restore_http_proxy_env.

(** ** [post_execution_hook] *)

Import Stac.

(** Lines 226-232: environment variable, parameter it is copied from. *)
Definition exported_parameters : list (string * string) :=
  [ ("AWS_S3_ENDPOINT", "STAGEOUT_AWS_SERVICEURL");
    ("AWS_ACCESS_KEY_ID", "STAGEOUT_AWS_ACCESS_KEY_ID");
    ("AWS_SECRET_ACCESS_KEY", "STAGEOUT_AWS_SECRET_ACCESS_KEY");
    ("AWS_REGION", "STAGEOUT_AWS_REGION");
    ("STAGEOUT_PULSAR_URL", "STAGEOUT_PULSAR_URL");
    ("WORKSPACE_DOMAIN", "WORKSPACE_DOMAIN");
    ("STAGEOUT_ACCESS_POINT", "STAGEOUT_ACCESS_POINT") ]%string.

Fixpoint export_all (table : list (string * string)) : M unit :=
  match table with
  | [] => ret tt
  | (name, key) :: table' =>
      do v <- param_get key in
      exec environ_set name v in
      export_all table'
  end.

(** Lines 240-241: the catalog location as an object-storage URI. *)
Definition s3_path_of (txt : string) : string :=
  if String.prefix "s3://" txt then txt else "s3://" +:+ txt.

(** Lines 238-244: any exception is logged and dropped, which leaves [cat]
    unbound. *)
Definition read_catalog (ext : Externals) (uri : value) : M unit :=
  match uri with
  | VStr txt =>
      match read_file ext (s3_path_of txt) with
      | Ok c => modify (with_cat (Some c))
      | Raise _ => ret tt
      end
  | _ => ret tt
  end.

(** Lines 258-264: the storage fields written into an asset dictionary. *)
Definition storage_fields (c : Conf) (cDict : dict) : result dict :=
  let d := dict_set cDict "storage:platform" (VStr "EOEPCA") in
  let d := dict_set d "storage:requester_pays" (VBool false) in
  let d := dict_set d "storage:tier" (VStr "Standard") in
  rbind (conf_param c "STAGEOUT_AWS_REGION") (fun region =>
  let d := dict_set d "storage:region" region in
  rbind (conf_param c "STAGEOUT_AWS_SERVICEURL") (fun endpoint =>
  Ok (dict_set d "storage:endpoint" endpoint))).

Definition annotate_asset (c : Conf) (a : Asset) : result Asset :=
  rbind (storage_fields c (Asset_to_dict a)) Asset_from_dict.

(** A [for] loop that replaces elements in place and stops at the first
    exception: the elements after it are left as they were. *)
Fixpoint update_each {A} (step : A -> A * option exn) (l : list A)
  : list A * option exn :=
  match l with
  | [] => ([], None)
  | x :: l' =>
      match step x with
      | (x', Some e) => (x' :: l', Some e)
      | (x', None) =>
          let (l'', r) := update_each step l' in (x' :: l'', r)
      end
  end.

Definition asset_step (c : Conf) (ka : string * Asset)
  : (string * Asset) * option exn :=
  match annotate_asset c (snd ka) with
  | Ok a' => ((fst ka, a'), None)
  | Raise e => (ka, Some e)
  end.

Definition set_assets (i : Item) (l : list (string * Asset)) : Item :=
  {| item_id := item_id i; properties := properties i; geometry := geometry i;
     links := links i; assets := l; bbox := bbox i;
     stac_extensions := stac_extensions i; collection_id := collection_id i;
     item_extra_fields := item_extra_fields i |}.

Definition set_collection_id (i : Item) (v : value) : Item :=
  {| item_id := item_id i; properties := properties i; geometry := geometry i;
     links := links i; assets := assets i; bbox := bbox i;
     stac_extensions := stac_extensions i; collection_id := v;
     item_extra_fields := item_extra_fields i |}.

(** Lines 257-265: the body of the loop over items. *)
Definition item_step (c : Conf) (collection_id : value) (i : Item)
  : Item * option exn :=
  let (assets', r) := update_each (asset_step c) (assets i) in
  match r with
  | Some e => (set_assets i assets', Some e)
  | None => (set_collection_id (set_assets i assets') collection_id, None)
  end.

Definition set_items (c : Catalog) (items : list Item) : Catalog :=
  {| get_all_collections := get_all_collections c; get_all_items := items |}.

(** Lines 248-270. The result is the value of [collection]; the catalog in
    memory is updated with what the loop wrote into its items. *)
Definition consolidate (ext : Externals) (collection_id : value)
  : M (option OutputCollection) :=
  fun s =>
    match cat s with
    | None => (Ok None, s)
    | Some c =>
        match get_all_collections c with
        | col :: _ => (Ok (Some (FromCatalog col)), s)
        | [] =>
            let (items', r) :=
              update_each (item_step (conf (self s)) collection_id)
                          (get_all_items c) in
            let s' := with_cat (Some (set_items c items')) s in
            match r with
            | None =>
                (Ok (Some (new_ItemCollection (Link_clone ext)
                             (map (Item_clone (Link_clone ext)) items'))),
                 s')
            | Some _ => (Ok None, s')
            end
        end
    end.

(** Lines 285-308. *)
Definition register (ext : Externals) (collection : OutputCollection)
  (collection_dict : dict) : M unit :=
  do prefix <- gets (fun s => workspace_prefix (self s)) in
  do user <- get_username in
  do token <- gets (fun s => ades_rx_token (self s)) in
  do url <- gets (fun s => workspace_url (self s)) in
  let ws := {| ws_url := url; ws_prefix := prefix; ws_user := user |} in
  do r <- http (requests_post ext) (PostRegisterJson ws token collection_dict) in
  do self_href <- lift (get_self_href collection) in
  do r' <- http (requests_post ext)
             (PostRegister ws token
                [("type"%string, VStr "stac-item"); ("url"%string, self_href)]) in
  ret tt.

(** Lines 272-308: what the hook does with the value of [collection]. *)
Definition publish (ext : Externals) (collection_id : value)
  (collection : option OutputCollection) : M unit :=
  match collection with
  | None =>
      modify (with_self (with_feature_collection (json_dumps (VDict []) 2)))
  | Some c =>
      let collection_dict := dict_set (to_dict c) "id" collection_id in
      exec modify (with_self (with_feature_collection
                                (json_dumps (VDict collection_dict) 2))) in
      do use_ws <- gets (fun s => use_workspace (self s)) in
      if use_ws then register ext c collection_dict else ret tt
  end.

Definition post_execution_body (ext : Externals) (output : dict) : M unit :=
  exec modify (with_cat None) in
  exec unset_http_proxy_env in
  exec export_all exported_parameters in
  do access_point <- param_get "STAGEOUT_ACCESS_POINT" in
  exec modify (with_class_access_point access_point) in
  do uri <- lift (subscript (VDict output) "StacCatalogUri") in
  exec read_catalog ext uri in
  do collection_id <- param_get "collection_id" in
  do collection <- consolidate ext collection_id in
  publish ext collection_id collection.

Definition post_execution_hook (ext : Externals) (output : dict) : M unit :=
  try_finally
    (try_except (post_execution_body ext output) (fun e => raise e))
    restore_http_proxy_env.

(** ** [local_get_file] *)

Section LocalFile.

(** [open(fileName, "r")], which gives the content of the file or raises
    (an [OSError] such as [FileNotFoundError]), and [yaml.safe_load] on the
    open file, which reads the content through the text decoder and parses
    it: it raises [UnicodeDecodeError] from the read and a [YAMLError] from
    the parser. *)
Variable open_file : string -> result string.
Variable yaml_safe_load : string -> result value.

Definition local_get_file (fileName : string) : result value :=
  match rbind (open_file fileName) yaml_safe_load with
  | Ok data => Ok data
  | Raise FileNotFoundError => Ok (VDict [])
  | Raise YAMLError => Ok (VDict [])
  | Raise e => Raise e
  end.

End LocalFile.

(** ** [CustomStacIO] *)

Module CustomStacIO.

(** The fields of [urlparse]'s result the class reads. *)
Record ParseResult : Type := {
  scheme : string;
  netloc : string;
  path : string
}.

(** The two ways the constructor builds its S3 client. *)
Inductive S3Client : Type :=
| WithKeys (region endpoint key secret : option string)
| ServiceAccount.

(** An instance: its own [access_point] attribute ([None] while the
    instance dictionary has no such entry) and its client. *)
Record Instance : Type := {
  own_access_point : option value;
  s3_client : S3Client
}.

Inductive io_action : Type :=
| GetObject (client : S3Client) (bucket : value) (key : string)
| PutObject (client : S3Client) (bucket : value) (key : string)
            (body : string) (content_type : string)
| DefaultReadText (source : string)
| DefaultWriteText (dest : string) (txt : string).

(** [os.environ[name]] *)
Definition environ_item (env : gmap string string) (name : string)
  : result string :=
  match env !! name with
  | Some v => Ok v
  | None => Raise (KeyError name)
  end.

Definition with_keys (env : gmap string string) : S3Client :=
  WithKeys (env !! "AWS_REGION") (env !! "AWS_S3_ENDPOINT")
           (env !! "AWS_ACCESS_KEY_ID") (env !! "AWS_SECRET_ACCESS_KEY").

Definition __init__ (env : gmap string string) : result Instance :=
  rbind (environ_item env "AWS_ACCESS_KEY_ID") (fun key =>
  if str_truthy key then
    rbind (environ_item env "AWS_SECRET_ACCESS_KEY") (fun secret =>
    Ok {| own_access_point := Some VNone;
          s3_client := if str_truthy secret then with_keys env
                       else ServiceAccount |})
  else
    Ok {| own_access_point := Some VNone; s3_client := ServiceAccount |}).

(** The class method: it writes the attribute of the class. *)
Definition set_access_point (v : value) (cls : option value) : option value :=
  Some v.

(** [self.access_point]: the instance dictionary first, then the class. *)
Definition access_point (cls : option value) (io : Instance) : result value :=
  match own_access_point io with
  | Some v => Ok v
  | None =>
      match cls with
      | Some v => Ok v
      | None => Raise (AttributeError "access_point")
      end
  end.

(** [self.access_point or parsed.netloc] *)
Definition bucket_for (cls : option value) (io : Instance)
  (parsed : ParseResult) : result value :=
  rbind (access_point cls io) (fun ap => Ok (py_or ap (VStr (netloc parsed)))).

(** [parsed.path[1:]] *)
Definition key_of (parsed : ParseResult) : string :=
  match path parsed with
  | EmptyString => EmptyString
  | String _ rest => rest
  end.

Section WithUrlparse.

Variable urlparse : string -> ParseResult.

Definition read_text (cls : option value) (io : Instance) (source : string)
  : result io_action :=
  let parsed := urlparse source in
  rbind (bucket_for cls io parsed) (fun bucket =>
  if (scheme parsed =? "s3")%string
  then Ok (GetObject (s3_client io) bucket (key_of parsed))
  else Ok (DefaultReadText source)).

Definition write_text (cls : option value) (io : Instance)
  (dest txt : string) : result io_action :=
  let parsed := urlparse dest in
  rbind (bucket_for cls io parsed) (fun bucket =>
  if (scheme parsed =? "s3")%string
  then Ok (PutObject (s3_client io) bucket (key_of parsed) txt
                     "application/geo+json")
  else Ok (DefaultWriteText dest txt)).

End WithUrlparse.

End CustomStacIO.

(** The state in which a handler has just been constructed from [c] and
    [inputs] in a process whose environment is [env]. *)
Definition constructed (c : Conf) (inputs : gmap string (gmap string string))
  (env : gmap string string) : State :=
  {| self := __init__ c inputs env;
     environ := env;
     class_access_point := None;
     http_log := [];
     cat := None |}.

(** ** Sample inputs

    A workspace-enabled configuration, a token, and small catalogs, used to
    run the hooks on concrete data. *)

Module Sample.

Definition env : gmap string string :=
  <["HTTP_PROXY" := "http://proxy:8080"]>
    (<["STAGEOUT_PULSAR_URL" := "pulsar://broker:6650"]>
       (<["WORKSPACE_DOMAIN" := "example.org"]> ∅)).

(** The same environment with [HTTP_PROXY] set to the empty string. *)
Definition env_empty_proxy : gmap string string :=
  <["HTTP_PROXY" := ""]> env.

Definition conf : Conf :=
  {| eoepca := Some (<["workspace_url" := "http://workspace-api"]>
                       (<["workspace_prefix" := "ws"]> ∅));
     auth_env := Some (<["jwt" := "token"]> ∅);
     lenv := Some (<["usid" := "run-1"]> ∅);
     additional_parameters := None |}.

Definition inputs : gmap string (gmap string string) :=
  <["workspace" := <["value" := "alice"]> ∅]> ∅.

Definition claims : dict :=
  [("exp"%string, VInt 1700000000); ("preferred_username"%string, VStr "alice")].

Definition credentials : dict :=
  [("endpoint"%string, VStr "https://s3.example.org");
   ("access"%string, VStr "AK");
   ("secret"%string, VStr "SK");
   ("region"%string, VStr "eu-west-2");
   ("bucketname"%string, VStr "ws-alice")].

Definition details : value :=
  VDict [("storage"%string, VDict [("credentials"%string, VDict credentials)])].

Definition response (code : Z) (body : result value) : Response :=
  {| status_code := code; json := body |}.

Definition asset : Stac.Asset :=
  {| Stac.href := VStr "s3://ws-alice/run-1/result.tif";
     Stac.media_type := VStr "image/tiff";
     Stac.title := VNone; Stac.description := VNone;
     Stac.roles := VList [VStr "data"];
     Stac.extra_fields := [] |}.

(** [asset] with the storage fields of the default stage-out parameters. *)
Definition annotated_asset : Stac.Asset :=
  {| Stac.href := VStr "s3://ws-alice/run-1/result.tif";
     Stac.media_type := VStr "image/tiff";
     Stac.title := VNone; Stac.description := VNone;
     Stac.roles := VList [VStr "data"];
     Stac.extra_fields :=
       [("storage:platform"%string, VStr "EOEPCA");
        ("storage:requester_pays"%string, VBool false);
        ("storage:tier"%string, VStr "Standard");
        ("storage:region"%string, VStr "RegionOne");
        ("storage:endpoint"%string,
         VStr "http://s3-service.zoo.svc.cluster.local:9000")] |}.

Definition item (name : string) : Stac.Item :=
  {| Stac.item_id := VStr name;
     Stac.properties := VDict [("datetime"%string, VStr "2024-01-01T00:00:00Z")];
     Stac.geometry := VNone;
     Stac.links := [];
     Stac.assets := [("result"%string, asset)];
     Stac.bbox := VNone;
     Stac.stac_extensions := VList [];
     Stac.collection_id := VNone;
     Stac.item_extra_fields := [] |}.

(** An item as a catalog file may hold it: a link, a bounding box, no
    extensions, and a top-level field that is not part of the item model. *)
Definition foreign_item : Stac.Item :=
  {| Stac.item_id := VStr "item-3";
     Stac.properties := VDict [("datetime"%string, VStr "2024-01-01T00:00:00Z")];
     Stac.geometry := VNone;
     Stac.links := [VDict [("rel"%string, VStr "self");
                           ("href"%string, VStr "s3://ws-alice/run-1/item-3.json")]];
     Stac.assets := [("result"%string, asset)];
     Stac.bbox := VList [VInt 0; VInt 0; VInt 1; VInt 1];
     Stac.stac_extensions := VList [];
     Stac.collection_id := VStr "original";
     Stac.item_extra_fields := [("foo"%string, VStr "bar")] |}.

Definition collection : Stac.Collection :=
  {| Stac.collection_dict :=
       [("type"%string, VStr "Collection"); ("id"%string, VStr "original");
        ("description"%string, VStr "results")];
     Stac.self_href := VStr "s3://ws-alice/run-1/collection.json" |}.

Definition empty_catalog : Stac.Catalog :=
  {| Stac.get_all_collections := []; Stac.get_all_items := [] |}.

Definition items_catalog : Stac.Catalog :=
  {| Stac.get_all_collections := [];
     Stac.get_all_items := [item "item-1"; item "item-2"] |}.

Definition foreign_catalog : Stac.Catalog :=
  {| Stac.get_all_collections := []; Stac.get_all_items := [foreign_item] |}.

Definition collection_catalog : Stac.Catalog :=
  {| Stac.get_all_collections := [collection];
     Stac.get_all_items := [item "item-1"] |}.

(** The collaborators: the workspace API answers [resp], the STAC reader
    answers [catalog]. The links of the samples hold a rel and an href
    only, which a clone keeps. *)
Definition ext (resp : Response) (catalog : result Stac.Catalog) : Externals :=
  {| load_incluster_config := Ok tt;
     read_namespaced_config_map := fun _ _ =>
       Ok (Some (<["S3_BUCKET_WORKSPACE" := "bucket-alice"]> ∅));
     jwt_decode := fun _ => Ok claims;
     requests_get := fun _ => Ok resp;
     requests_post := fun _ => Ok (response 200 (Ok VNone));
     read_file := fun _ => catalog;
     Link_clone := fun link => link |}.

(** The handler after a pre-execution hook that found the workspace API
    answering 404, and after one that received the credentials. *)
Definition after_failed_lookup : State :=
  snd (pre_execution_hook
         (ext (response 404 (Raise (OtherError "JSONDecodeError")))
              (Raise FileNotFoundError))
         (constructed conf inputs env)).

Definition after_lookup : State :=
  snd (pre_execution_hook
         (ext (response 200 (Ok details)) (Raise FileNotFoundError))
         (constructed conf inputs env)).

Definition output : dict :=
  [("StacCatalogUri"%string, VStr "ws-alice/run-1/catalog.json")].

(** The content of a file that is not text: the single byte 255, which
    the UTF-8 decoder of the text stream rejects. *)
Definition undecodable : string := String (ascii_of_N 255) "".

Definition open_file (fileName : string) : result string :=
  if (fileName =? "/assets/pod_imagePullSecrets.yaml")%string then Ok "- name: regcred"
  else if (fileName =? "/assets/broken.yaml")%string then Ok "a: [b"
  else if (fileName =? "/assets/binary.yaml")%string then Ok undecodable
  else if (fileName =? "/assets")%string then Raise (OtherError "IsADirectoryError")
  else Raise FileNotFoundError.

Definition yaml_safe_load (txt : string) : result value :=
  if (txt =? "- name: regcred")%string
  then Ok (VList [VDict [("name"%string, VStr "regcred")]])
  else if (txt =? undecodable)%string then Raise UnicodeDecodeError
  else Raise YAMLError.

Definition urlparse (url : string) : CustomStacIO.ParseResult :=
  if (url =? "s3://ws-alice/run-1/catalog.json")%string then
    {| CustomStacIO.scheme := "s3"; CustomStacIO.netloc := "ws-alice";
       CustomStacIO.path := "/run-1/catalog.json" |}
  else
    {| CustomStacIO.scheme := ""; CustomStacIO.netloc := "";
       CustomStacIO.path := url |}.

End Sample.


(** ** Premises of the hook properties *)

(** The pre-execution hook gets as far as the workspace-details GET, which
    answers [resp]: the cluster configuration loads, the config-map lookup
    gives [access_point], the token is present and decodes, and the
    workspace is configured. *)
Definition workspace_answers (ext : Externals) (h : Handler)
  (access_point : value) (resp : Response) : Prop :=
  load_incluster_config ext = Ok tt
  ∧ lookup_access_point ext (workspace_name h) = Ok access_point
  ∧ str_truthy (ades_rx_token h) = true
  ∧ use_workspace h = true
  ∧ ∃ claims,
      jwt_decode ext (ades_rx_token h) = Ok claims
      ∧ requests_get ext
          (GetWorkspaceDetails
             {| ws_url := workspace_url h; ws_prefix := workspace_prefix h;
                ws_user := get_user_name claims |}
             (ades_rx_token h)) = Ok resp.

(** The five stage-out credentials a workspace answer carries, with the
    field of [storage.credentials] each is read from. *)
Definition stageout_credentials : list (string * string) :=
  [ ("STAGEOUT_AWS_SERVICEURL", "endpoint");
    ("STAGEOUT_AWS_ACCESS_KEY_ID", "access");
    ("STAGEOUT_AWS_SECRET_ACCESS_KEY", "secret");
    ("STAGEOUT_AWS_REGION", "region");
    ("STAGEOUT_OUTPUT", "bucketname") ]%string.

(** The state after [conf["additional_parameters"]] has become [p]. *)
Definition set_parameters (p : gmap string value) (s : State) : State :=
  with_self (with_conf (with_additional_parameters p)) s.

(** [m], started in a state that satisfies [P], ends in a state that
    satisfies [Q], whether it returns or raises. *)
Definition hoare {A} (P : State -> Prop) (m : M A) (Q : State -> Prop) : Prop :=
  forall s, P s -> Q (snd (m s)).

(** The proxy variable is out of the way: the handler still holds the value
    [captured] by the constructor, [HTTP_PROXY] is absent from the
    environment, and every call made since the log was [base] found no
    proxy. *)
Definition proxy_cleared (captured : option string) (base : list http_event)
  (s : State) : Prop :=
  http_proxy_env (self s) = captured
  /\ environ s !! "HTTP_PROXY" = None
  /\ exists evs, http_log s = (base ++ evs)%list
                 /\ Forall (fun ev => proxy_seen ev = None) evs.

(** A parameter the hand-off of lines 226-232 can copy into the
    environment: it holds a string without an embedded NUL. *)
Definition exportable (c : Conf) (nk : string * string) : Prop :=
  exists txt, conf_param c (snd nk) = Ok (VStr txt) /\ has_nul txt = false.

(** The post-execution hook gets as far as reading the catalog at [uri]:
    every parameter of the hand-off can be exported, the output names the
    catalog, and the collection id is in place. *)
Definition handoff_ready (s : State) (output : dict)
  (uri collection_id : value) : Prop :=
  Forall (exportable (conf (self s))) exported_parameters
  /\ dict_get output "StacCatalogUri" = Some uri
  /\ conf_param (conf (self s)) "collection_id" = Ok collection_id.

(** What [read_file] made of [uri]: the catalog bound to [cat], if any. *)
Definition catalog_at (ext : Externals) (uri : value) : option Stac.Catalog :=
  match uri with
  | VStr txt =>
      match read_file ext (s3_path_of txt) with
      | Ok c => Some c
      | Raise _ => None
      end
  | _ => None
  end.

(** The five storage fields the fallback writes into an asset. *)
Definition storage_annotated (region endpoint : value) (a : Stac.Asset) : Prop :=
  dict_get (Stac.extra_fields a) "storage:platform" = Some (VStr "EOEPCA")
  /\ dict_get (Stac.extra_fields a) "storage:requester_pays" = Some (VBool false)
  /\ dict_get (Stac.extra_fields a) "storage:tier" = Some (VStr "Standard")
  /\ dict_get (Stac.extra_fields a) "storage:region" = Some region
  /\ dict_get (Stac.extra_fields a) "storage:endpoint" = Some endpoint.

(** ** [handle_outputs] *)

(** [os.path.join] and [os.path.basename] on POSIX paths. *)
Fixpoint ends_with_slash (p : string) : bool :=
  match p with
  | EmptyString => false
  | String c EmptyString => Ascii.eqb c "/"
  | String _ rest => ends_with_slash rest
  end.

Definition join_component (path b : string) : string :=
  if String.prefix "/" b then b
  else if negb (str_truthy path) || ends_with_slash path then path +:+ b
  else path +:+ "/" +:+ b.

Definition os_path_join (a : string) (p : list string) : string :=
  fold_left join_component p a.

Fixpoint has_slash (p : string) : bool :=
  match p with
  | EmptyString => false
  | String c rest => Ascii.eqb c "/" || has_slash rest
  end.

Fixpoint os_path_basename (p : string) : string :=
  match p with
  | EmptyString => EmptyString
  | String c rest =>
      if has_slash rest then os_path_basename rest
      else if Ascii.eqb c "/" then rest else p
  end.

(** The sections of [conf] that [handle_outputs] reads and writes. *)
Record OutputsConf : Type := {
  main : option (gmap string string);
  outputs_lenv : option (gmap string string);
  service_logs : option (gmap string string)
}.

(** [conf[name][key]] *)
Definition section_item (sec : option (gmap string string))
  (name key : string) : result string :=
  match sec with
  | None => Raise (KeyError name)
  | Some m =>
      match m !! key with
      | Some v => Ok v
      | None => Raise (KeyError key)
      end
  end.

(** One element of [servicesLogs]. *)
Record ServiceLog : Type := {
  log_url : string;
  log_title : string;
  log_rel : string
}.

Definition service_log (c : OutputsConf) (tool_log : string) : result ServiceLog :=
  rbind (section_item (main c) "main" "tmpUrl") (fun tmpUrl =>
  rbind (section_item (outputs_lenv c) "lenv" "Identifier") (fun identifier =>
  rbind (section_item (outputs_lenv c) "lenv" "usid") (fun usid =>
  Ok {| log_url := os_path_join tmpUrl
                     [identifier +:+ "-" +:+ usid; os_path_basename tool_log];
        log_title := "Tool log " +:+ os_path_basename tool_log;
        log_rel := "related" |}))).

(** The list comprehension of lines 412-421. *)
Fixpoint services_logs (c : OutputsConf) (tool_logs : list string)
  : result (list ServiceLog) :=
  match tool_logs with
  | [] => Ok []
  | tool_log :: rest =>
      rbind (service_log c tool_log) (fun entry =>
      rbind (services_logs c rest) (fun entries => Ok (entry :: entries)))
  end.

Definition okeys : list string := ["url"; "title"; "rel"]%string.

(** Lines 423-427: the key [okey] of entry number [i]. *)
Definition log_key (okey : string) (i : nat) : string :=
  match i with
  | O => okey
  | S _ => okey +:+ "_" +:+ pretty i
  end.

(** Lines 428-431: entry number [i] goes into [conf["service_logs"]], which
    is created when missing. *)
Definition store_log (i : nat) (entry : ServiceLog)
  (logs : option (gmap string string)) : option (gmap string string) :=
  Some (<[log_key "rel" i := log_rel entry]>
          (<[log_key "title" i := log_title entry]>
             (<[log_key "url" i := log_url entry]> (default ∅ logs)))).

Fixpoint store_logs (i : nat) (entries : list ServiceLog)
  (logs : option (gmap string string)) : option (gmap string string) :=
  match entries with
  | [] => logs
  | entry :: rest => store_logs (S i) rest (store_log i entry logs)
  end.

Definition with_service_logs (m : gmap string string) (c : OutputsConf)
  : OutputsConf :=
  {| main := main c; outputs_lenv := outputs_lenv c; service_logs := Some m |}.

(** The method: the outcome and [conf] afterwards. An exception is logged
    and raised again. *)
Definition handle_outputs (c : OutputsConf) (tool_logs : list string)
  : result unit * OutputsConf :=
  match services_logs c tool_logs with
  | Raise e => (Raise e, c)
  | Ok servicesLogs =>
      match store_logs 0 servicesLogs (service_logs c) with
      | None => (Raise (KeyError "service_logs"), c)
      | Some m =>
          (Ok tt,
           with_service_logs (<["length" := pretty (length servicesLogs)]> m) c)
      end
  end.

(** ** The getters of the handler *)

(** [self.conf.get("additional_parameters", {})] *)
Definition get_additional_parameters (h : Handler) : gmap string value :=
  default ∅ (additional_parameters (conf h)).

Section Secrets.

Variable open_file : string -> result string.
Variable yaml_safe_load : string -> result value.

Definition get_secrets : result value :=
  local_get_file open_file yaml_safe_load "/assets/pod_imagePullSecrets.yaml".

End Secrets.

(** [conf] has the three entries a service log is built from. *)
Definition logs_conf_complete (c : OutputsConf)
  (tmpUrl identifier usid : string) : Prop :=
  section_item (main c) "main" "tmpUrl" = Ok tmpUrl
  /\ section_item (outputs_lenv c) "lenv" "Identifier" = Ok identifier
  /\ section_item (outputs_lenv c) "lenv" "usid" = Ok usid.

(** The entry [handle_outputs] builds for one tool log. *)
Definition expected_log (tmpUrl identifier usid tool_log : string) : ServiceLog :=
  {| log_url := os_path_join tmpUrl
                  [identifier +:+ "-" +:+ usid; os_path_basename tool_log];
     log_title := "Tool log " +:+ os_path_basename tool_log;
     log_rel := "related" |}.

(** [m] leaves the component [f] of the state as it found it, whether it
    returns or raises. *)
Definition keeps {A B} (f : State -> B) (m : M A) : Prop :=
  forall s, f (snd (m s)) = f s.

(** What the hand-off of lines 226-232 raises at a parameter, if anything:
    the [KeyError] of the subscript when the parameter is missing, a
    [TypeError] when it does not hold a string, a [ValueError] when the
    string has an embedded NUL. *)
Definition export_error (r : result value) : option exn :=
  match r with
  | Raise e => Some e
  | Ok (VStr txt) => if has_nul txt then Some ValueError else None
  | Ok _ => Some TypeError
  end.

(** The first parameter of [table] the hand-off cannot copy is the one
    read from [key], and [e] is what it raises there; [before] are the
    entries copied until then. *)
Definition first_export_failure (c : Conf) (table : list (string * string))
  (before : list (string * string)) (name key : string) (e : exn) : Prop :=
  (exists after, table = (before ++ (name, key) :: after)%list)
  /\ Forall (exportable c) before
  /\ export_error (conf_param c key) = Some e.

(** Every string among the parameters of the hand-off is free of NUL, as
    the strings are that come from the process environment. *)
Definition exports_nul_free (c : Conf) : Prop :=
  forall name key txt,
    (name, key) ∈ exported_parameters ->
    conf_param c key = Ok (VStr txt) -> has_nul txt = false.

(** Lines 182-188: the credentials dictionary of a workspace answer, or the
    exception met on the way to it. *)
Definition credentials_dict (resp : Response) : result dict :=
  rbind (json resp) (fun workspace_response =>
  rbind (subscript workspace_response "storage") (fun storage =>
  rbind (subscript storage "credentials") (fun storage_credentials =>
  match storage_credentials with
  | VDict d => Ok d
  | _ => Raise (AttributeError "get")
  end))).

(** The token is absent, or present and decoded to [claims]. *)
Definition token_decodes (ext : Externals) (h : Handler) : Prop :=
  str_truthy (ades_rx_token h) = false
  \/ exists claims, jwt_decode ext (ades_rx_token h) = Ok claims.

(** The keys [Asset.from_dict] pops, and the keys the fallback writes. *)
Definition reserved_keys : list string :=
  ["href"; "type"; "title"; "description"; "roles"]%string.

Definition storage_keys : list string :=
  ["storage:platform"; "storage:requester_pays"; "storage:tier";
   "storage:region"; "storage:endpoint"]%string.

(** An asset as [Asset.from_dict] builds it from a JSON object: the extra
    fields have distinct keys, none of them one of the named attributes. *)
Definition asset_well_formed (a : Stac.Asset) : Prop :=
  NoDup (dict_keys (Stac.extra_fields a))
  /\ Forall (fun k => k ∉ reserved_keys) (dict_keys (Stac.extra_fields a)).

(** ** What the fallback over items is expected to give *)

(** An asset [a] and the asset [a'] the fallback puts in its place: [a']
    carries the five storage fields and is well formed; when [a] is well
    formed too, everything else is as in [a]. *)
Definition annotated (region endpoint : value) (a a' : Stac.Asset) : Prop :=
  storage_annotated region endpoint a'
  /\ asset_well_formed a'
  /\ (asset_well_formed a ->
      Stac.href a' = Stac.href a
      /\ Stac.media_type a' = Stac.media_type a
      /\ Stac.title a' = Stac.title a
      /\ Stac.description a' = Stac.description a
      /\ Stac.roles a' = Stac.roles a
      /\ forall k, k ∉ storage_keys ->
           dict_get (Stac.extra_fields a') k = dict_get (Stac.extra_fields a) k).

(** An item [i] of the catalog and the item [i'] the fallback leaves in
    its place in memory: the same item, extra fields included, but for the
    collection id, which is the supplied one, and the assets, which are
    the annotated ones under the same keys and in the same order. *)
Definition restamped (region endpoint collection_id : value)
  (i i' : Stac.Item) : Prop :=
  Stac.item_id i' = Stac.item_id i
  /\ Stac.properties i' = Stac.properties i
  /\ Stac.geometry i' = Stac.geometry i
  /\ Stac.links i' = Stac.links i
  /\ Stac.bbox i' = Stac.bbox i
  /\ Stac.stac_extensions i' = Stac.stac_extensions i
  /\ Stac.item_extra_fields i' = Stac.item_extra_fields i
  /\ Stac.collection_id i' = collection_id
  /\ Forall2 (fun ka ka' => fst ka' = fst ka
                            /\ annotated region endpoint (snd ka) (snd ka'))
             (Stac.assets i) (Stac.assets i').

(** A serialised asset that carries the five storage fields. *)
Definition carries_storage (region endpoint : value) (d : dict) : Prop :=
  dict_get d "storage:platform" = Some (VStr "EOEPCA")
  /\ dict_get d "storage:requester_pays" = Some (VBool false)
  /\ dict_get d "storage:tier" = Some (VStr "Standard")
  /\ dict_get d "storage:region" = Some region
  /\ dict_get d "storage:endpoint" = Some endpoint.

(** The feature published for a restamped item [i]: the GeoJSON of a clone
    of a clone of it (line 266 clones the item, and the item collection
    clones what it is given). It has the members of the item model in the
    order of [Item.to_dict] and the links as cloning leaves them; the
    bounding box is written when there is one, the collection when the id
    is not empty, and no other top-level field is. *)
Definition published_feature (clone_link : value -> value) (i : Stac.Item)
  : dict :=
  ([("type", VStr "Feature");
    ("stac_version", VStr "1.0.0");
    ("id", Stac.item_id i);
    ("properties", Stac.properties i);
    ("geometry", Stac.geometry i);
    ("links", VList (map (fun link => clone_link (clone_link link))
                         (Stac.links i)));
    ("assets", VDict (map (fun ka => (fst ka, VDict (Stac.Asset_to_dict (snd ka))))
                          (Stac.assets i)))]
   ++ match Stac.bbox i with VNone => [] | box => [("bbox", box)] end
   ++ [("stac_extensions",
        if truthy (Stac.stac_extensions i) then Stac.stac_extensions i
        else VList [])]
   ++ (if truthy (Stac.collection_id i)
       then [("collection", Stac.collection_id i)] else []))%list%string.

(** The collection dictionary of lines 278-279 for the items [items]. *)
Definition published_collection (clone_link : value -> value)
  (collection_id : value) (items : list Stac.Item) : dict :=
  [("type", VStr "FeatureCollection");
   ("features",
    VList (map (fun i => VDict (published_feature clone_link i)) items));
   ("id", collection_id)]%string.

(** * Properties *)

(** ** Dictionaries *)

Lemma dict_get_set_eq (d : dict) (k : string) (v : value) :
  dict_get (dict_set d k v) k = Some v.
Proof.
  induction d as [|[k' v'] d IH]; simpl.
  - by rewrite String.eqb_refl.
  - destruct (String.eqb_spec k k') as [->|Hne]; simpl.
    + by rewrite String.eqb_refl.
    + destruct (String.eqb_spec k k'); [done | exact IH].
Qed.

Lemma dict_get_set_ne (d : dict) (k k' : string) (v : value) :
  k ≠ k' → dict_get (dict_set d k v) k' = dict_get d k'.
Proof.
  intros Hne. induction d as [|[k0 v0] d IH]; simpl.
  - destruct (String.eqb_spec k' k); [congruence | done].
  - destruct (String.eqb_spec k k0) as [->|Hk]; simpl.
    + destruct (String.eqb_spec k' k0); [congruence | done].
    + by rewrite IH.
Qed.

Lemma dict_get_remove_ne (d : dict) (k k' : string) :
  k ≠ k' → dict_get (dict_remove d k) k' = dict_get d k'.
Proof.
  intros Hne. induction d as [|[k0 v0] d IH]; simpl; [done |].
  destruct (String.eqb_spec k k0) as [->|Hk]; simpl.
  - destruct (String.eqb_spec k' k0); [congruence | done].
  - by rewrite IH.
Qed.

Lemma dict_get_keys (d : dict) (k : string) (v : value) :
  dict_get d k = Some v → k ∈ dict_keys d.
Proof.
  induction d as [|[k0 v0] d IH]; simpl; [done |].
  destruct (String.eqb_spec k k0) as [->|Hk]; intros H.
  - apply list_elem_of_here.
  - apply list_elem_of_further. by apply IH.
Qed.

(** ** [get_user_name] *)

Lemma first_present_skip (before keys : list string) (d : dict) :
  Forall (fun k => dict_get d k = None) before →
  first_present (before ++ keys)%list d = first_present keys d.
Proof.
  induction 1 as [|k before Hk _ IH]; simpl; [done |].
  by rewrite Hk.
Qed.

(** C5. [get_user_name] returns the value stored under the first of
    username, user_name, preferred_username that the decoded token
    contains, in that order, and the empty string when it contains none. *)
Theorem get_user_name_first_present (decodedJwt : dict) :
  (∀ (before : list string) (key : string) (after : list string) (v : value),
      username_keys = (before ++ key :: after)%list →
      Forall (fun k => dict_get decodedJwt k = None) before →
      dict_get decodedJwt key = Some v →
      get_user_name decodedJwt = v)
  ∧ (Forall (fun k => dict_get decodedJwt k = None) username_keys →
     get_user_name decodedJwt = VStr "").
Proof.
  split.
  - intros before key after v Hkeys Habsent Hkey.
    unfold get_user_name. rewrite Hkeys, first_present_skip by done.
    simpl. by rewrite Hkey.
  - intros Hnone. unfold get_user_name.
    rewrite <- (app_nil_r username_keys). by rewrite first_present_skip.
Qed.

Lemma get_user_name_first_present_witness :
  get_user_name [("preferred_username"%string, VStr "alice");
                 ("user_name"%string, VStr "al")] = VStr "al"
  ∧ get_user_name [("sub"%string, VStr "42")] = VStr "".
Proof.
  split.
  - apply (proj1 (get_user_name_first_present _)
             ["username"%string] "user_name"%string
             ["preferred_username"%string] (VStr "al")).
    + reflexivity.
    + repeat constructor.
    + reflexivity.
  - apply (proj2 (get_user_name_first_present _)). repeat constructor.
Defined.

(** ** [local_get_file] *)

(** C10, amended. [local_get_file] returns the parsed content when the file
    opens and its content loads. When opening or loading raises, the
    outcome depends on the class of the exception alone: the empty mapping
    is returned, without raising, for [FileNotFoundError] and for a
    [YAMLError]; every other exception leaves the function, so a file that
    cannot be opened for another reason, or whose content cannot be
    decoded, makes it raise. *)
Theorem local_get_file_spec (open_file : string → result string)
  (yaml_safe_load : string → result value) (fileName : string) :
  let raises e :=
    open_file fileName = Raise e
    ∨ ∃ txt, open_file fileName = Ok txt ∧ yaml_safe_load txt = Raise e in
  (∀ txt data,
      open_file fileName = Ok txt → yaml_safe_load txt = Ok data →
      local_get_file open_file yaml_safe_load fileName = Ok data)
  ∧ (∀ e, raises e → e = FileNotFoundError ∨ e = YAMLError →
          local_get_file open_file yaml_safe_load fileName = Ok (VDict []))
  ∧ (∀ e, raises e → e ≠ FileNotFoundError → e ≠ YAMLError →
          local_get_file open_file yaml_safe_load fileName = Raise e).
Proof.
  intros raises. unfold local_get_file. split; [| split].
  - intros txt data Hopen Hload. rewrite Hopen. simpl. by rewrite Hload.
  - intros e [Hopen|(txt & Hopen & Hload)] [-> | ->]; rewrite Hopen; simpl;
      by rewrite ?Hload.
  - intros e [Hopen|(txt & Hopen & Hload)] Hfnf Hyaml; rewrite Hopen; simpl;
      rewrite ?Hload; by destruct e.
Qed.

Lemma local_get_file_spec_witness :
  local_get_file Sample.open_file Sample.yaml_safe_load
    "/assets/pod_imagePullSecrets.yaml"
  = Ok (VList [VDict [("name"%string, VStr "regcred")]])
  ∧ local_get_file Sample.open_file Sample.yaml_safe_load "/assets/missing.yaml"
    = Ok (VDict [])
  ∧ local_get_file Sample.open_file Sample.yaml_safe_load "/assets/broken.yaml"
    = Ok (VDict [])
  ∧ local_get_file Sample.open_file Sample.yaml_safe_load "/assets"
    = Raise (OtherError "IsADirectoryError")
  ∧ local_get_file Sample.open_file Sample.yaml_safe_load "/assets/binary.yaml"
    = Raise UnicodeDecodeError.
Proof.
  split; [| split; [| split; [| split]]].
  - apply (proj1 (local_get_file_spec _ _ _) "- name: regcred"%string);
      reflexivity.
  - apply (proj1 (proj2 (local_get_file_spec _ _ _)) FileNotFoundError).
    + left. reflexivity.
    + by left.
  - apply (proj1 (proj2 (local_get_file_spec _ _ _)) YAMLError).
    + right. exists "a: [b"%string. split; reflexivity.
    + by right.
  - apply (proj2 (proj2 (local_get_file_spec _ _ _))
             (OtherError "IsADirectoryError")).
    + left. reflexivity.
    + discriminate.
    + discriminate.
  - apply (proj2 (proj2 (local_get_file_spec _ _ _)) UnicodeDecodeError).
    + right. exists Sample.undecodable. split; reflexivity.
    + discriminate.
    + discriminate.
Defined.

(** C10 as stated fails: a file that exists and whose content cannot be
    loaded does not always give the empty mapping. A file that is not
    UTF-8 text makes the read inside [yaml.safe_load] raise
    [UnicodeDecodeError], which no clause catches, and a path that cannot
    be opened for a reason other than a missing file raises as well. *)
Lemma local_get_file_undecodable_content_raises :
  Sample.open_file "/assets/binary.yaml" = Ok Sample.undecodable
  ∧ Sample.yaml_safe_load Sample.undecodable = Raise UnicodeDecodeError
  ∧ local_get_file Sample.open_file Sample.yaml_safe_load "/assets/binary.yaml"
    = Raise UnicodeDecodeError
  ∧ local_get_file Sample.open_file Sample.yaml_safe_load "/assets/binary.yaml"
    ≠ Ok (VDict []).
Proof. vm_compute. by repeat split. Qed.

(** ** [CustomStacIO] *)

Lemma constructor_sets_access_point (env : gmap string string)
  (io : CustomStacIO.Instance) :
  CustomStacIO.__init__ env = Ok io →
  CustomStacIO.own_access_point io = Some VNone.
Proof.
  unfold CustomStacIO.__init__, CustomStacIO.environ_item.
  destruct (env !! "AWS_ACCESS_KEY_ID") as [key|]; simpl; [|done].
  destruct (str_truthy key).
  - destruct (env !! "AWS_SECRET_ACCESS_KEY"); simpl; [|done].
    by intros [= <-].
  - by intros [= <-].
Qed.

(** C9. For an instance built by the constructor, [read_text] and
    [write_text] take the bucket from the network location of the URI,
    whatever value [set_access_point] installed on the class: the
    instance attribute set to [None] by the constructor is found first. *)
Theorem access_point_never_takes_effect
  (urlparse : string → CustomStacIO.ParseResult) (env : gmap string string)
  (io : CustomStacIO.Instance) (cls : option value) (v : value)
  (source txt : string) :
  CustomStacIO.__init__ env = Ok io →
  let cls' := CustomStacIO.set_access_point v cls in
  let parsed := urlparse source in
  CustomStacIO.bucket_for cls' io parsed
  = Ok (VStr (CustomStacIO.netloc parsed))
  ∧ CustomStacIO.read_text urlparse cls' io source
    = Ok (if (CustomStacIO.scheme parsed =? "s3")%string
          then CustomStacIO.GetObject (CustomStacIO.s3_client io)
                 (VStr (CustomStacIO.netloc parsed)) (CustomStacIO.key_of parsed)
          else CustomStacIO.DefaultReadText source)
  ∧ CustomStacIO.write_text urlparse cls' io source txt
    = Ok (if (CustomStacIO.scheme parsed =? "s3")%string
          then CustomStacIO.PutObject (CustomStacIO.s3_client io)
                 (VStr (CustomStacIO.netloc parsed)) (CustomStacIO.key_of parsed)
                 txt "application/geo+json"
          else CustomStacIO.DefaultWriteText source txt).
Proof.
  intros Hinit cls' parsed.
  pose proof (constructor_sets_access_point _ _ Hinit) as Hown.
  assert (Hbucket : CustomStacIO.bucket_for cls' io parsed
                    = Ok (VStr (CustomStacIO.netloc parsed))).
  { unfold CustomStacIO.bucket_for, CustomStacIO.access_point.
    by rewrite Hown. }
  split; [exact Hbucket |].
  unfold CustomStacIO.read_text, CustomStacIO.write_text.
  fold parsed. rewrite Hbucket. simpl.
  split; by destruct (CustomStacIO.scheme parsed =? "s3")%string.
Qed.

(** ** Running the monad *)

Lemma try_except_reraise {A} (m : M A) (s : State) :
  try_except m (fun e => raise e) s = m s.
Proof. unfold try_except, raise. by destruct (m s) as [[a|e] s']. Qed.

Lemma bind_ok {A B} (m : M A) (k : A → M B) (s s' : State) (a : A) :
  m s = (Ok a, s') → bind m k s = k a s'.
Proof. intros H. unfold bind. by rewrite H. Qed.

Lemma bind_raise {A B} (m : M A) (k : A → M B) (s s' : State) (e : exn) :
  m s = (Raise e, s') → bind m k s = (Raise e, s').
Proof. intros H. unfold bind. by rewrite H. Qed.

(** One step of a hook, for each primitive. *)

Lemma bind_ret {A B} (a : A) (k : A → M B) (s : State) :
  bind (ret a) k s = k a s.
Proof. reflexivity. Qed.

Lemma bind_modify {B} (f : State → State) (k : unit → M B) (s : State) :
  bind (modify f) k s = k tt (f s).
Proof. reflexivity. Qed.

Lemma bind_gets {A B} (f : State → A) (k : A → M B) (s : State) :
  bind (gets f) k s = k (f s) s.
Proof. reflexivity. Qed.

Lemma bind_lift_ok {A B} (r : result A) (a : A) (k : A → M B) (s : State) :
  r = Ok a → bind (lift r) k s = k a s.
Proof. by intros ->. Qed.

Lemma bind_assoc {A B C} (m : M A) (f : A → M B) (g : B → M C) (s : State) :
  bind (bind m f) g s = bind m (fun a => bind (f a) g) s.
Proof. unfold bind. by destruct (m s) as [[a|e] s']. Qed.

Lemma bind_param_set {B} (key : string) (v : value) (p : gmap string value)
  (k : unit → M B) (s : State) :
  additional_parameters (conf (self s)) = Some p →
  bind (param_set key v) k s = k tt (set_parameters (<[key := v]> p) s).
Proof. intros H. unfold bind, param_set. by rewrite H. Qed.

Lemma param_set_run (key : string) (v : value) (p : gmap string value)
  (s : State) :
  additional_parameters (conf (self s)) = Some p →
  param_set key v s = (Ok tt, set_parameters (<[key := v]> p) s).
Proof. intros H. unfold param_set. by rewrite H. Qed.

Lemma parameters_set_parameters (p : gmap string value) (s : State) :
  additional_parameters (conf (self (set_parameters p s))) = Some p.
Proof. reflexivity. Qed.

Lemma bind_http_ok {B} (oracle : http_call → result Response) (c : http_call)
  (resp : Response) (k : Response → M B) (s : State) :
  oracle c = Ok resp →
  bind (http oracle c) k s
  = k resp (with_http_log
              (fun l => (l ++ [{| call := c;
                                  proxy_seen := environ s !! "HTTP_PROXY" |}])%list)
              s).
Proof. intros H. unfold bind, http. by rewrite H. Qed.

Lemma bind_get_username {B} (v : value) (k : value → M B) (s : State) :
  username (self s) = Some v → bind get_username k s = k v s.
Proof. intros H. unfold bind, get_username. by rewrite H. Qed.

(** ** The pre-execution hook against the workspace API *)

(** The last four assignments of the hook (lines 203-207). *)
Lemma pre_body_tail (s : State) (p : gmap string value) (usid name : string)
  (ap : value) :
  additional_parameters (conf (self s)) = Some p →
  (exec param_set "collection_id" (VStr usid) in
   exec param_set "process" (VStr "processing-results") in
   exec param_set "STAGEOUT_WORKSPACE" (VStr name) in
   param_set "STAGEOUT_ACCESS_POINT" ap) s
  = (Ok tt,
     set_parameters
       (<["STAGEOUT_ACCESS_POINT" := ap]>
          (<["STAGEOUT_WORKSPACE" := VStr name]>
             (<["process" := VStr "processing-results"]>
                (<["collection_id" := VStr usid]> p))))
       s).
Proof.
  intros Hp.
  rewrite (bind_param_set _ _ _ _ _ Hp).
  rewrite (bind_param_set _ _ _ _ _ (parameters_set_parameters _ _)).
  rewrite (bind_param_set _ _ _ _ _ (parameters_set_parameters _ _)).
  rewrite (param_set_run _ _ _ _ (parameters_set_parameters _ _)).
  by destruct s.
Qed.

Ltac proj :=
  cbn [self environ class_access_point http_log cat
       with_self with_environ with_http_log with_cat with_class_access_point
       conf http_proxy_env domain workspace_url workspace_prefix use_workspace
       workspace_name ades_rx_token username feature_collection
       with_conf with_use_workspace with_username with_feature_collection
       with_additional_parameters set_parameters
       eoepca auth_env lenv additional_parameters] in *.

(** The hook up to the workspace lookup (lines 141-162). *)
Lemma pre_body_prefix (ext : Externals) (s : State) (ap : value)
  (claims : dict) :
  load_incluster_config ext = Ok tt →
  lookup_access_point ext (workspace_name (self s)) = Ok ap →
  str_truthy (ades_rx_token (self s)) = true →
  jwt_decode ext (ades_rx_token (self s)) = Ok claims →
  pre_execution_body ext s
  = (exec lookup_workspace ext in
     do usid <- gets (fun s => section_get (lenv (conf (self s))) "usid" "") in
     exec param_set "collection_id" (VStr usid) in
     exec param_set "process" (VStr "processing-results") in
     exec param_set "STAGEOUT_WORKSPACE" (VStr (workspace_name (self s))) in
     param_set "STAGEOUT_ACCESS_POINT" ap)
      (with_self (with_username (get_user_name claims))
         (with_environ (delete "HTTP_PROXY") s)).
Proof.
  intros Hload Hap Htok Hjwt.
  unfold pre_execution_body, unset_http_proxy_env.
  rewrite bind_modify, (bind_lift_ok _ _ _ _ Hload), bind_gets. proj.
  rewrite (bind_lift_ok _ _ _ _ Hap), bind_gets. proj.
  rewrite Htok, bind_assoc, (bind_lift_ok _ _ _ _ Hjwt), bind_modify.
  reflexivity.
Qed.

Lemma pre_body_lookup_failed (ext : Externals) (s : State)
  (p : gmap string value) (ap : value) (resp : Response) :
  additional_parameters (conf (self s)) = Some p →
  workspace_answers ext (self s) ap resp →
  ok resp = false →
  ∃ s', pre_execution_body ext s = (Ok tt, s')
        ∧ use_workspace (self s') = false
        ∧ additional_parameters (conf (self s'))
          = Some (<["STAGEOUT_ACCESS_POINT" := ap]>
                    (<["STAGEOUT_WORKSPACE" := VStr (workspace_name (self s))]>
                       (<["process" := VStr "processing-results"]>
                          (<["collection_id" :=
                               VStr (section_get (lenv (conf (self s))) "usid" "")]>
                             p)))).
Proof.
  intros Hp (Hload & Hap & Htok & Huse & claims & Hjwt & Hget) Hok.
  rewrite (pre_body_prefix _ _ _ _ Hload Hap Htok Hjwt).
  unfold lookup_workspace.
  rewrite bind_assoc, bind_gets. proj. rewrite Huse.
  rewrite bind_assoc, bind_gets, bind_assoc.
  rewrite (bind_get_username (get_user_name claims)) by reflexivity.
  rewrite bind_assoc, bind_gets, bind_assoc, bind_gets, bind_assoc. proj.
  rewrite (bind_http_ok _ _ _ _ _ Hget), Hok.
  rewrite bind_modify, bind_gets. proj.
  rewrite (pre_body_tail _ p) by exact Hp.
  eexists. split; [reflexivity |]. split; reflexivity.
Qed.

Lemma bind_method_get {B} (creds : dict) (field : string)
  (k : value → M B) (s : State) :
  bind (lift (method_get (VDict creds) field)) k s
  = k (dict_get_or_none creds field) s.
Proof. reflexivity. Qed.

(** Lines 181-192 on a well-formed answer. *)
Lemma use_workspace_details_run (s : State) (p : gmap string value)
  (resp : Response) (body storage : value) (creds : dict) :
  additional_parameters (conf (self s)) = Some p →
  json resp = Ok body →
  subscript body "storage" = Ok storage →
  subscript storage "credentials" = Ok (VDict creds) →
  use_workspace_details resp s
  = (Ok tt,
     set_parameters
       (<["STAGEOUT_OUTPUT" := dict_get_or_none creds "bucketname"]>
       (<["STAGEOUT_AWS_REGION" := dict_get_or_none creds "region"]>
       (<["STAGEOUT_AWS_SECRET_ACCESS_KEY" := dict_get_or_none creds "secret"]>
       (<["STAGEOUT_AWS_ACCESS_KEY_ID" := dict_get_or_none creds "access"]>
       (<["STAGEOUT_AWS_SERVICEURL" := dict_get_or_none creds "endpoint"]>
          p)))))
       s).
Proof.
  intros Hp Hjson Hstorage Hcreds. unfold use_workspace_details.
  rewrite (bind_lift_ok _ _ _ _ Hjson), (bind_lift_ok _ _ _ _ Hstorage),
    (bind_lift_ok _ _ _ _ Hcreds).
  rewrite bind_method_get, (bind_param_set _ _ _ _ _ Hp).
  do 3 rewrite bind_method_get,
    (bind_param_set _ _ _ _ _ (parameters_set_parameters _ _)).
  rewrite bind_method_get,
    (param_set_run _ _ _ _ (parameters_set_parameters _ _)).
  by destruct s.
Qed.

Lemma pre_body_lookup_ok (ext : Externals) (s : State)
  (p : gmap string value) (ap : value) (resp : Response)
  (body storage : value) (creds : dict) :
  additional_parameters (conf (self s)) = Some p →
  workspace_answers ext (self s) ap resp →
  ok resp = true →
  json resp = Ok body →
  subscript body "storage" = Ok storage →
  subscript storage "credentials" = Ok (VDict creds) →
  ∃ s', pre_execution_body ext s = (Ok tt, s')
        ∧ use_workspace (self s') = true
        ∧ additional_parameters (conf (self s'))
          = Some (<["STAGEOUT_ACCESS_POINT" := ap]>
                 (<["STAGEOUT_WORKSPACE" := VStr (workspace_name (self s))]>
                 (<["process" := VStr "processing-results"]>
                 (<["collection_id" :=
                      VStr (section_get (lenv (conf (self s))) "usid" "")]>
                 (<["STAGEOUT_OUTPUT" := dict_get_or_none creds "bucketname"]>
                 (<["STAGEOUT_AWS_REGION" := dict_get_or_none creds "region"]>
                 (<["STAGEOUT_AWS_SECRET_ACCESS_KEY" :=
                      dict_get_or_none creds "secret"]>
                 (<["STAGEOUT_AWS_ACCESS_KEY_ID" :=
                      dict_get_or_none creds "access"]>
                 (<["STAGEOUT_AWS_SERVICEURL" :=
                      dict_get_or_none creds "endpoint"]> p))))))))).
Proof.
  intros Hp (Hload & Hap & Htok & Huse & claims & Hjwt & Hget)
    Hok Hjson Hstorage Hcreds.
  rewrite (pre_body_prefix _ _ _ _ Hload Hap Htok Hjwt).
  unfold lookup_workspace.
  rewrite bind_assoc, bind_gets. proj. rewrite Huse.
  rewrite bind_assoc, bind_gets, bind_assoc.
  rewrite (bind_get_username (get_user_name claims)) by reflexivity.
  rewrite bind_assoc, bind_gets, bind_assoc, bind_gets, bind_assoc. proj.
  rewrite (bind_http_ok _ _ _ _ _ Hget), Hok.
  erewrite (bind_ok (use_workspace_details resp));
    [| by apply (use_workspace_details_run _ p _ body storage creds)].
  rewrite bind_gets. proj.
  rewrite (pre_body_tail _ _ _ _ _ (parameters_set_parameters _ _)).
  eexists. split; [reflexivity |]. split; [exact Huse | reflexivity].
Qed.

(** What [try ... except: raise ... finally: restore] adds to a hook body:
    the outcome is that of the body, and only the environment differs. *)
Lemma hook_wrapper {A} (body : M A) (s s1 : State) (r : result A) :
  body s = (r, s1) →
  ∃ s', try_finally (try_except body (fun e => raise e))
          restore_http_proxy_env s = (r, s')
        ∧ self s' = self s1
        ∧ http_log s' = http_log s1
        ∧ cat s' = cat s1
        ∧ class_access_point s' = class_access_point s1.
Proof.
  intros Hbody. unfold try_finally. rewrite try_except_reraise, Hbody.
  unfold restore_http_proxy_env.
  destruct (http_proxy_env (self s1)) as [v|]; [destruct (str_truthy v) |];
    eexists; (split; [reflexivity |]); by repeat split.
Qed.

Lemma config_defaults_NoDup : NoDup (map fst config_defaults).
Proof. by apply (bool_decide_unpack _); vm_compute. Qed.

Lemma install_defaults_other (env : gmap string string)
  (table : list (string * value)) (p : gmap string value) (key : string) :
  key ∉ map fst table → install_defaults env table p !! key = p !! key.
Proof.
  unfold install_defaults. revert p.
  induction table as [|[k d] table IH]; intros p Hnot; simpl in *; [done |].
  apply not_elem_of_cons in Hnot as [Hne Hnot].
  rewrite IH by done. by rewrite lookup_insert_ne.
Qed.

Lemma install_defaults_lookup (env : gmap string string)
  (table : list (string * value)) (p : gmap string value)
  (key : string) (dflt : value) :
  NoDup (map fst table) → In (key, dflt) table →
  install_defaults env table p !! key = Some (environ_get env key dflt).
Proof.
  revert p. induction table as [|[k d] table IH]; intros p Hnd Hin; [done |].
  simpl in Hnd. apply NoDup_cons in Hnd as [Hnot Hnd].
  destruct Hin as [[= -> ->]|Hin].
  - change (install_defaults env ((key, dflt) :: table) p)
      with (install_defaults env table (<[key := environ_get env key dflt]> p)).
    rewrite install_defaults_other by done. by rewrite lookup_insert_eq.
  - change (install_defaults env ((k, d) :: table) p)
      with (install_defaults env table (<[k := environ_get env k d]> p)).
    by apply IH.
Qed.

(** The constructor leaves every parameter of the table at the value of its
    environment variable, or at its default. *)
Lemma init_installs_defaults (c : Conf)
  (inputs : gmap string (gmap string string)) (env : gmap string string)
  (key : string) (dflt : value) :
  In (key, dflt) config_defaults →
  conf_param (conf (__init__ c inputs env)) key = Ok (environ_get env key dflt).
Proof.
  intros Hin. unfold conf_param, __init__, init_config_defaults. proj.
  by rewrite (install_defaults_lookup _ _ _ _ dflt config_defaults_NoDup Hin).
Qed.

Lemma config_defaults_not_run_keys (key : string) (dflt : value) :
  In (key, dflt) config_defaults →
  key ≠ "collection_id"%string ∧ key ≠ "process"%string.
Proof.
  unfold config_defaults. simpl.
  intros H. repeat (destruct H as [H|H]; [injection H as <- _; by split |]).
  destruct H.
Qed.

(** C3, amended. When the workspace is configured and the workspace-details
    GET answers with a status for which [ok] is false (400 to 599), the hook
    returns, [use_workspace] becomes false, and every parameter the
    constructor installed keeps the value it took from the environment, or
    its default, except two: the five stage-out credentials and
    STAGEOUT_PULSAR_URL among them. The two exceptions are
    STAGEOUT_WORKSPACE and STAGEOUT_ACCESS_POINT, which the hook writes all
    the same. *)
Theorem pre_hook_failed_lookup_keeps_credentials (ext : Externals) (c : Conf)
  (inputs : gmap string (gmap string string)) (env : gmap string string)
  (ap : value) (resp : Response) :
  let s := constructed c inputs env in
  let out := pre_execution_hook ext s in
  workspace_answers ext (self s) ap resp →
  ok resp = false →
  fst out = Ok tt
  ∧ use_workspace (self (snd out)) = false
  ∧ (∀ key dflt,
        In (key, dflt) config_defaults →
        key ≠ "STAGEOUT_WORKSPACE"%string →
        key ≠ "STAGEOUT_ACCESS_POINT"%string →
        conf_param (conf (self (snd out))) key = Ok (environ_get env key dflt))
  ∧ conf_param (conf (self (snd out))) "STAGEOUT_WORKSPACE"
    = Ok (VStr (workspace_name (self s)))
  ∧ conf_param (conf (self (snd out))) "STAGEOUT_ACCESS_POINT" = Ok ap.
Proof.
  intros s out Hws Hok.
  destruct (pre_body_lookup_failed ext s _ ap resp eq_refl Hws Hok)
    as (s1 & Hrun & Huse & Hparams).
  destruct (hook_wrapper _ _ _ _ Hrun) as (s' & Hhook & Hself & _).
  subst out. unfold pre_execution_hook. rewrite Hhook. simpl.
  rewrite Hself. split; [done |]. split; [done |].
  unfold conf_param. rewrite Hparams. split; [| split].
  - intros key dflt Hdflt Hws' Hap'.
    destruct (config_defaults_not_run_keys _ _ Hdflt) as [H1 H2].
    rewrite !lookup_insert_ne by done.
    by rewrite (install_defaults_lookup _ _ _ _ dflt config_defaults_NoDup Hdflt).
  - rewrite lookup_insert_ne by done. by rewrite lookup_insert_eq.
  - by rewrite lookup_insert_eq.
Qed.

Lemma sample_workspace_answers (resp : Response) (catalog : result Stac.Catalog) :
  workspace_answers (Sample.ext resp catalog)
    (self (constructed Sample.conf Sample.inputs Sample.env))
    (VStr "bucket-alice") resp.
Proof.
  unfold workspace_answers.
  split; [reflexivity |]. split; [by vm_compute |].
  split; [by vm_compute |]. split; [by vm_compute |].
  exists Sample.claims. split; reflexivity.
Defined.

Lemma pre_hook_failed_lookup_keeps_credentials_witness :
  let resp := Sample.response 404 (Raise (OtherError "JSONDecodeError")) in
  let out := pre_execution_hook (Sample.ext resp (Raise FileNotFoundError))
               (constructed Sample.conf Sample.inputs Sample.env) in
  fst out = Ok tt
  ∧ use_workspace (self (snd out)) = false
  ∧ conf_param (conf (self (snd out))) "STAGEOUT_AWS_REGION"
    = Ok (VStr "RegionOne")
  ∧ conf_param (conf (self (snd out))) "STAGEOUT_PULSAR_URL"
    = Ok (VStr "pulsar://broker:6650")
  ∧ conf_param (conf (self (snd out))) "STAGEOUT_WORKSPACE" = Ok (VStr "alice").
Proof.
  intros resp out.
  destruct (pre_hook_failed_lookup_keeps_credentials
              (Sample.ext resp (Raise FileNotFoundError))
              Sample.conf Sample.inputs Sample.env (VStr "bucket-alice") resp
              (sample_workspace_answers _ _) eq_refl)
    as (H1 & H2 & Hkept & Hws & _).
  split; [exact H1 |]. split; [exact H2 |]. split; [| split].
  - apply (Hkept "STAGEOUT_AWS_REGION"%string (VStr "RegionOne"));
      [simpl; tauto | discriminate | discriminate].
  - apply (Hkept "STAGEOUT_PULSAR_URL"%string VNone);
      [simpl; tauto | discriminate | discriminate].
  - exact Hws.
Defined.

(** C3 as stated fails: with a 404 answer the hook still overwrites two of
    the STAGEOUT_ parameters the constructor installed, the workspace name
    and the access point. *)
Lemma pre_hook_404_overwrites_stageout_parameters :
  let s := constructed Sample.conf Sample.inputs Sample.env in
  let resp := Sample.response 404 (Raise (OtherError "JSONDecodeError")) in
  let out := pre_execution_hook (Sample.ext resp (Raise FileNotFoundError)) s in
  use_workspace (self s) = true
  ∧ ok resp = false
  ∧ fst out = Ok tt
  ∧ conf_param (conf (self s)) "STAGEOUT_WORKSPACE" = Ok (VStr "default")
  ∧ conf_param (conf (self (snd out))) "STAGEOUT_WORKSPACE" = Ok (VStr "alice")
  ∧ conf_param (conf (self s)) "STAGEOUT_ACCESS_POINT" = Ok VNone
  ∧ conf_param (conf (self (snd out))) "STAGEOUT_ACCESS_POINT"
    = Ok (VStr "bucket-alice").
Proof. vm_compute. by repeat split. Qed.

(** A status outside 400..599 is taken as a good answer, whatever it is: a
    304 without a body makes the hook raise, and [use_workspace] stays
    true. *)
Lemma pre_hook_status_304_is_ok :
  let s := constructed Sample.conf Sample.inputs Sample.env in
  let resp := Sample.response 304 (Raise (OtherError "JSONDecodeError")) in
  let out := pre_execution_hook (Sample.ext resp (Raise FileNotFoundError)) s in
  fst out = Raise (OtherError "JSONDecodeError")
  ∧ use_workspace (self (snd out)) = true.
Proof. vm_compute. by split. Qed.

Lemma stageout_credentials_cases (key field : string) :
  In (key, field) stageout_credentials →
  (key, field) = ("STAGEOUT_AWS_SERVICEURL", "endpoint")%string
  ∨ (key, field) = ("STAGEOUT_AWS_ACCESS_KEY_ID", "access")%string
  ∨ (key, field) = ("STAGEOUT_AWS_SECRET_ACCESS_KEY", "secret")%string
  ∨ (key, field) = ("STAGEOUT_AWS_REGION", "region")%string
  ∨ (key, field) = ("STAGEOUT_OUTPUT", "bucketname")%string.
Proof.
  unfold stageout_credentials. simpl.
  intros [H|[H|[H|[H|[H|[]]]]]]; rewrite <- H; tauto.
Qed.

(** C4. When the workspace is configured and the workspace-details GET
    answers 200 with a body holding [storage.credentials], the hook
    returns, the five stage-out parameters hold the endpoint, access,
    secret, region and bucketname fields of the body, and [use_workspace]
    is true afterwards. *)
Theorem pre_hook_workspace_credentials (ext : Externals) (s : State)
  (p : gmap string value) (ap : value) (resp : Response)
  (body storage : value) (creds : dict) :
  let out := pre_execution_hook ext s in
  additional_parameters (conf (self s)) = Some p →
  workspace_answers ext (self s) ap resp →
  status_code resp = 200 →
  json resp = Ok body →
  subscript body "storage" = Ok storage →
  subscript storage "credentials" = Ok (VDict creds) →
  fst out = Ok tt
  ∧ use_workspace (self (snd out)) = true
  ∧ ∀ key field,
      In (key, field) stageout_credentials →
      conf_param (conf (self (snd out))) key = Ok (dict_get_or_none creds field).
Proof.
  intros out Hp Hws Hstatus Hjson Hstorage Hcreds.
  assert (Hok : ok resp = true) by (unfold ok; by rewrite Hstatus).
  destruct (pre_body_lookup_ok ext s p ap resp body storage creds
              Hp Hws Hok Hjson Hstorage Hcreds) as (s1 & Hrun & Huse & Hparams).
  destruct (hook_wrapper _ _ _ _ Hrun) as (s' & Hhook & Hself & _).
  subst out. unfold pre_execution_hook. rewrite Hhook. simpl.
  rewrite Hself. split; [done |]. split; [done |].
  unfold conf_param. rewrite Hparams.
  intros key field Hin.
  destruct (stageout_credentials_cases _ _ Hin)
    as [H|[H|[H|[H|H]]]]; injection H as -> ->;
    rewrite !lookup_insert_ne by done; by rewrite lookup_insert_eq.
Qed.

Lemma pre_hook_workspace_credentials_witness :
  let resp := Sample.response 200 (Ok Sample.details) in
  let out := pre_execution_hook (Sample.ext resp (Raise FileNotFoundError))
               (constructed Sample.conf Sample.inputs Sample.env) in
  fst out = Ok tt
  ∧ use_workspace (self (snd out)) = true
  ∧ ∀ key field,
      In (key, field) stageout_credentials →
      conf_param (conf (self (snd out))) key
      = Ok (dict_get_or_none Sample.credentials field).
Proof.
  intros resp out.
  exact (pre_hook_workspace_credentials
           (Sample.ext resp (Raise FileNotFoundError))
           (constructed Sample.conf Sample.inputs Sample.env)
           _ (VStr "bucket-alice") resp Sample.details
           (VDict [("credentials"%string, VDict Sample.credentials)])
           Sample.credentials
           eq_refl (sample_workspace_answers _ _) eq_refl eq_refl eq_refl eq_refl).
Defined.

Lemma access_point_never_takes_effect_witness :
  let env : gmap string string :=
    <["AWS_ACCESS_KEY_ID" := "AK"]> (<["AWS_SECRET_ACCESS_KEY" := "SK"]> ∅) in
  let io := {| CustomStacIO.own_access_point := Some VNone;
               CustomStacIO.s3_client := CustomStacIO.with_keys env |} in
  CustomStacIO.read_text Sample.urlparse
    (CustomStacIO.set_access_point (VStr "bucket-alice") None) io
    "s3://ws-alice/run-1/catalog.json"
  = Ok (CustomStacIO.GetObject (CustomStacIO.s3_client io) (VStr "ws-alice")
          "run-1/catalog.json").
Proof.
  intros env io.
  assert (Hinit : CustomStacIO.__init__ env = Ok io) by (by vm_compute).
  exact (proj1 (proj2 (access_point_never_takes_effect Sample.urlparse env io
                         None (VStr "bucket-alice")
                         "s3://ws-alice/run-1/catalog.json" "" Hinit))).
Defined.

(** ** Invariants of hook bodies *)

Lemma hoare_bind {A B} (P Q : State → Prop) (m : M A) (k : A → M B) :
  hoare P m Q → (∀ a, hoare Q (k a) Q) → hoare P (bind m k) Q.
Proof.
  intros Hm Hk s Hs. specialize (Hm s Hs). unfold bind.
  destruct (m s) as [[a|e] s1]; simpl in *; [by apply Hk | done].
Qed.

Lemma hoare_ret {A} (P : State → Prop) (a : A) : hoare P (ret a) P.
Proof. by intros s Hs. Qed.

Lemma hoare_raise {A} (P : State → Prop) (e : exn) : hoare P (@raise A e) P.
Proof. by intros s Hs. Qed.

Lemma hoare_lift {A} (P : State → Prop) (r : result A) : hoare P (lift r) P.
Proof. by intros s Hs. Qed.

Lemma hoare_gets {A} (P : State → Prop) (f : State → A) : hoare P (gets f) P.
Proof. by intros s Hs. Qed.

Lemma hoare_modify (P Q : State → Prop) (f : State → State) :
  (∀ s, P s → Q (f s)) → hoare P (modify f) Q.
Proof. intros Hf s Hs. by apply Hf. Qed.

Lemma hoare_try_except {A} (P : State → Prop) (m : M A) (h : exn → M A) :
  hoare P m P → (∀ e, hoare P (h e) P) → hoare P (try_except m h) P.
Proof.
  intros Hm Hh s Hs. specialize (Hm s Hs). unfold try_except.
  destruct (m s) as [[a|e] s1]; simpl in *; [done | by apply Hh].
Qed.

Lemma hoare_try_finally {A} (P Q R : State → Prop) (m : M A) (fin : M unit) :
  hoare P m Q → hoare Q fin R → hoare P (try_finally m fin) R.
Proof.
  intros Hm Hfin s Hs. specialize (Hm s Hs). unfold try_finally.
  destruct (m s) as [r s1]; simpl in *. specialize (Hfin s1 Hm).
  by destruct (fin s1) as [[u|e] s2].
Qed.

Create HintDb hooks.

Section ProxyCleared.

Variable captured : option string.
Variable base : list http_event.

Let I := proxy_cleared captured base.

Lemma proxy_cleared_param_set (key : string) (v : value) :
  hoare I (param_set key v) I.
Proof.
  intros s Hs. unfold param_set.
  by destruct (additional_parameters (conf (self s))).
Qed.

Lemma proxy_cleared_with_self (f : Handler → Handler) :
  (∀ h, http_proxy_env (f h) = http_proxy_env h) →
  hoare I (modify (with_self f)) I.
Proof.
  intros Hf. apply hoare_modify. intros s (Hcap & Henv & Hlog).
  split; [| done]. simpl. by rewrite Hf.
Qed.

Lemma proxy_cleared_with_cat (c : option Stac.Catalog) :
  hoare I (modify (with_cat c)) I.
Proof. by apply hoare_modify. Qed.

Lemma proxy_cleared_with_class_access_point (v : value) :
  hoare I (modify (with_class_access_point v)) I.
Proof. by apply hoare_modify. Qed.

Lemma proxy_cleared_environ_set (name : string) (v : value) :
  name ≠ "HTTP_PROXY"%string → hoare I (environ_set name v) I.
Proof.
  intros Hne. unfold environ_set.
  destruct v as [| | |txt| |]; try apply hoare_raise.
  destruct (has_nul txt); [apply hoare_raise |].
  apply hoare_modify. intros st (Hcap & Henv & Hlog).
  split; [done |]. split; [| done]. simpl. by rewrite lookup_insert_ne.
Qed.

Lemma proxy_cleared_http (oracle : http_call → result Response)
  (c : http_call) :
  hoare I (http oracle c) I.
Proof.
  intros s (Hcap & Henv & evs & Hlog & Hevs). unfold http. simpl.
  split; [done |]. split; [done |].
  exists (evs ++ [{| call := c; proxy_seen := environ s !! "HTTP_PROXY" |}])%list.
  split.
  - cbn [http_log with_http_log snd]. by rewrite Hlog, <- app_assoc.
  - apply Forall_app. split; [done |]. by repeat constructor.
Qed.

Lemma proxy_cleared_get_username : hoare I get_username I.
Proof. intros s Hs. unfold get_username. by destruct (username (self s)). Qed.

Lemma proxy_cleared_param_get (key : string) : hoare I (param_get key) I.
Proof. by intros s Hs. Qed.

#[local] Hint Resolve hoare_ret hoare_raise hoare_lift hoare_gets
  proxy_cleared_param_set proxy_cleared_with_cat
  proxy_cleared_with_class_access_point proxy_cleared_http
  proxy_cleared_get_username proxy_cleared_param_get : hooks.

Ltac invariant :=
  repeat first
    [ progress (auto with hooks)
    | apply hoare_bind; [| intros ?]
    | apply proxy_cleared_with_self; by intros []
    | apply proxy_cleared_environ_set; discriminate
    | match goal with
      | |- hoare _ (if ?b then _ else _) _ => destruct b
      end ].

Lemma proxy_cleared_use_workspace_details (resp : Response) :
  hoare I (use_workspace_details resp) I.
Proof. unfold use_workspace_details. invariant. Qed.

Lemma proxy_cleared_lookup_workspace (ext : Externals) :
  hoare I (lookup_workspace ext) I.
Proof.
  unfold lookup_workspace. invariant.
Qed.

Lemma proxy_cleared_export_all (table : list (string * string)) :
  Forall (fun nk => fst nk ≠ "HTTP_PROXY"%string) table →
  hoare I (export_all table) I.
Proof.
  induction 1 as [|[name key] table Hne _ IH]; simpl; [apply hoare_ret |].
  apply hoare_bind; [apply proxy_cleared_param_get | intros v].
  apply hoare_bind; [by apply proxy_cleared_environ_set | intros _; exact IH].
Qed.

Lemma proxy_cleared_read_catalog (ext : Externals) (uri : value) :
  hoare I (read_catalog ext uri) I.
Proof.
  unfold read_catalog. destruct uri; try apply hoare_ret.
  destruct (read_file ext _); invariant.
Qed.

Lemma proxy_cleared_consolidate (ext : Externals) (collection_id : value) :
  hoare I (consolidate ext collection_id) I.
Proof.
  intros s Hs. unfold consolidate.
  destruct (cat s) as [c|]; [| done].
  destruct (Stac.get_all_collections c); [| done].
  destruct (update_each _ _) as [items' [e|]]; exact Hs.
Qed.

Lemma proxy_cleared_register (ext : Externals)
  (c : Stac.OutputCollection) (d : dict) :
  hoare I (register ext c d) I.
Proof. unfold register. invariant. Qed.

Lemma proxy_cleared_publish (ext : Externals) (collection_id : value)
  (collection : option Stac.OutputCollection) :
  hoare I (publish ext collection_id collection) I.
Proof. unfold publish. destruct collection; invariant. Qed.

(** After [HTTP_PROXY] has been removed, nothing in the body of the
    pre-execution hook brings it back. *)
Lemma proxy_cleared_pre_body (ext : Externals) (s : State) :
  http_proxy_env (self s) = captured →
  http_log s = base →
  I (snd (pre_execution_body ext s)).
Proof.
  intros Hcap Hlog. unfold pre_execution_body, unset_http_proxy_env.
  rewrite bind_modify.
  match goal with |- I (snd (?m ?st)) => cut (hoare I m I) end.
  - intros H. apply H. split; [done |]. split.
    + simpl. apply lookup_delete_eq.
    + exists []. split; [| constructor]. rewrite app_nil_r. exact Hlog.
  - invariant.
Qed.

Lemma proxy_cleared_post_body (ext : Externals) (output : dict) (s : State) :
  http_proxy_env (self s) = captured →
  http_log s = base →
  I (snd (post_execution_body ext output s)).
Proof.
  intros Hcap Hlog. unfold post_execution_body, unset_http_proxy_env.
  rewrite !bind_modify.
  match goal with |- I (snd (?m ?st)) => cut (hoare I m I) end.
  - intros H. apply H. split; [done |]. split.
    + simpl. apply lookup_delete_eq.
    + exists []. split; [| constructor]. rewrite app_nil_r. exact Hlog.
  - apply hoare_bind.
    { apply proxy_cleared_export_all. repeat constructor; discriminate. }
    intros _. invariant.
    + apply proxy_cleared_read_catalog.
    + apply proxy_cleared_consolidate.
    + apply proxy_cleared_publish.
Qed.

End ProxyCleared.

(** [restore_http_proxy_env] after a body that kept the proxy cleared. *)
Lemma restore_after_cleared (v : string) (base : list http_event) (s : State) :
  v ≠ ""%string →
  proxy_cleared (Some v) base s →
  let s' := snd (restore_http_proxy_env s) in
  environ s' !! "HTTP_PROXY" = Some v
  ∧ http_proxy_env (self s') = Some v
  ∧ ∃ evs, http_log s' = (base ++ evs)%list
           ∧ Forall (fun ev => proxy_seen ev = None) evs.
Proof.
  intros Hv (Hcap & _ & Hlog). unfold restore_http_proxy_env.
  rewrite Hcap. unfold str_truthy.
  destruct (String.eqb_spec v ""); [done |]. simpl.
  split; [apply lookup_insert_eq | by split].
Qed.

Lemma hook_state {A} (body : M A) (s : State) :
  snd (try_finally (try_except body (fun e => raise e))
         restore_http_proxy_env s)
  = snd (restore_http_proxy_env (snd (body s))).
Proof.
  unfold try_finally. rewrite try_except_reraise.
  destruct (body s) as [r s1]. simpl.
  by destruct (restore_http_proxy_env s1) as [[u|e] s2].
Qed.

(** C8, amended. If the constructor captured a non-empty [HTTP_PROXY] value
    [v], then every HTTP call a hook makes finds no [HTTP_PROXY] in the
    environment, and when the hook ends, by returning or by raising,
    [HTTP_PROXY] is [v] again. *)
Theorem hooks_clear_and_restore_proxy (ext : Externals) (output : dict)
  (s : State) (v : string) :
  http_proxy_env (self s) = Some v →
  v ≠ ""%string →
  ∀ out,
    out = pre_execution_hook ext s ∨ out = post_execution_hook ext output s →
    environ (snd out) !! "HTTP_PROXY" = Some v
    ∧ http_proxy_env (self (snd out)) = Some v
    ∧ ∃ evs, http_log (snd out) = (http_log s ++ evs)%list
             ∧ Forall (fun ev => proxy_seen ev = None) evs.
Proof.
  intros Hcap Hv out [-> | ->].
  - unfold pre_execution_hook. rewrite hook_state.
    apply restore_after_cleared; [done |].
    by apply proxy_cleared_pre_body.
  - unfold post_execution_hook. rewrite hook_state.
    apply restore_after_cleared; [done |].
    by apply proxy_cleared_post_body.
Qed.

Lemma hooks_clear_and_restore_proxy_witness :
  let s := constructed Sample.conf Sample.inputs Sample.env in
  let resp := Sample.response 304 (Raise (OtherError "JSONDecodeError")) in
  let out := pre_execution_hook (Sample.ext resp (Raise FileNotFoundError)) s in
  fst out = Raise (OtherError "JSONDecodeError")
  ∧ environ (snd out) !! "HTTP_PROXY" = Some "http://proxy:8080"%string.
Proof.
  intros s resp out. split; [by vm_compute |].
  refine (proj1 (hooks_clear_and_restore_proxy
                   (Sample.ext resp (Raise FileNotFoundError)) Sample.output s
                   "http://proxy:8080" _ _ out (or_introl eq_refl))).
  - by vm_compute.
  - discriminate.
Defined.

(** C8 as stated fails for the empty value: [HTTP_PROXY] set to the empty
    string is removed by the hook and not put back. *)
Lemma empty_proxy_value_not_restored :
  let s := constructed Sample.conf Sample.inputs Sample.env_empty_proxy in
  let resp := Sample.response 404 (Raise (OtherError "JSONDecodeError")) in
  let out := pre_execution_hook (Sample.ext resp (Raise FileNotFoundError)) s in
  environ s !! "HTTP_PROXY" = Some ""%string
  ∧ fst out = Ok tt
  ∧ environ (snd out) !! "HTTP_PROXY" = None.
Proof. vm_compute. by repeat split. Qed.

(** ** The post-execution hook up to the catalog *)

Lemma bind_param_get {B} (key : string) (v : value) (k : value → M B)
  (s : State) :
  conf_param (conf (self s)) key = Ok v → bind (param_get key) k s = k v s.
Proof. intros H. unfold bind, param_get. by rewrite H. Qed.

(** The hand-off of lines 226-232 succeeds when every parameter it copies
    can be exported, and touches the environment only. *)
Lemma export_all_run (table : list (string * string)) (s : State) :
  Forall (exportable (conf (self s))) table →
  ∃ env', export_all table s = (Ok tt, with_environ (fun _ => env') s).
Proof.
  revert s. induction table as [|[name key] table IH]; intros s Hall.
  - exists (environ s). by destruct s.
  - apply Forall_cons in Hall as [(txt & Hkey & Hnul) Hall]. simpl in Hkey.
    destruct (IH (with_environ (insert name txt) s) Hall) as [env' Hrun].
    exists env'. simpl.
    rewrite (bind_param_get _ _ _ _ Hkey). unfold environ_set. rewrite Hnul.
    by rewrite bind_modify, Hrun.
Qed.

Lemma read_catalog_run (ext : Externals) (uri : value) (s : State) :
  read_catalog ext uri s = (Ok tt, with_cat (match catalog_at ext uri with
                                             | Some c => Some c
                                             | None => cat s
                                             end) s).
Proof.
  unfold read_catalog, catalog_at.
  destruct uri; try by destruct s.
  destruct (read_file ext _); [done | by destruct s].
Qed.

Lemma exported_has (key : string) (s : State) :
  Forall (exportable (conf (self s))) exported_parameters →
  key ∈ map snd exported_parameters →
  ∃ txt, conf_param (conf (self s)) key = Ok (VStr txt).
Proof.
  intros Hall Hin. apply list_elem_of_fmap in Hin as ([name key'] & -> & Hin).
  destruct (proj1 (Forall_forall _ _) Hall (name, key') Hin) as (txt & H & _).
  by exists txt.
Qed.

Lemma post_body_prefix (ext : Externals) (output : dict) (s : State)
  (uri collection_id : value) :
  handoff_ready s output uri collection_id →
  ∃ s2,
    post_execution_body ext output s
    = (do collection <- consolidate ext collection_id in
       publish ext collection_id collection) s2
    ∧ self s2 = self s
    ∧ http_log s2 = http_log s
    ∧ cat s2 = catalog_at ext uri.
Proof.
  intros (Hall & Huri & Hcid).
  destruct (exported_has "STAGEOUT_ACCESS_POINT" s Hall) as [ap Hap].
  { by apply (bool_decide_unpack _); vm_compute. }
  unfold post_execution_body, unset_http_proxy_env.
  rewrite !bind_modify.
  destruct (export_all_run exported_parameters
              (with_environ (delete "HTTP_PROXY") (with_cat None s)) Hall)
    as [env' Hexport].
  rewrite (bind_ok _ _ _ _ _ Hexport).
  rewrite (bind_param_get _ (VStr ap)) by exact Hap.
  rewrite bind_modify.
  rewrite (bind_lift_ok _ uri) by (simpl; by rewrite Huri).
  rewrite (bind_ok _ _ _ _ _ (read_catalog_run _ _ _)).
  rewrite (bind_param_get _ collection_id) by exact Hcid.
  eexists. split; [reflexivity |]. proj.
  split; [done |]. split; [done |]. by destruct (catalog_at ext uri).
Qed.

(** ** Consolidation *)

Lemma consolidate_unbound (ext : Externals) (collection_id : value)
  (s : State) :
  cat s = None → consolidate ext collection_id s = (Ok None, s).
Proof. intros H. unfold consolidate. by rewrite H. Qed.

Lemma consolidate_first_collection (ext : Externals) (collection_id : value)
  (s : State) (c : Stac.Catalog) (col : Stac.Collection)
  (rest : list Stac.Collection) :
  cat s = Some c →
  Stac.get_all_collections c = col :: rest →
  consolidate ext collection_id s = (Ok (Some (Stac.FromCatalog col)), s).
Proof. intros Hc Hcol. unfold consolidate. by rewrite Hc, Hcol. Qed.

(** ** Serialised assets *)

Lemma dict_get_set_is_Some (d : dict) (k k' : string) (v : value) :
  is_Some (dict_get d k') → is_Some (dict_get (dict_set d k v) k').
Proof.
  intros H. destruct (String.eqb_spec k k') as [->|Hne].
  - rewrite dict_get_set_eq. by eexists.
  - by rewrite dict_get_set_ne.
Qed.

Lemma set_unless_none_is_Some (d : dict) (k k' : string) (v : value) :
  is_Some (dict_get d k') →
  is_Some (dict_get (Stac.set_unless_none d k v) k').
Proof.
  intros H. unfold Stac.set_unless_none.
  destruct (Stac.is_none v); [done | by apply dict_get_set_is_Some].
Qed.

Lemma dict_update_is_Some (d extra : dict) (k : string) :
  is_Some (dict_get d k) → is_Some (dict_get (Stac.dict_update d extra) k).
Proof.
  unfold Stac.dict_update. revert d.
  induction extra as [|[k0 v0] extra IH]; intros d H; simpl; [done |].
  apply IH. by apply dict_get_set_is_Some.
Qed.

(** A serialised asset always has its href. *)
Lemma Asset_to_dict_href (a : Stac.Asset) :
  is_Some (dict_get (Stac.Asset_to_dict a) "href").
Proof.
  unfold Stac.Asset_to_dict.
  apply set_unless_none_is_Some, dict_update_is_Some.
  do 3 apply set_unless_none_is_Some. simpl. by eexists.
Qed.

Lemma existsb_truthy_key (d : dict) (k : string) (v : value) :
  dict_get d k = Some v → str_truthy k = true →
  existsb str_truthy (dict_keys d) = true.
Proof.
  intros Hget Hk. apply existsb_exists. exists k. split; [| done].
  apply list_elem_of_In. by apply (dict_get_keys d k v).
Qed.

(** A non-reserved key survives [Asset.from_dict] in the extra fields. *)
Lemma Asset_from_dict_extra (d : dict) (a : Stac.Asset) (k : string) (v : value) :
  Stac.Asset_from_dict d = Ok a →
  dict_get d k = Some v →
  str_truthy k = true →
  k ≠ "href"%string → k ≠ "type"%string → k ≠ "title"%string →
  k ≠ "description"%string → k ≠ "roles"%string →
  dict_get (Stac.extra_fields a) k = Some v.
Proof.
  intros Hfrom Hget Hk H1 H2 H3 H4 H5. unfold Stac.Asset_from_dict in Hfrom.
  destruct (dict_get d "href") as [h|]; [| done].
  injection Hfrom as <-. cbn [Stac.extra_fields].
  set (d5 := dict_remove _ "roles").
  assert (Hd5 : dict_get d5 k = Some v).
  { subst d5. by rewrite !dict_get_remove_ne by done. }
  by rewrite (existsb_truthy_key d5 k v).
Qed.

Lemma storage_fields_run (c : Conf) (d : dict) (region endpoint : value) :
  conf_param c "STAGEOUT_AWS_REGION" = Ok region →
  conf_param c "STAGEOUT_AWS_SERVICEURL" = Ok endpoint →
  storage_fields c d
  = Ok (dict_set
          (dict_set
             (dict_set
                (dict_set (dict_set d "storage:platform" (VStr "EOEPCA"))
                          "storage:requester_pays" (VBool false))
                "storage:tier" (VStr "Standard"))
             "storage:region" region)
          "storage:endpoint" endpoint).
Proof. intros Hr He. unfold storage_fields. by rewrite Hr, He. Qed.


(** ** Dictionaries with distinct keys *)

Lemma dict_get_None_keys (d : dict) (k : string) :
  dict_get d k = None ↔ k ∉ dict_keys d.
Proof.
  induction d as [|[k0 v0] d IH]; simpl.
  - split; [intros _; apply not_elem_of_nil | done].
  - destruct (String.eqb_spec k k0) as [->|Hne].
    + split; [done |]. intros H. destruct H. apply list_elem_of_here.
    + rewrite IH. rewrite not_elem_of_cons. tauto.
Qed.

Lemma dict_keys_set (d : dict) (k : string) (v : value) :
  dict_keys (dict_set d k v)
  = if dict_has d k then dict_keys d else (dict_keys d ++ [k])%list.
Proof.
  unfold dict_has. induction d as [|[k0 v0] d IH]; simpl; [done |].
  destruct (String.eqb_spec k k0) as [->|Hne]; simpl; [done |].
  rewrite IH. by destruct (dict_get d k).
Qed.

Lemma dict_set_NoDup (d : dict) (k : string) (v : value) :
  NoDup (dict_keys d) → NoDup (dict_keys (dict_set d k v)).
Proof.
  intros Hnd. rewrite dict_keys_set. unfold dict_has.
  destruct (dict_get d k) eqn:Hk; [done |].
  apply NoDup_app. split; [done |]. split; [| apply NoDup_singleton].
  intros x Hx Hin. apply list_elem_of_singleton in Hin as ->.
  by apply dict_get_None_keys in Hk.
Qed.

Lemma set_unless_none_NoDup (d : dict) (k : string) (v : value) :
  NoDup (dict_keys d) → NoDup (dict_keys (Stac.set_unless_none d k v)).
Proof.
  intros H. unfold Stac.set_unless_none.
  destruct (Stac.is_none v); [done | by apply dict_set_NoDup].
Qed.

Lemma dict_update_NoDup (d extra : dict) :
  NoDup (dict_keys d) → NoDup (dict_keys (Stac.dict_update d extra)).
Proof.
  unfold Stac.dict_update. revert d.
  induction extra as [|[k v] extra IH]; intros d H; simpl; [done |].
  by apply IH, dict_set_NoDup.
Qed.

Lemma dict_get_update_other (d extra : dict) (k : string) :
  k ∉ dict_keys extra →
  dict_get (Stac.dict_update d extra) k = dict_get d k.
Proof.
  unfold Stac.dict_update. revert d.
  induction extra as [|[k0 v0] extra IH]; intros d Hk; simpl; [done |].
  simpl in Hk. apply not_elem_of_cons in Hk as [Hne Hk].
  rewrite IH by done. by apply dict_get_set_ne.
Qed.

Lemma dict_get_update_extra (d extra : dict) (k : string) (v : value) :
  NoDup (dict_keys extra) →
  dict_get extra k = Some v →
  dict_get (Stac.dict_update d extra) k = Some v.
Proof.
  unfold Stac.dict_update. revert d.
  induction extra as [|[k0 v0] extra IH]; intros d Hnd Hget; [done |].
  simpl in Hnd. apply NoDup_cons in Hnd as [Hfresh Hnd].
  simpl in Hget. simpl.
  destruct (String.eqb_spec k k0) as [->|Hne].
  - injection Hget as ->.
    pose proof (dict_get_update_other (dict_set d k0 v) extra k0 Hfresh) as H.
    unfold Stac.dict_update in H. rewrite H. apply dict_get_set_eq.
  - by apply IH.
Qed.

Lemma dict_get_set_unless_none (d : dict) (k : string) (v : value) :
  dict_get d k = None →
  dict_get_or_none (Stac.set_unless_none d k v) k = v.
Proof.
  intros H. unfold dict_get_or_none, Stac.set_unless_none.
  destruct v; simpl; rewrite ?H, ?dict_get_set_eq; done.
Qed.

Lemma dict_get_set_unless_none_ne (d : dict) (k k' : string) (v : value) :
  k ≠ k' → dict_get (Stac.set_unless_none d k v) k' = dict_get d k'.
Proof.
  intros H. unfold Stac.set_unless_none.
  destruct (Stac.is_none v); [done | by apply dict_get_set_ne].
Qed.

Lemma dict_keys_remove (d : dict) (k x : string) :
  x ∈ dict_keys (dict_remove d k) → x ∈ dict_keys d.
Proof.
  induction d as [|[k0 v0] d IH]; simpl; [done |].
  destruct (String.eqb_spec k k0) as [->|Hne]; simpl.
  - apply list_elem_of_further.
  - intros H. apply elem_of_cons in H as [->|H].
    + apply list_elem_of_here.
    + apply list_elem_of_further. by apply IH.
Qed.

Lemma dict_remove_NoDup (d : dict) (k : string) :
  NoDup (dict_keys d) → NoDup (dict_keys (dict_remove d k)).
Proof.
  induction d as [|[k0 v0] d IH]; simpl; [done |].
  intros Hnd. apply NoDup_cons in Hnd as [Hfresh Hnd].
  destruct (String.eqb_spec k k0) as [->|Hne]; simpl; [done |].
  apply NoDup_cons. split; [| by apply IH].
  intros H. apply Hfresh. by apply (dict_keys_remove d k).
Qed.

Lemma dict_get_remove_eq (d : dict) (k : string) :
  NoDup (dict_keys d) → dict_get (dict_remove d k) k = None.
Proof.
  induction d as [|[k0 v0] d IH]; simpl; [done |].
  intros Hnd. apply NoDup_cons in Hnd as [Hfresh Hnd].
  destruct (String.eqb_spec k k0) as [->|Hne]; simpl.
  - by apply dict_get_None_keys.
  - destruct (String.eqb_spec k k0); [done | by apply IH].
Qed.

Lemma reserved_cases (k : string) :
  k ∉ reserved_keys →
  k ≠ "href"%string ∧ k ≠ "type"%string ∧ k ≠ "title"%string
  ∧ k ≠ "description"%string ∧ k ≠ "roles"%string.
Proof.
  unfold reserved_keys. intros H.
  repeat (apply not_elem_of_cons in H as [? H]). by repeat split.
Qed.

Lemma reserved_absent (a : Stac.Asset) (k : string) :
  asset_well_formed a → k ∈ reserved_keys →
  dict_get (Stac.extra_fields a) k = None.
Proof.
  intros [_ Hres] Hk. apply dict_get_None_keys. intros Hin.
  by apply (proj1 (Forall_forall _ _) Hres k).
Qed.

(** What [Asset.to_dict] writes for a well-formed asset. *)
Lemma Asset_to_dict_fields (a : Stac.Asset) :
  asset_well_formed a →
  NoDup (dict_keys (Stac.Asset_to_dict a))
  ∧ dict_get (Stac.Asset_to_dict a) "href" = Some (Stac.href a)
  ∧ dict_get_or_none (Stac.Asset_to_dict a) "type" = Stac.media_type a
  ∧ dict_get_or_none (Stac.Asset_to_dict a) "title" = Stac.title a
  ∧ dict_get_or_none (Stac.Asset_to_dict a) "description" = Stac.description a
  ∧ dict_get_or_none (Stac.Asset_to_dict a) "roles" = Stac.roles a
  ∧ ∀ k, k ∉ reserved_keys →
         dict_get (Stac.Asset_to_dict a) k = dict_get (Stac.extra_fields a) k.
Proof.
  intros Hwf. pose proof Hwf as [Hnd Hres].
  assert (Habs : ∀ k, k ∈ reserved_keys → k ∉ dict_keys (Stac.extra_fields a)).
  { intros k Hk. apply dict_get_None_keys. by apply reserved_absent. }
  assert (Hin : ∀ k, bool_decide (k ∈ reserved_keys) = true → k ∈ reserved_keys).
  { intros k. apply bool_decide_eq_true_1. }
  unfold Stac.Asset_to_dict.
  split; [| split; [| split; [| split; [| split; [| split]]]]].
  - apply set_unless_none_NoDup, dict_update_NoDup.
    do 3 apply set_unless_none_NoDup. simpl. apply NoDup_singleton.
  - rewrite dict_get_set_unless_none_ne by done.
    rewrite dict_get_update_other by (by apply Habs, Hin).
    by rewrite !dict_get_set_unless_none_ne by done.
  - unfold dict_get_or_none.
    rewrite dict_get_set_unless_none_ne by done.
    rewrite dict_get_update_other by (by apply Habs, Hin).
    rewrite !dict_get_set_unless_none_ne by done.
    by apply dict_get_set_unless_none.
  - unfold dict_get_or_none.
    rewrite dict_get_set_unless_none_ne by done.
    rewrite dict_get_update_other by (by apply Habs, Hin).
    rewrite dict_get_set_unless_none_ne by done.
    apply dict_get_set_unless_none.
    by rewrite dict_get_set_unless_none_ne by done.
  - unfold dict_get_or_none.
    rewrite dict_get_set_unless_none_ne by done.
    rewrite dict_get_update_other by (by apply Habs, Hin).
    apply dict_get_set_unless_none.
    by rewrite !dict_get_set_unless_none_ne by done.
  - apply dict_get_set_unless_none.
    rewrite dict_get_update_other by (by apply Habs, Hin).
    by rewrite !dict_get_set_unless_none_ne by done.
  - intros k Hk. destruct (reserved_cases k Hk) as (H1 & H2 & H3 & H4 & H5).
    rewrite dict_get_set_unless_none_ne by done.
    destruct (dict_get (Stac.extra_fields a) k) as [v|] eqn:Hget.
    + by apply dict_get_update_extra.
    + rewrite dict_get_update_other by (by apply dict_get_None_keys).
      rewrite !dict_get_set_unless_none_ne by done.
      simpl. by destruct (String.eqb_spec k "href").
Qed.

(** What [Asset.from_dict] reads from a dictionary with distinct keys, one
    of them a non-empty key that is none of the named attributes. *)
Lemma Asset_from_dict_fields (d : dict) (a : Stac.Asset) (k0 : string)
  (v0 : value) :
  NoDup (dict_keys d) →
  dict_get d k0 = Some v0 → k0 ∉ reserved_keys → str_truthy k0 = true →
  Stac.Asset_from_dict d = Ok a →
  dict_get d "href" = Some (Stac.href a)
  ∧ Stac.media_type a = dict_get_or_none d "type"
  ∧ Stac.title a = dict_get_or_none d "title"
  ∧ Stac.description a = dict_get_or_none d "description"
  ∧ Stac.roles a = dict_get_or_none d "roles"
  ∧ (∀ k, k ∉ reserved_keys → dict_get (Stac.extra_fields a) k = dict_get d k)
  ∧ asset_well_formed a.
Proof.
  intros Hnd Hk0 Hres0 Htruthy Hfrom. unfold Stac.Asset_from_dict in Hfrom.
  destruct (dict_get d "href") as [h|] eqn:Hhref; [| done].
  injection Hfrom as <-. cbn [Stac.href Stac.media_type Stac.title
    Stac.description Stac.roles Stac.extra_fields].
  set (d1 := dict_remove d "href").
  set (d2 := dict_remove d1 "type").
  set (d3 := dict_remove d2 "title").
  set (d4 := dict_remove d3 "description").
  set (d5 := dict_remove d4 "roles").
  assert (Hnd1 : NoDup (dict_keys d1)) by (by apply dict_remove_NoDup).
  assert (Hnd2 : NoDup (dict_keys d2)) by (by apply dict_remove_NoDup).
  assert (Hnd3 : NoDup (dict_keys d3)) by (by apply dict_remove_NoDup).
  assert (Hnd4 : NoDup (dict_keys d4)) by (by apply dict_remove_NoDup).
  assert (Hnd5 : NoDup (dict_keys d5)) by (by apply dict_remove_NoDup).
  assert (Hother : ∀ k, k ∉ reserved_keys → dict_get d5 k = dict_get d k).
  { intros k Hk. destruct (reserved_cases k Hk) as (H1 & H2 & H3 & H4 & H5).
    subst d5 d4 d3 d2 d1. by rewrite !dict_get_remove_ne by done. }
  assert (Hexists : existsb str_truthy (dict_keys d5) = true).
  { apply (existsb_truthy_key d5 k0 v0); [| done]. by rewrite Hother. }
  rewrite Hexists.
  split; [done |]. unfold dict_get_or_none.
  split; [subst d1; by rewrite dict_get_remove_ne by done |].
  split; [subst d2 d1; by rewrite !dict_get_remove_ne by done |].
  split; [subst d3 d2 d1; by rewrite !dict_get_remove_ne by done |].
  split; [subst d4 d3 d2 d1; by rewrite !dict_get_remove_ne by done |].
  split; [done |]. split; [done |].
  apply Forall_forall. intros k Hin Hk.
  assert (Hnone : dict_get d5 k = None); [| by apply dict_get_None_keys in Hnone].
  unfold reserved_keys in Hk.
  repeat (apply elem_of_cons in Hk as [-> | Hk]).
  - subst d5 d4 d3 d2. rewrite !dict_get_remove_ne by done.
    by apply dict_get_remove_eq.
  - subst d5 d4 d3. rewrite !dict_get_remove_ne by done.
    by apply dict_get_remove_eq.
  - subst d5 d4. rewrite !dict_get_remove_ne by done.
    by apply dict_get_remove_eq.
  - subst d5. rewrite !dict_get_remove_ne by done.
    by apply dict_get_remove_eq.
  - subst d5. by apply dict_get_remove_eq.
  - by apply elem_of_nil in Hk.
Qed.

(** ** The storage annotation of an asset *)

Lemma Asset_to_dict_NoDup (a : Stac.Asset) :
  NoDup (dict_keys (Stac.Asset_to_dict a)).
Proof.
  unfold Stac.Asset_to_dict.
  apply set_unless_none_NoDup, dict_update_NoDup.
  do 3 apply set_unless_none_NoDup. simpl. apply NoDup_singleton.
Qed.

Lemma storage_keys_cases (k : string) :
  k ∉ storage_keys →
  k ≠ "storage:platform"%string ∧ k ≠ "storage:requester_pays"%string
  ∧ k ≠ "storage:tier"%string ∧ k ≠ "storage:region"%string
  ∧ k ≠ "storage:endpoint"%string.
Proof.
  unfold storage_keys. intros H.
  repeat (apply not_elem_of_cons in H as [? H]). by repeat split.
Qed.

(** The annotation changes nothing but the five storage fields. *)
Lemma annotate_asset_frame (c : Conf) (a a' : Stac.Asset) :
  asset_well_formed a →
  annotate_asset c a = Ok a' →
  Stac.href a' = Stac.href a
  ∧ Stac.media_type a' = Stac.media_type a
  ∧ Stac.title a' = Stac.title a
  ∧ Stac.description a' = Stac.description a
  ∧ Stac.roles a' = Stac.roles a
  ∧ (∀ k, k ∉ storage_keys →
          dict_get (Stac.extra_fields a') k = dict_get (Stac.extra_fields a) k)
  ∧ asset_well_formed a'.
Proof.
  intros Hwf Hann. unfold annotate_asset, storage_fields in Hann.
  destruct (conf_param c "STAGEOUT_AWS_REGION") as [region|]; [| done].
  destruct (conf_param c "STAGEOUT_AWS_SERVICEURL") as [endpoint|]; [| done].
  cbn [rbind] in Hann.
  destruct (Asset_to_dict_fields a Hwf)
    as (Hnd & Hhref & Htype & Htitle & Hdesc & Hroles & Hextra).
  set (d := dict_set _ "storage:endpoint" endpoint) in Hann.
  assert (Hd : ∀ k, k ∉ storage_keys →
                    dict_get d k = dict_get (Stac.Asset_to_dict a) k).
  { intros k Hk. destruct (storage_keys_cases k Hk) as (H1 & H2 & H3 & H4 & H5).
    subst d. by rewrite !dict_get_set_ne by done. }
  assert (Hnot : ∀ k, bool_decide (k ∉ storage_keys) = true → k ∉ storage_keys).
  { intros k. apply bool_decide_eq_true_1. }
  assert (Hndd : NoDup (dict_keys d)).
  { subst d. by do 5 apply dict_set_NoDup. }
  destruct (Asset_from_dict_fields d a' "storage:endpoint" endpoint Hndd)
    as (Hh' & Hmt' & Ht' & Hds' & Hr' & Hextra' & Hwf'); try done.
  { subst d. apply dict_get_set_eq. }
  { by apply (bool_decide_eq_true_1 _). }
  unfold dict_get_or_none in *.
  rewrite Hd in Hh' by (by apply Hnot).
  rewrite Hd in Hmt' by (by apply Hnot).
  rewrite Hd in Ht' by (by apply Hnot).
  rewrite Hd in Hds' by (by apply Hnot).
  rewrite Hd in Hr' by (by apply Hnot).
  split; [congruence |]. split; [congruence |]. split; [congruence |].
  split; [congruence |]. split; [congruence |]. split; [| done].
  intros k Hk.
  destruct (decide (k ∈ reserved_keys)) as [Hres|Hres].
  - rewrite (reserved_absent a k Hwf Hres). by apply reserved_absent.
  - rewrite Hextra' by done. rewrite Hd by done. by apply Hextra.
Qed.

(** Whatever the asset was, the annotated one is well formed. *)
Lemma annotate_asset_well_formed (c : Conf) (a a' : Stac.Asset) :
  annotate_asset c a = Ok a' → asset_well_formed a'.
Proof.
  intros Hann. unfold annotate_asset, storage_fields in Hann.
  destruct (conf_param c "STAGEOUT_AWS_REGION") as [region|]; [| done].
  destruct (conf_param c "STAGEOUT_AWS_SERVICEURL") as [endpoint|]; [| done].
  cbn [rbind] in Hann.
  set (d := dict_set _ "storage:endpoint" endpoint) in Hann.
  assert (Hndd : NoDup (dict_keys d)).
  { subst d. do 5 apply dict_set_NoDup. apply Asset_to_dict_NoDup. }
  destruct (Asset_from_dict_fields d a' "storage:endpoint" endpoint Hndd)
    as (_ & _ & _ & _ & _ & _ & Hwf'); try done.
  { subst d. apply dict_get_set_eq. }
  { by apply (bool_decide_eq_true_1 _). }
Qed.

(** Lines 258-264 never fail once the two parameters are there, and leave
    the five storage fields on the asset. *)
Lemma annotate_asset_ok (c : Conf) (a : Stac.Asset) (region endpoint : value) :
  conf_param c "STAGEOUT_AWS_REGION" = Ok region →
  conf_param c "STAGEOUT_AWS_SERVICEURL" = Ok endpoint →
  ∃ a', annotate_asset c a = Ok a' ∧ annotated region endpoint a a'.
Proof.
  intros Hr He.
  assert (Hrun : ∃ a', annotate_asset c a = Ok a'
                       ∧ storage_annotated region endpoint a').
  { unfold annotate_asset.
    rewrite (storage_fields_run c _ region endpoint Hr He). simpl.
    set (d := dict_set _ "storage:endpoint" endpoint).
    assert (Hhref : is_Some (dict_get d "href")).
    { subst d. do 5 apply dict_get_set_is_Some. apply Asset_to_dict_href. }
    destruct Hhref as [h Hh].
    assert (Hfrom : ∃ a', Stac.Asset_from_dict d = Ok a').
    { unfold Stac.Asset_from_dict. rewrite Hh. by eexists. }
    destruct Hfrom as [a' Hfrom]. exists a'. split; [done |].
    repeat split; apply (Asset_from_dict_extra d a' _ _ Hfrom); try done;
      subst d; rewrite ?dict_get_set_ne by done; apply dict_get_set_eq. }
  destruct Hrun as (a' & Hann & Hsto). exists a'. split; [done |].
  split; [done |]. split; [by apply (annotate_asset_well_formed c a) |].
  intros Hwf.
  destruct (annotate_asset_frame c a a' Hwf Hann)
    as (H1 & H2 & H3 & H4 & H5 & H6 & _).
  by repeat split.
Qed.

(** The storage fields of a well-formed asset are in its serialised form. *)
Lemma Asset_to_dict_carries_storage (region endpoint : value) (a : Stac.Asset) :
  asset_well_formed a →
  storage_annotated region endpoint a →
  carries_storage region endpoint (Stac.Asset_to_dict a).
Proof.
  intros Hwf (H1 & H2 & H3 & H4 & H5).
  destruct (Asset_to_dict_fields a Hwf) as (_ & _ & _ & _ & _ & _ & Hextra).
  assert (Hnot : ∀ k, bool_decide (k ∉ reserved_keys) = true →
                      k ∉ reserved_keys).
  { intros k. apply bool_decide_eq_true_1. }
  unfold carries_storage. rewrite !Hextra by (by apply Hnot). by repeat split.
Qed.

(** ** The loop over items *)

Lemma update_each_all {A} (step : A → A * option exn) (R : A → A → Prop)
  (l : list A) :
  (∀ x, ∃ x', step x = (x', None) ∧ R x x') →
  ∃ l', update_each step l = (l', None) ∧ Forall2 R l l'.
Proof.
  intros Hstep. induction l as [|x l (l' & Hl & HR)]; simpl.
  - by exists [].
  - destruct (Hstep x) as (x' & Hx & Hxx'). rewrite Hx, Hl.
    exists (x' :: l'). split; [done | by constructor].
Qed.

Lemma item_step_ok (c : Conf) (collection_id region endpoint : value)
  (i : Stac.Item) :
  conf_param c "STAGEOUT_AWS_REGION" = Ok region →
  conf_param c "STAGEOUT_AWS_SERVICEURL" = Ok endpoint →
  ∃ i', item_step c collection_id i = (i', None)
        ∧ restamped region endpoint collection_id i i'.
Proof.
  intros Hr He. unfold item_step.
  destruct (update_each_all (asset_step c)
              (fun ka ka' => fst ka' = fst ka
                             ∧ annotated region endpoint (snd ka) (snd ka'))
              (Stac.assets i)) as (assets' & Hrun & Hall).
  { intros [k a]. unfold asset_step. simpl.
    destruct (annotate_asset_ok c a region endpoint Hr He) as (a' & -> & Ha').
    by eexists. }
  rewrite Hrun. eexists. split; [reflexivity |].
  unfold restamped. simpl. by repeat split.
Qed.

Lemma items_loop_ok (c : Conf) (collection_id region endpoint : value)
  (items : list Stac.Item) :
  conf_param c "STAGEOUT_AWS_REGION" = Ok region →
  conf_param c "STAGEOUT_AWS_SERVICEURL" = Ok endpoint →
  ∃ items', update_each (item_step c collection_id) items = (items', None)
            ∧ Forall2 (restamped region endpoint collection_id) items items'.
Proof.
  intros Hr He. apply update_each_all. intros i. by apply item_step_ok.
Qed.

(** Every asset of a restamped item carries the storage fields in its
    serialised form. *)
Lemma restamped_carries_storage (region endpoint collection_id : value)
  (items items' : list Stac.Item) :
  Forall2 (restamped region endpoint collection_id) items items' →
  Forall (fun i' =>
            Forall (fun ka => carries_storage region endpoint
                                (Stac.Asset_to_dict (snd ka)))
                   (Stac.assets i'))
         items'.
Proof.
  induction 1 as [|i i' items items' Hi _ IH]; constructor; [| done].
  destruct Hi as (_ & _ & _ & _ & _ & _ & _ & _ & Hassets).
  induction Hassets as [|ka ka' l l' [_ (Hsto & Hwf & _)] _ IHa];
    constructor; [| done].
  by apply Asset_to_dict_carries_storage.
Qed.

(** ** Cloning and serialising *)

Lemma Asset_clone_id (a : Stac.Asset) : Stac.Asset_clone a = a.
Proof. by destruct a. Qed.

Lemma assets_clone_id (l : list (string * Stac.Asset)) :
  map (fun ka => (fst ka, Stac.Asset_clone (snd ka))) l = l.
Proof.
  induction l as [|[k a] l IH]; simpl; [done |].
  by rewrite Asset_clone_id, IH.
Qed.

Lemma extensions_of_clone (x : value) :
  let y := py_or x (VList []) in
  y = (if truthy x then x else VList [])
  ∧ Stac.is_none y = false
  ∧ py_or y (VList []) = y.
Proof.
  unfold py_or. destruct (truthy x) eqn:Hx.
  - split; [done |]. split; [by destruct x | by rewrite Hx].
  - by repeat split.
Qed.

Lemma set_unless_none_set (d : dict) (k : string) (v : value) :
  Stac.is_none v = false → Stac.set_unless_none d k v = dict_set d k v.
Proof. intros H. unfold Stac.set_unless_none. by rewrite H. Qed.

(** The serialised clone of a clone of an item is its published feature:
    the extra fields of the item are gone. *)
Lemma Item_to_dict_clone (L : value → value) (i : Stac.Item) :
  Stac.Item_to_dict (Stac.Item_clone L (Stac.Item_clone L i))
  = published_feature L i.
Proof.
  destruct i as [id props geom lnk ast bb exts cid extra].
  unfold Stac.Item_to_dict, Stac.Item_clone, published_feature.
  cbn [Stac.item_id Stac.properties Stac.geometry Stac.links Stac.assets
       Stac.bbox Stac.stac_extensions Stac.collection_id
       Stac.item_extra_fields].
  rewrite !assets_clone_id, map_map.
  destruct (extensions_of_clone exts) as (Hy & Hnone & Hidem).
  cbv zeta in Hy, Hnone, Hidem. rewrite Hidem.
  rewrite <- Hy. set (y := py_or exts (VList [])) in *. clearbody y.
  unfold Stac.dict_update, Stac.assets_to_dict, Stac.stac_version.
  cbn [fold_left].
  rewrite (set_unless_none_set _ "stac_extensions" y Hnone).
  destruct bb; destruct (truthy cid); reflexivity.
Qed.

Lemma to_dict_item_collection (L : value → value) (collection_id : value)
  (items : list Stac.Item) :
  dict_set (Stac.to_dict
              (Stac.new_ItemCollection L (map (Stac.Item_clone L) items)))
           "id" collection_id
  = published_collection L collection_id items.
Proof.
  unfold Stac.new_ItemCollection, published_collection. cbn [Stac.to_dict].
  rewrite !map_map.
  replace (map (fun x => VDict (Stac.Item_to_dict
                                  (Stac.Item_clone L (Stac.Item_clone L x))))
               items)
    with (map (fun i => VDict (published_feature L i)) items)
    by (apply map_ext; intros i; by rewrite Item_to_dict_clone).
  reflexivity.
Qed.

Lemma consolidate_items (ext : Externals)
  (collection_id region endpoint : value) (s : State) (c : Stac.Catalog) :
  cat s = Some c →
  Stac.get_all_collections c = [] →
  conf_param (conf (self s)) "STAGEOUT_AWS_REGION" = Ok region →
  conf_param (conf (self s)) "STAGEOUT_AWS_SERVICEURL" = Ok endpoint →
  ∃ items',
    consolidate ext collection_id s
    = (Ok (Some (Stac.new_ItemCollection (Link_clone ext)
                   (map (Stac.Item_clone (Link_clone ext)) items'))),
       with_cat (Some (set_items c items')) s)
    ∧ Forall2 (restamped region endpoint collection_id)
              (Stac.get_all_items c) items'.
Proof.
  intros Hc Hcol Hr He. unfold consolidate. rewrite Hc, Hcol.
  destruct (items_loop_ok (conf (self s)) collection_id region endpoint
              (Stac.get_all_items c) Hr He) as (items' & Hrun & Hall).
  rewrite Hrun. by exists items'.
Qed.

(** ** Publishing the collection *)

Lemma hoare_get_username (P : State → Prop) : hoare P get_username P.
Proof. intros s Hs. unfold get_username. by destruct (username (self s)). Qed.

Lemma hoare_http (P : State → Prop) (oracle : http_call → result Response)
  (c : http_call) :
  (∀ s f, P s → P (with_http_log f s)) → hoare P (http oracle c) P.
Proof. intros HP s Hs. unfold http. simpl. by apply HP. Qed.

(** Registration writes neither the handler nor the catalog. *)
Lemma register_frame (ext : Externals) (c : Stac.OutputCollection) (d : dict)
  (h : Handler) (c0 : option Stac.Catalog) :
  hoare (fun st => self st = h ∧ cat st = c0) (register ext c d)
        (fun st => self st = h ∧ cat st = c0).
Proof.
  unfold register.
  repeat first
    [ apply hoare_bind; [| intros ?]
    | apply hoare_gets | apply hoare_get_username | apply hoare_lift
    | apply hoare_ret | apply hoare_http; by intros st f ].
Qed.

Lemma publish_some (ext : Externals) (collection_id : value)
  (c : Stac.OutputCollection) (s : State) :
  let out := publish ext collection_id (Some c) s in
  feature_collection (self (snd out))
  = Some (json_dumps (VDict (dict_set (Stac.to_dict c) "id" collection_id)) 2)
  ∧ cat (snd out) = cat s
  ∧ (use_workspace (self s) = false →
     fst out = Ok tt ∧ http_log (snd out) = http_log s).
Proof.
  unfold publish. rewrite bind_modify, bind_gets. proj.
  destruct (use_workspace (self s)) eqn:Huse.
  - match goal with |- context [register ?e ?c ?d ?st] =>
      pose proof (register_frame e c d (self st) (cat st) st
                    (conj eq_refl eq_refl)) as [Hself Hcat]
    end.
    simpl. rewrite Hself, Hcat. by repeat split.
  - simpl. by repeat split.
Qed.

Lemma publish_none (ext : Externals) (collection_id : value) (s : State) :
  publish ext collection_id None s
  = (Ok tt, with_self (with_feature_collection (json_dumps (VDict []) 2)) s).
Proof. reflexivity. Qed.

(** The hook from the hand-off to the end, given what consolidation does. *)
Lemma post_hook_publishes (ext : Externals) (output : dict) (s : State)
  (uri collection_id : value) (collection : option Stac.OutputCollection)
  (c' : option Stac.Catalog) :
  handoff_ready s output uri collection_id →
  (∀ s2, self s2 = self s → cat s2 = catalog_at ext uri →
         ∃ s3, consolidate ext collection_id s2 = (Ok collection, s3)
               ∧ self s3 = self s2 ∧ http_log s3 = http_log s2
               ∧ cat s3 = c') →
  let out := post_execution_hook ext output s in
  cat (snd out) = c'
  ∧ match collection with
    | None =>
        fst out = Ok tt
        ∧ feature_collection (self (snd out)) = Some (json_dumps (VDict []) 2)
        ∧ http_log (snd out) = http_log s
    | Some c =>
        feature_collection (self (snd out))
        = Some (json_dumps
                  (VDict (dict_set (Stac.to_dict c) "id" collection_id)) 2)
        ∧ (use_workspace (self s) = false →
           fst out = Ok tt ∧ http_log (snd out) = http_log s)
    end.
Proof.
  intros Hready Hcons out.
  destruct (post_body_prefix ext output s uri collection_id Hready)
    as (s2 & Hbody & Hself2 & Hlog2 & Hcat2).
  destruct (Hcons s2 Hself2 Hcat2) as (s3 & Hrun & Hself3 & Hlog3 & Hcat3).
  rewrite (bind_ok _ _ _ _ _ Hrun) in Hbody.
  destruct (publish ext collection_id collection s3) as [r s4] eqn:Hpub.
  destruct (hook_wrapper _ _ _ _ Hbody)
    as (s' & Hhook & Hself & Hlog & Hcat & _).
  subst out. unfold post_execution_hook. rewrite Hhook. simpl.
  rewrite Hself, Hlog, Hcat.
  destruct collection as [c|].
  - pose proof (publish_some ext collection_id c s3) as (Hfc & Hc & Hquiet).
    rewrite Hpub in Hfc, Hc, Hquiet. simpl in Hfc, Hc, Hquiet.
    split; [congruence |]. split; [done |].
    intros Huse. rewrite Hself3, Hself2 in Hquiet.
    destruct (Hquiet Huse) as [-> ->]. split; [done | congruence].
  - rewrite publish_none in Hpub. injection Hpub as <- <-. proj.
    split; [done |]. split; [done |]. split; [done | congruence].
Qed.

(** ** The post-execution hook on the three kinds of catalog *)

Lemma post_hook_first_collection (ext : Externals) (output : dict) (s : State)
  (uri collection_id : value) (c : Stac.Catalog) (col : Stac.Collection)
  (rest : list Stac.Collection) :
  let out := post_execution_hook ext output s in
  handoff_ready s output uri collection_id →
  catalog_at ext uri = Some c →
  Stac.get_all_collections c = col :: rest →
  cat (snd out) = Some c
  ∧ feature_collection (self (snd out))
    = Some (json_dumps
              (VDict (dict_set (Stac.collection_dict col) "id" collection_id)) 2).
Proof.
  intros out Hready Hcat Hcol.
  destruct (post_hook_publishes ext output s uri collection_id
              (Some (Stac.FromCatalog col)) (Some c) Hready) as (Hc & Hfc & _).
  - intros s2 Hself2 Hcat2. exists s2.
    rewrite (consolidate_first_collection ext collection_id s2 c col rest)
      by congruence.
    repeat split. congruence.
  - by split.
Qed.

(** The hook when the loop over the items of the catalog ends in [items']. *)
Lemma post_hook_items_run (ext : Externals) (output : dict) (s : State)
  (uri collection_id : value) (c : Stac.Catalog) (items' : list Stac.Item) :
  let out := post_execution_hook ext output s in
  handoff_ready s output uri collection_id →
  catalog_at ext uri = Some c →
  Stac.get_all_collections c = [] →
  update_each (item_step (conf (self s)) collection_id) (Stac.get_all_items c)
  = (items', None) →
  cat (snd out) = Some (set_items c items')
  ∧ feature_collection (self (snd out))
    = Some (json_dumps
              (VDict (published_collection (Link_clone ext) collection_id
                        items')) 2)
  ∧ (use_workspace (self s) = false →
     fst out = Ok tt ∧ http_log (snd out) = http_log s).
Proof.
  intros out Hready Hcat Hcol Hrun.
  (* the loop reads the handler only, so its result does not depend on the
     state it is run in *)
  destruct (post_hook_publishes ext output s uri collection_id
              (Some (Stac.new_ItemCollection (Link_clone ext)
                       (map (Stac.Item_clone (Link_clone ext)) items')))
              (Some (set_items c items')) Hready) as (Hc & Hfc & Hquiet).
  - intros s2 Hself2 Hcat2.
    exists (with_cat (Some (set_items c items')) s2).
    unfold consolidate. rewrite Hcat2, Hcat, Hcol, Hself2, Hrun.
    by repeat split.
  - rewrite to_dict_item_collection in Hfc.
    split; [done |]. split; [done | exact Hquiet].
Qed.

Lemma post_hook_items (ext : Externals) (output : dict) (s : State)
  (uri collection_id region endpoint : value) (c : Stac.Catalog) :
  let out := post_execution_hook ext output s in
  handoff_ready s output uri collection_id →
  catalog_at ext uri = Some c →
  Stac.get_all_collections c = [] →
  conf_param (conf (self s)) "STAGEOUT_AWS_REGION" = Ok region →
  conf_param (conf (self s)) "STAGEOUT_AWS_SERVICEURL" = Ok endpoint →
  ∃ items',
    Forall2 (restamped region endpoint collection_id)
            (Stac.get_all_items c) items'
    ∧ cat (snd out) = Some (set_items c items')
    ∧ feature_collection (self (snd out))
      = Some (json_dumps
                (VDict (published_collection (Link_clone ext) collection_id
                          items')) 2).
Proof.
  intros out Hready Hcat Hcol Hr He.
  destruct (items_loop_ok (conf (self s)) collection_id region endpoint
              (Stac.get_all_items c) Hr He) as (items' & Hrun & Hall).
  exists items'. split; [done |].
  destruct (post_hook_items_run ext output s uri collection_id c items'
              Hready Hcat Hcol Hrun) as (Hc & Hfc & _).
  by split.
Qed.

(** C7. When the catalog holds a collection, the result is the first one,
    serialised with its id replaced by the supplied id and every other
    field as it was, and the items of the catalog are left as they were
    read. *)
Theorem first_collection_only_id_overwritten (ext : Externals) (output : dict)
  (s : State) (txt : string) (collection_id : value) (c : Stac.Catalog)
  (col : Stac.Collection) (rest : list Stac.Collection) :
  let out := post_execution_hook ext output s in
  let collection_dict :=
    dict_set (Stac.collection_dict col) "id" collection_id in
  handoff_ready s output (VStr txt) collection_id →
  read_file ext (s3_path_of txt) = Ok c →
  Stac.get_all_collections c = col :: rest →
  feature_collection (self (snd out))
  = Some (json_dumps (VDict collection_dict) 2)
  ∧ dict_get collection_dict "id" = Some collection_id
  ∧ (∀ k, k ≠ "id"%string →
          dict_get collection_dict k = dict_get (Stac.collection_dict col) k)
  ∧ cat (snd out) = Some c.
Proof.
  intros out collection_dict Hready Hread Hcol.
  destruct (post_hook_first_collection ext output s (VStr txt) collection_id
              c col rest Hready) as [Hc Hfc]; [| done |].
  { unfold catalog_at. by rewrite Hread. }
  split; [done |]. split; [apply dict_get_set_eq |]. split; [| done].
  intros k Hk. apply dict_get_set_ne. congruence.
Qed.

(** C6. When the catalog holds no collection, the hook first rewrites the
    items of the catalog in memory, one by one and in order: every asset is
    replaced by one that carries the five storage fields, region and
    endpoint being the stage-out parameters, and is otherwise the asset it
    was; the collection id becomes the supplied id; nothing else of the
    item changes. The result is then the feature collection of the clones
    of these items, under the supplied id: each feature has the id, the
    properties, the geometry, the bounding box, the extensions and the
    cloned links of its item, the supplied id as its collection, and the
    annotated assets, each with the five storage fields in its serialised
    form. A clone has no other top-level field, whatever the item held. *)
Theorem items_fallback_annotates_and_restamps (ext : Externals)
  (output : dict) (s : State) (txt : string)
  (collection_id region endpoint : value) (c : Stac.Catalog) :
  let out := post_execution_hook ext output s in
  handoff_ready s output (VStr txt) collection_id →
  read_file ext (s3_path_of txt) = Ok c →
  Stac.get_all_collections c = [] →
  conf_param (conf (self s)) "STAGEOUT_AWS_REGION" = Ok region →
  conf_param (conf (self s)) "STAGEOUT_AWS_SERVICEURL" = Ok endpoint →
  ∃ items',
    Forall2 (restamped region endpoint collection_id)
            (Stac.get_all_items c) items'
    ∧ cat (snd out) = Some (set_items c items')
    ∧ feature_collection (self (snd out))
      = Some (json_dumps
                (VDict [("type"%string, VStr "FeatureCollection");
                        ("features"%string,
                         VList (map (fun i' =>
                                       VDict (published_feature
                                                (Link_clone ext) i'))
                                    items'));
                        ("id"%string, collection_id)]) 2)
    ∧ Forall (fun i' =>
                Forall (fun ka => carries_storage region endpoint
                                    (Stac.Asset_to_dict (snd ka)))
                       (Stac.assets i'))
             items'.
Proof.
  intros out Hready Hread Hcol Hr He.
  destruct (post_hook_items ext output s (VStr txt) collection_id region
              endpoint c) as (items' & Hall & Hcat & Hfc); try done.
  { unfold catalog_at. by rewrite Hread. }
  exists items'. split; [done |]. split; [done |]. split; [exact Hfc |].
  by apply (restamped_carries_storage region endpoint collection_id
              (Stac.get_all_items c)).
Qed.

(** C2. Whenever the catalog is read, whichever way the collection is
    obtained, the dictionary that is serialised into [feature_collection]
    has the supplied collection id under id. *)
Theorem consolidated_id_is_collection_id (ext : Externals) (output : dict)
  (s : State) (txt : string) (collection_id : value) (c : Stac.Catalog) :
  let out := post_execution_hook ext output s in
  handoff_ready s output (VStr txt) collection_id →
  read_file ext (s3_path_of txt) = Ok c →
  ∃ collection_dict,
    feature_collection (self (snd out))
    = Some (json_dumps (VDict collection_dict) 2)
    ∧ dict_get collection_dict "id" = Some collection_id.
Proof.
  intros out Hready Hread.
  assert (Hcat : catalog_at ext (VStr txt) = Some c).
  { unfold catalog_at. by rewrite Hread. }
  destruct (Stac.get_all_collections c) as [|col rest] eqn:Hcol.
  - destruct (exported_has "STAGEOUT_AWS_REGION" s (proj1 Hready))
      as [region Hr].
    { by apply (bool_decide_unpack _); vm_compute. }
    destruct (exported_has "STAGEOUT_AWS_SERVICEURL" s (proj1 Hready))
      as [endpoint He].
    { by apply (bool_decide_unpack _); vm_compute. }
    destruct (post_hook_items ext output s (VStr txt) collection_id
                (VStr region) (VStr endpoint) c Hready Hcat Hcol Hr He)
      as (items' & _ & _ & Hfc).
    eexists. split; [exact Hfc | reflexivity].
  - destruct (post_hook_first_collection ext output s (VStr txt)
                collection_id c col rest Hready Hcat Hcol) as [_ Hfc].
    eexists. split; [exact Hfc | apply dict_get_set_eq].
Qed.

(** C1, amended. When the catalog cannot be read, so that neither attempt
    yields a collection, the hook returns, [feature_collection] is the
    empty JSON object and no registration call is made. *)
Theorem unread_catalog_gives_empty_object (ext : Externals) (output : dict)
  (s : State) (uri collection_id : value) :
  let out := post_execution_hook ext output s in
  handoff_ready s output uri collection_id →
  catalog_at ext uri = None →
  fst out = Ok tt
  ∧ feature_collection (self (snd out)) = Some "{}"%string
  ∧ http_log (snd out) = http_log s.
Proof.
  intros out Hready Hcat.
  destruct (post_hook_publishes ext output s uri collection_id None None
              Hready) as (_ & Hr & Hfc & Hlog).
  - intros s2 Hself2 Hcat2. exists s2.
    rewrite consolidate_unbound by congruence.
    repeat split. congruence.
  - by repeat split.
Qed.

(** ** The hooks on the sample inputs *)

Ltac solve_parameter :=
  unfold exportable; cbv beta;
  match goal with
  | |- ex (fun txt => ?lhs = @?rhs txt ∧ @?free txt) =>
      let v := eval vm_compute in lhs in
      match v with
      | Ok (VStr ?t) => exists t; split; vm_compute; reflexivity
      end
  end.

Lemma sample_handoff_ready :
  handoff_ready Sample.after_failed_lookup Sample.output
    (VStr "ws-alice/run-1/catalog.json") (VStr "run-1").
Proof.
  split; [| split].
  - repeat first [apply Forall_nil | apply Forall_cons; split];
      first [exact I | solve_parameter].
  - reflexivity.
  - by vm_compute.
Defined.

Lemma first_collection_only_id_overwritten_witness :
  let ext := Sample.ext (Sample.response 404 (Raise (OtherError "JSONDecodeError")))
               (Ok Sample.collection_catalog) in
  let out := post_execution_hook ext Sample.output Sample.after_failed_lookup in
  feature_collection (self (snd out))
  = Some (json_dumps
            (VDict [("type"%string, VStr "Collection");
                    ("id"%string, VStr "run-1");
                    ("description"%string, VStr "results")]) 2)
  ∧ cat (snd out) = Some Sample.collection_catalog.
Proof.
  intros ext out.
  destruct (first_collection_only_id_overwritten ext Sample.output
              Sample.after_failed_lookup "ws-alice/run-1/catalog.json"
              (VStr "run-1") Sample.collection_catalog Sample.collection []
              sample_handoff_ready eq_refl eq_refl) as (Hfc & _ & _ & Hcat).
  split; [exact Hfc | exact Hcat].
Defined.

Lemma items_fallback_annotates_and_restamps_witness :
  let ext := Sample.ext (Sample.response 404 (Raise (OtherError "JSONDecodeError")))
               (Ok Sample.foreign_catalog) in
  let out := post_execution_hook ext Sample.output Sample.after_failed_lookup in
  let region := VStr "RegionOne" in
  let endpoint := VStr "http://s3-service.zoo.svc.cluster.local:9000" in
  ∃ items',
    Forall2 (restamped region endpoint (VStr "run-1"))
            [Sample.foreign_item] items'
    ∧ cat (snd out) = Some (set_items Sample.foreign_catalog items')
    ∧ feature_collection (self (snd out))
      = Some (json_dumps
                (VDict [("type"%string, VStr "FeatureCollection");
                        ("features"%string,
                         VList (map (fun i' =>
                                       VDict (published_feature
                                                (fun link => link) i'))
                                    items'));
                        ("id"%string, VStr "run-1")]) 2)
    ∧ Forall (fun i' =>
                Forall (fun ka => carries_storage region endpoint
                                    (Stac.Asset_to_dict (snd ka)))
                       (Stac.assets i'))
             items'.
Proof.
  intros ext out region endpoint.
  refine (items_fallback_annotates_and_restamps ext Sample.output
            Sample.after_failed_lookup "ws-alice/run-1/catalog.json"
            (VStr "run-1") region endpoint
            Sample.foreign_catalog sample_handoff_ready eq_refl eq_refl _ _);
    by vm_compute.
Defined.

(** The same run, computed: the feature keeps the members of the item
    model, takes the supplied collection id in place of its own, and has
    lost the field [foo] the item held, which is still on the item in
    memory. *)
Lemma foreign_field_is_not_published :
  let ext := Sample.ext (Sample.response 404 (Raise (OtherError "JSONDecodeError")))
               (Ok Sample.foreign_catalog) in
  let out := post_execution_hook ext Sample.output Sample.after_failed_lookup in
  let feature : dict :=
    [("type"%string, VStr "Feature");
     ("stac_version"%string, VStr "1.0.0");
     ("id"%string, VStr "item-3");
     ("properties"%string,
      VDict [("datetime"%string, VStr "2024-01-01T00:00:00Z")]);
     ("geometry"%string, VNone);
     ("links"%string,
      VList [VDict [("rel"%string, VStr "self");
                    ("href"%string, VStr "s3://ws-alice/run-1/item-3.json")]]);
     ("assets"%string,
      VDict [("result"%string,
              VDict [("href"%string, VStr "s3://ws-alice/run-1/result.tif");
                     ("type"%string, VStr "image/tiff");
                     ("storage:platform"%string, VStr "EOEPCA");
                     ("storage:requester_pays"%string, VBool false);
                     ("storage:tier"%string, VStr "Standard");
                     ("storage:region"%string, VStr "RegionOne");
                     ("storage:endpoint"%string,
                      VStr "http://s3-service.zoo.svc.cluster.local:9000");
                     ("roles"%string, VList [VStr "data"])])]);
     ("bbox"%string, VList [VInt 0; VInt 0; VInt 1; VInt 1]);
     ("stac_extensions"%string, VList []);
     ("collection"%string, VStr "run-1")] in
  fst out = Ok tt
  ∧ feature_collection (self (snd out))
    = Some (json_dumps
              (VDict [("type"%string, VStr "FeatureCollection");
                      ("features"%string, VList [VDict feature]);
                      ("id"%string, VStr "run-1")]) 2)
  ∧ dict_get feature "foo" = None
  ∧ (∃ i', cat (snd out) = Some (set_items Sample.foreign_catalog [i'])
           ∧ Stac.item_extra_fields i' = [("foo"%string, VStr "bar")]
           ∧ Stac.collection_id i' = VStr "run-1").
Proof.
  vm_compute. split; [done |]. split; [done |]. split; [done |].
  eexists. split; [reflexivity |]. by split.
Qed.

Lemma consolidated_id_is_collection_id_witness :
  let ext := Sample.ext (Sample.response 404 (Raise (OtherError "JSONDecodeError")))
               (Ok Sample.items_catalog) in
  let out := post_execution_hook ext Sample.output Sample.after_failed_lookup in
  ∃ collection_dict,
    feature_collection (self (snd out))
    = Some (json_dumps (VDict collection_dict) 2)
    ∧ dict_get collection_dict "id" = Some (VStr "run-1").
Proof.
  intros ext out.
  exact (consolidated_id_is_collection_id ext Sample.output
           Sample.after_failed_lookup "ws-alice/run-1/catalog.json"
           (VStr "run-1") Sample.items_catalog sample_handoff_ready eq_refl).
Defined.

Lemma unread_catalog_gives_empty_object_witness :
  let ext := Sample.ext (Sample.response 404 (Raise (OtherError "JSONDecodeError")))
               (Raise FileNotFoundError) in
  let out := post_execution_hook ext Sample.output Sample.after_failed_lookup in
  fst out = Ok tt
  ∧ feature_collection (self (snd out)) = Some "{}"%string
  ∧ http_log (snd out) = http_log Sample.after_failed_lookup.
Proof.
  intros ext out.
  exact (unread_catalog_gives_empty_object ext Sample.output
           Sample.after_failed_lookup (VStr "ws-alice/run-1/catalog.json")
           (VStr "run-1") sample_handoff_ready eq_refl).
Defined.

(** C1 as stated fails: a catalog that is read and holds neither a
    collection nor an item gives a feature collection without features,
    not the empty object, and with the workspace in use the register-json
    call is made; the hook then raises, because the collection built from
    items has no [get_self_href]. *)
Lemma empty_catalog_is_published :
  let ext := Sample.ext (Sample.response 200 (Ok Sample.details))
               (Ok Sample.empty_catalog) in
  let out := post_execution_hook ext Sample.output Sample.after_lookup in
  let collection_dict :=
    [("type"%string, VStr "FeatureCollection"); ("features"%string, VList []);
     ("id"%string, VStr "run-1")] in
  let ws := {| ws_url := "http://workspace-api"; ws_prefix := "ws";
               ws_user := VStr "alice" |} in
  use_workspace (self Sample.after_lookup) = true
  ∧ feature_collection (self (snd out))
    = Some (json_dumps (VDict collection_dict) 2)
  ∧ feature_collection (self (snd out)) ≠ Some "{}"%string
  ∧ map call (http_log (snd out))
    = [GetWorkspaceDetails ws "token";
       PostRegisterJson ws "token" collection_dict]
  ∧ fst out = Raise (AttributeError "get_self_href").
Proof. vm_compute. by repeat split. Qed.

(** Without the workspace the same catalog makes the hook return. *)
Lemma empty_catalog_without_workspace :
  let ext := Sample.ext (Sample.response 404 (Raise (OtherError "JSONDecodeError")))
               (Ok Sample.empty_catalog) in
  let out := post_execution_hook ext Sample.output Sample.after_failed_lookup in
  fst out = Ok tt
  ∧ feature_collection (self (snd out)) ≠ Some "{}"%string
  ∧ http_log (snd out) = http_log Sample.after_failed_lookup.
Proof. vm_compute. by repeat split. Qed.

(** * Further properties *)

(** ** [handle_outputs] *)

Lemma okeys_cases (okey : string) :
  okey ∈ okeys → okey = "url"%string ∨ okey = "title"%string ∨ okey = "rel"%string.
Proof.
  unfold okeys. intros H.
  repeat (apply elem_of_cons in H as [H|H]; [tauto |]).
  by apply elem_of_nil in H.
Qed.

Lemma log_key_unfold (okey : string) (i : nat) :
  log_key okey i = okey ∨ log_key okey i = okey +:+ "_" +:+ pretty i.
Proof. destruct i; [by left | by right]. Qed.

(** Distinct entries never share a key. *)
Lemma log_key_inj (okey1 okey2 : string) (i1 i2 : nat) :
  okey1 ∈ okeys → okey2 ∈ okeys →
  log_key okey1 i1 = log_key okey2 i2 → okey1 = okey2 ∧ i1 = i2.
Proof.
  intros H1 H2.
  destruct (okeys_cases _ H1) as [-> | [-> | ->]];
    destruct (okeys_cases _ H2) as [-> | [-> | ->]];
    destruct i1 as [|n1], i2 as [|n2]; cbn [log_key String.append];
    intros Heq; try discriminate Heq; try done;
    do 2 apply (inj (String.append _)) in Heq; apply (inj pretty) in Heq;
    by split.
Qed.

Lemma log_key_not_length (okey : string) (i : nat) :
  okey ∈ okeys → log_key okey i ≠ "length"%string.
Proof.
  intros H. destruct (okeys_cases _ H) as [-> | [-> | ->]];
    destruct i; cbn [log_key String.append]; discriminate.
Qed.

Lemma store_logs_spec (entries : list ServiceLog) :
  ∀ (i0 : nat) (logs : option (gmap string string)),
    entries ≠ [] ∨ is_Some logs →
    ∃ m,
      store_logs i0 entries logs = Some m
      ∧ (∀ j entry, entries !! j = Some entry →
           m !! log_key "url" (i0 + j) = Some (log_url entry)
           ∧ m !! log_key "title" (i0 + j) = Some (log_title entry)
           ∧ m !! log_key "rel" (i0 + j) = Some (log_rel entry))
      ∧ (∀ k, (∀ okey j, okey ∈ okeys → k ≠ log_key okey (i0 + j)) →
              m !! k = default ∅ logs !! k).
Proof.
  induction entries as [|entry rest IH]; intros i0 logs Hne.
  - destruct Hne as [Hne|[m0 ->]]; [done |].
    exists m0. split; [done |]. split; [| done].
    intros j entry Hj. by rewrite lookup_nil in Hj.
  - cbn [store_logs].
    destruct (IH (S i0) (store_log i0 entry logs)) as (m & Hm & Hget & Hframe).
    { right. unfold store_log. by eexists. }
    exists m. split; [done |].
    assert (Hin : ∀ okey, okey ∈ okeys → okey ∈ okeys) by done.
    assert (Hurl : "url"%string ∈ okeys)
      by (unfold okeys; repeat first [apply list_elem_of_here
                                     | apply list_elem_of_further]).
    assert (Htitle : "title"%string ∈ okeys)
      by (unfold okeys; repeat first [apply list_elem_of_here
                                     | apply list_elem_of_further]).
    assert (Hrel : "rel"%string ∈ okeys)
      by (unfold okeys; repeat first [apply list_elem_of_here
                                     | apply list_elem_of_further]).
    assert (Hhere : ∀ okey, okey ∈ okeys →
              m !! log_key okey i0
              = default ∅ (store_log i0 entry logs) !! log_key okey i0).
    { intros okey Hokey. apply Hframe. intros okey' j Hokey' Heq.
      apply log_key_inj in Heq as [_ Heq]; [lia | done | done]. }
    split.
    + intros [|j] e Hj.
      * injection Hj as ->. rewrite Nat.add_0_r, !Hhere by done.
        unfold store_log. cbn [default from_option id].
        split; [| split].
        -- do 2 (rewrite lookup_insert_ne;
                   [| intros Heq; by apply log_key_inj in Heq as [? _]]).
           apply lookup_insert_eq.
        -- rewrite lookup_insert_ne;
             [| intros Heq; by apply log_key_inj in Heq as [? _]].
           apply lookup_insert_eq.
        -- apply lookup_insert_eq.
      * replace (i0 + S j)%nat with (S i0 + j)%nat by lia. by apply Hget.
    + intros k Hk. rewrite Hframe.
      * unfold store_log. cbn [default from_option id].
        rewrite lookup_insert_ne;
          [| intros <-; apply (Hk "rel"%string 0%nat Hrel);
             by rewrite Nat.add_0_r].
        rewrite lookup_insert_ne;
          [| intros <-; apply (Hk "title"%string 0%nat Htitle);
             by rewrite Nat.add_0_r].
        rewrite lookup_insert_ne;
          [| intros <-; apply (Hk "url"%string 0%nat Hurl);
             by rewrite Nat.add_0_r].
        done.
      * intros okey j Hokey.
        replace (S i0 + j)%nat with (i0 + S j)%nat by lia. by apply Hk.
Qed.

Lemma services_logs_complete (c : OutputsConf) (tmpUrl identifier usid : string)
  (tool_logs : list string) :
  logs_conf_complete c tmpUrl identifier usid →
  services_logs c tool_logs
  = Ok (map (expected_log tmpUrl identifier usid) tool_logs).
Proof.
  intros (Hurl & Hid & Husid).
  induction tool_logs as [|tool_log rest IH]; [done |].
  cbn [services_logs map]. unfold service_log at 1.
  rewrite Hurl, Hid, Husid. cbn [rbind]. by rewrite IH.
Qed.

Lemma section_item_cases (sec : option (gmap string string))
  (name key : string) :
  (∃ v, section_item sec name key = Ok v)
  ∨ (∃ k, section_item sec name key = Raise (KeyError k)).
Proof.
  unfold section_item. destruct sec as [m|]; [| right; by eexists].
  destruct (m !! key); [left | right]; by eexists.
Qed.

Lemma service_log_cases (c : OutputsConf) (tool_log : string) :
  (∃ tmpUrl identifier usid, logs_conf_complete c tmpUrl identifier usid)
  ∨ ((∃ k, service_log c tool_log = Raise (KeyError k))
     ∧ ∀ tmpUrl identifier usid, ¬ logs_conf_complete c tmpUrl identifier usid).
Proof.
  unfold service_log, logs_conf_complete.
  destruct (section_item_cases (main c) "main" "tmpUrl") as [[u Hu]|[k Hk]].
  2: { right. rewrite Hk. split; [by eexists | intros ??? [? _]; congruence]. }
  destruct (section_item_cases (outputs_lenv c) "lenv" "Identifier")
    as [[i Hi]|[k Hk]].
  2: { right. rewrite Hu, Hk. split; [by eexists |].
       intros ??? (_ & ? & _); congruence. }
  destruct (section_item_cases (outputs_lenv c) "lenv" "usid")
    as [[d Hd]|[k Hk]].
  2: { right. rewrite Hu, Hi, Hk. split; [by eexists |].
       intros ??? (_ & _ & ?); congruence. }
  left. by exists u, i, d.
Qed.

Lemma handle_outputs_entries_aux (c : OutputsConf) (tool_logs : list string)
  (tmpUrl identifier usid : string) :
  logs_conf_complete c tmpUrl identifier usid →
  tool_logs ≠ [] ∨ is_Some (service_logs c) →
  ∃ m, handle_outputs c tool_logs = (Ok tt, with_service_logs m c).
Proof.
  intros Hconf Hne. unfold handle_outputs.
  rewrite (services_logs_complete c tmpUrl identifier usid) by done.
  destruct (store_logs_spec (map (expected_log tmpUrl identifier usid) tool_logs)
              0 (service_logs c)) as (m & Hm & _).
  { destruct Hne as [Hne|Hsome]; [left | by right].
    by destruct tool_logs. }
  rewrite Hm. by eexists.
Qed.

(** X1. With the three configuration entries in place, and either a tool
    log or an existing service_logs section, [handle_outputs] returns and
    leaves in [conf["service_logs"]] the number of logs under length and,
    for the log at position [i], its url, title and rel under the keys
    suffixed with [_i] (no suffix for the first). *)
Theorem handle_outputs_entries (c : OutputsConf) (tool_logs : list string)
  (tmpUrl identifier usid : string) :
  logs_conf_complete c tmpUrl identifier usid →
  tool_logs ≠ [] ∨ is_Some (service_logs c) →
  ∃ m,
    handle_outputs c tool_logs = (Ok tt, with_service_logs m c)
    ∧ m !! "length" = Some (pretty (length tool_logs))
    ∧ ∀ i tool_log,
        tool_logs !! i = Some tool_log →
        m !! log_key "url" i
        = Some (os_path_join tmpUrl
                  [identifier +:+ "-" +:+ usid; os_path_basename tool_log])
        ∧ m !! log_key "title" i
          = Some ("Tool log " +:+ os_path_basename tool_log)
        ∧ m !! log_key "rel" i = Some "related"%string.
Proof.
  intros Hconf Hne. unfold handle_outputs.
  rewrite (services_logs_complete c tmpUrl identifier usid) by done.
  destruct (store_logs_spec (map (expected_log tmpUrl identifier usid) tool_logs)
              0 (service_logs c)) as (m & Hm & Hget & _).
  { destruct Hne as [Hne|Hsome]; [left | by right].
    by destruct tool_logs. }
  rewrite Hm, length_map. eexists. split; [reflexivity |].
  split; [apply lookup_insert_eq |].
  intros i tool_log Hi.
  destruct (Hget i (expected_log tmpUrl identifier usid tool_log))
    as (Hu & Ht & Hr).
  { by rewrite list_lookup_fmap, Hi. }
  assert (Hokey : ∀ okey, okey ∈ okeys →
            ("length"%string : string) ≠ log_key okey i).
  { intros okey Hokey Heq. by apply (log_key_not_length okey i). }
  rewrite !lookup_insert_ne
    by (apply Hokey; unfold okeys;
        repeat first [apply list_elem_of_here | apply list_elem_of_further]).
  done.
Qed.

Lemma handle_outputs_entries_witness :
  let c := {| main := Some {["tmpUrl" := "http://host/temp"]};
              outputs_lenv := Some (<["Identifier" := "proc"]> {["usid" := "123"]});
              service_logs := None |} in
  ∃ m, handle_outputs c ["/work/a.log"; "/work/b.log"]
       = (Ok tt, with_service_logs m c)
       ∧ m !! "length" = Some "2"%string
       ∧ m !! "url_1" = Some "http://host/temp/proc-123/b.log"%string.
Proof.
  intros c.
  destruct (handle_outputs_entries c ["/work/a.log"; "/work/b.log"]%string
              "http://host/temp" "proc" "123") as (m & Hrun & Hlen & Hget).
  - by vm_compute.
  - by left.
  - exists m. split; [exact Hrun |]. split; [exact Hlen |].
    exact (proj1 (Hget 1%nat "/work/b.log"%string eq_refl)).
Defined.

(** X2. [handle_outputs] writes only length and the url, title and rel
    keys: every other entry of an existing service_logs section is kept. *)
Theorem handle_outputs_keeps_other_entries (c : OutputsConf)
  (tool_logs : list string) (m : gmap string string) (k : string) :
  handle_outputs c tool_logs = (Ok tt, with_service_logs m c) →
  k ≠ "length"%string →
  (∀ okey i, okey ∈ okeys → k ≠ log_key okey i) →
  m !! k = default ∅ (service_logs c) !! k.
Proof.
  unfold handle_outputs. intros Hrun Hlen Hk.
  destruct (services_logs c tool_logs) as [entries|e]; [| done].
  destruct (store_logs 0 entries (service_logs c)) as [m0|] eqn:Hstore;
    [| done].
  injection Hrun as <-.
  rewrite lookup_insert_ne by done.
  destruct (store_logs_spec entries 0 (service_logs c)) as (m' & Hm' & _ & Hf).
  { destruct entries; [right | by left].
    cbn [store_logs] in Hstore. by rewrite Hstore. }
  rewrite Hstore in Hm'. injection Hm' as <-. by apply Hf.
Qed.

Lemma handle_outputs_keeps_other_entries_witness :
  let c := {| main := Some {["tmpUrl" := "http://host/temp"]};
              outputs_lenv := Some (<["Identifier" := "proc"]> {["usid" := "123"]});
              service_logs := Some {["note" := "kept"]} |} in
  let m : gmap string string :=
    <["length" := "1"]>
      (<["rel" := "related"]>
         (<["title" := "Tool log a.log"]>
            (<["url" := "http://host/temp/proc-123/a.log"]>
               {["note" := "kept"]}))) in
  m !! "note" = default ∅ (service_logs c) !! "note".
Proof.
  intros c m.
  refine (handle_outputs_keeps_other_entries c ["/work/a.log"]%string m
            "note" _ _ _).
  - by vm_compute.
  - discriminate.
  - intros okey i Hokey.
    destruct (okeys_cases _ Hokey) as [-> | [-> | ->]];
      destruct i; cbn [log_key String.append]; discriminate.
Defined.

(** X3. [handle_outputs] returns exactly when there is no tool log and a
    service_logs section exists, or there is a tool log and the three
    configuration entries are present. Otherwise it raises a [KeyError]
    and [conf] is as it was. *)
Theorem handle_outputs_outcome (c : OutputsConf) (tool_logs : list string) :
  let out := handle_outputs c tool_logs in
  (fst out = Ok tt
   ↔ (tool_logs = [] ∧ is_Some (service_logs c))
     ∨ (tool_logs ≠ []
        ∧ ∃ tmpUrl identifier usid, logs_conf_complete c tmpUrl identifier usid))
  ∧ (fst out ≠ Ok tt → snd out = c ∧ ∃ key, fst out = Raise (KeyError key)).
Proof.
  destruct tool_logs as [|tool_log rest].
  - unfold handle_outputs. cbn [services_logs store_logs].
    destruct (service_logs c) as [m0|]; simpl.
    + split; [| done]. split; [intros _; left; by split | done].
    + split.
      * split; [done |]. intros [[_ [? ?]]|[? _]]; done.
      * intros _. split; [done | by eexists].
  - destruct (service_log_cases c tool_log)
      as [(u & i & d & Hconf)|[[k Hk] Hnot]].
    + destruct (handle_outputs_entries_aux c (tool_log :: rest) u i d Hconf)
        as (m & ->); [by left |].
      simpl. split; [| done].
      split; [| done]. intros _. right. split; [done | by exists u, i, d].
    + unfold handle_outputs. cbn [services_logs]. rewrite Hk. simpl.
      split.
      * split; [done |]. intros [[? _]|[_ (u & i & d & Hconf)]]; [done |].
        by destruct (Hnot u i d).
      * intros _. split; [done | by eexists].
Qed.

Lemma handle_outputs_outcome_witness :
  let c := {| main := None; outputs_lenv := None; service_logs := None |} in
  fst (handle_outputs c []) ≠ Ok tt
  ∧ snd (handle_outputs c ["/work/a.log"]%string) = c.
Proof.
  intros c. split.
  - intros H.
    apply (proj1 (proj1 (handle_outputs_outcome c []))) in H
      as [[_ [m Hm]]|[Hne _]]; done.
  - apply (proj2 (handle_outputs_outcome c ["/work/a.log"]%string)).
    by vm_compute.
Defined.

(** ** What the steps of a hook leave alone *)

Lemma keeps_bind {A B C} (f : State → C) (m : M A) (k : A → M B) :
  keeps f m → (∀ a, keeps f (k a)) → keeps f (bind m k).
Proof.
  intros Hm Hk s. specialize (Hm s). unfold bind.
  destruct (m s) as [[a|e] s1]; simpl in *; [| done].
  by rewrite Hk.
Qed.

Lemma keeps_ret {A C} (f : State → C) (a : A) : keeps f (ret a).
Proof. done. Qed.

Lemma keeps_raise {A C} (f : State → C) (e : exn) : keeps f (@raise A e).
Proof. done. Qed.

Lemma keeps_lift {A C} (f : State → C) (r : result A) : keeps f (lift r).
Proof. done. Qed.

Lemma keeps_gets {A C} (f : State → C) (g : State → A) : keeps f (gets g).
Proof. done. Qed.

Lemma keeps_param_get {C} (f : State → C) (key : string) :
  keeps f (param_get key).
Proof. done. Qed.

Lemma keeps_get_username {C} (f : State → C) : keeps f get_username.
Proof. intros s. unfold get_username. by destruct (username (self s)). Qed.

Lemma keeps_modify {C} (f : State → C) (g : State → State) :
  (∀ s, f (g s) = f s) → keeps f (modify g).
Proof. intros H s. apply H. Qed.

Lemma keeps_param_set {C} (f : State → C) (key : string) (v : value) :
  (∀ g s, f (with_self g s) = f s) → keeps f (param_set key v).
Proof.
  intros H s. unfold param_set.
  destruct (additional_parameters (conf (self s))); [apply H | done].
Qed.

Lemma keeps_http {C} (f : State → C) (oracle : http_call → result Response)
  (c : http_call) :
  (∀ g s, f (with_http_log g s) = f s) → keeps f (http oracle c).
Proof. intros H s. apply H. Qed.

Lemma keeps_environ_set {C} (f : State → C) (name : string) (v : value) :
  (∀ g s, f (with_environ g s) = f s) → keeps f (environ_set name v).
Proof.
  intros H. unfold environ_set. destruct v as [| | |txt| |]; try done.
  destruct (has_nul txt); [done |]. intros s. apply H.
Qed.

Lemma keeps_export_all {C} (f : State → C) (table : list (string * string)) :
  (∀ g s, f (with_environ g s) = f s) → keeps f (export_all table).
Proof.
  intros H. induction table as [|[name key] table IH]; [done |].
  cbn [export_all]. apply keeps_bind; [apply keeps_param_get | intros v].
  apply keeps_bind; [by apply keeps_environ_set | done].
Qed.

Lemma keeps_read_catalog {C} (f : State → C) (ext : Externals) (uri : value) :
  (∀ c s, f (with_cat c s) = f s) → keeps f (read_catalog ext uri).
Proof.
  intros H s. rewrite read_catalog_run. apply H.
Qed.

Lemma keeps_consolidate {C} (f : State → C) (ext : Externals)
  (collection_id : value) :
  (∀ c s, f (with_cat c s) = f s) → keeps f (consolidate ext collection_id).
Proof.
  intros H s. unfold consolidate.
  destruct (cat s) as [c|]; [| done].
  destruct (Stac.get_all_collections c); [| done].
  destruct (update_each _ _) as [items' [e|]]; apply H.
Qed.

Ltac keeps_steps :=
  repeat first
    [ apply keeps_bind; [| intros ?]
    | apply keeps_ret | apply keeps_raise | apply keeps_lift
    | apply keeps_gets | apply keeps_param_get | apply keeps_get_username
    | apply keeps_param_set; by intros
    | apply keeps_http; by intros
    | apply keeps_environ_set; by intros
    | apply keeps_export_all; by intros
    | apply keeps_read_catalog; by intros
    | apply keeps_consolidate; by intros
    | apply keeps_modify; by intros
    | match goal with
      | |- keeps _ (if ?b then _ else _) => destruct b
      | |- keeps _ (match ?c with Some _ => _ | None => _ end) => destruct c
      end ].

Lemma register_keeps_environ (ext : Externals) (c : Stac.OutputCollection)
  (d : dict) :
  keeps environ (register ext c d).
Proof. unfold register. keeps_steps. Qed.

Lemma publish_keeps_environ (ext : Externals) (collection_id : value)
  (collection : option Stac.OutputCollection) :
  keeps environ (publish ext collection_id collection).
Proof. unfold publish. destruct collection; keeps_steps. Qed.

Lemma lookup_workspace_keeps_environ (ext : Externals) :
  keeps environ (lookup_workspace ext).
Proof. unfold lookup_workspace, use_workspace_details. keeps_steps. Qed.

(** ** The environment hand-off of the post-execution hook *)

Ltac in_table :=
  unfold exported_parameters, config_defaults, stageout_credentials, okeys;
  repeat first [apply list_elem_of_here | apply list_elem_of_further].

Lemma export_all_environ (table : list (string * string)) :
  ∀ s,
    NoDup (map fst table) →
    Forall (exportable (conf (self s))) table →
    fst (export_all table s) = Ok tt
    ∧ (∀ name key txt,
          (name, key) ∈ table →
          conf_param (conf (self s)) key = Ok (VStr txt) →
          environ (snd (export_all table s)) !! name = Some txt)
    ∧ (∀ n, n ∉ map fst table →
            environ (snd (export_all table s)) !! n = environ s !! n).
Proof.
  induction table as [|[name key] table IH]; intros s Hnd Hall.
  - split; [done |]. split; [| done].
    intros name key txt Hin. by apply elem_of_nil in Hin.
  - cbn [map fst] in Hnd. apply NoDup_cons in Hnd as [Hfresh Hnd].
    apply Forall_cons in Hall as [(txt & Hkey & Hnul) Hall]. cbn [snd] in Hkey.
    cbn [export_all]. rewrite (bind_param_get _ _ _ _ Hkey).
    unfold environ_set. rewrite Hnul, bind_modify.
    destruct (IH (with_environ (insert name txt) s) Hnd Hall)
      as (Hok & Hget & Hother).
    split; [done |]. split.
    + intros name' key' txt' Hin Hkey'.
      apply elem_of_cons in Hin as [[= -> ->]|Hin].
      * rewrite Hother by done. cbn [environ with_environ].
        rewrite lookup_insert_eq. congruence.
      * by apply (Hget name' key').
    + intros n Hn. cbn [map fst] in Hn.
      apply not_elem_of_cons in Hn as [Hne Hn].
      rewrite Hother by done. cbn [environ with_environ].
      by rewrite lookup_insert_ne.
Qed.

Lemma exported_names_NoDup : NoDup (map fst exported_parameters).
Proof. by apply (bool_decide_unpack _); vm_compute. Qed.

Lemma exported_names_not_proxy (name key : string) :
  (name, key) ∈ exported_parameters → name ≠ "HTTP_PROXY"%string.
Proof.
  intros Hin ->.
  assert (H : ("HTTP_PROXY"%string : string) ∈ map fst exported_parameters).
  { apply list_elem_of_fmap. by exists ("HTTP_PROXY"%string, key). }
  revert H. by apply (bool_decide_unpack _); vm_compute.
Qed.

(** The part of the hook after the hand-off does not write the environment. *)
Lemma after_export_keeps_environ (ext : Externals) (output : dict) :
  keeps environ
    (do access_point <- param_get "STAGEOUT_ACCESS_POINT" in
     exec modify (with_class_access_point access_point) in
     do uri <- lift (subscript (VDict output) "StacCatalogUri") in
     exec read_catalog ext uri in
     do collection_id <- param_get "collection_id" in
     do collection <- consolidate ext collection_id in
     publish ext collection_id collection).
Proof. keeps_steps. apply publish_keeps_environ. Qed.

Lemma restore_other_variables (s : State) (name : string) :
  name ≠ "HTTP_PROXY"%string →
  environ (snd (restore_http_proxy_env s)) !! name = environ s !! name.
Proof.
  intros Hne. unfold restore_http_proxy_env.
  destruct (http_proxy_env (self s)) as [v|]; [| done].
  destruct (str_truthy v); [| done]. simpl. by rewrite lookup_insert_ne.
Qed.

Lemma post_hook_environ (ext : Externals) (output : dict) (s : State) :
  Forall (exportable (conf (self s))) exported_parameters →
  (∀ name key txt,
      (name, key) ∈ exported_parameters →
      conf_param (conf (self s)) key = Ok (VStr txt) →
      environ (snd (post_execution_hook ext output s)) !! name = Some txt)
  ∧ (∀ n, n ∉ map fst exported_parameters → n ≠ "HTTP_PROXY"%string →
          environ (snd (post_execution_hook ext output s)) !! n
          = environ s !! n).
Proof.
  intros Hall.
  set (s1 := with_environ (delete "HTTP_PROXY") (with_cat None s)).
  destruct (export_all_environ exported_parameters s1 exported_names_NoDup Hall)
    as (Hok & Hget & Hother).
  assert (Henv : ∀ n, n ≠ "HTTP_PROXY"%string →
            environ (snd (post_execution_hook ext output s)) !! n
            = environ (snd (export_all exported_parameters s1)) !! n).
  { intros n Hn. unfold post_execution_hook. rewrite hook_state.
    rewrite restore_other_variables by done.
    unfold post_execution_body, unset_http_proxy_env. rewrite !bind_modify.
    fold s1.
    rewrite (bind_ok _ _ s1 (snd (export_all exported_parameters s1)) tt)
      by (rewrite <- Hok; apply surjective_pairing).
    by rewrite after_export_keeps_environ. }
  split.
  - intros name key txt Hin Hkey.
    rewrite Henv by (by eapply exported_names_not_proxy).
    by apply (Hget name key).
  - intros n Hn Hproxy. rewrite Henv, Hother by done.
    subst s1. cbn [environ with_environ with_cat].
    by rewrite lookup_delete_ne.
Qed.

(** X4. When each of the seven parameters of the hand-off holds a string
    without an embedded NUL, then after the post-execution hook, whether
    it returned or raised, the environment variable each is copied to
    holds that string, and every other variable but HTTP_PROXY is what it
    was. *)
Theorem post_hook_exports_parameters (ext : Externals) (output : dict)
  (s : State) :
  let out := post_execution_hook ext output s in
  Forall (exportable (conf (self s))) exported_parameters →
  (∀ name key txt,
      (name, key) ∈ exported_parameters →
      conf_param (conf (self s)) key = Ok (VStr txt) →
      environ (snd out) !! name = Some txt)
  ∧ (∀ n, n ∉ map fst exported_parameters → n ≠ "HTTP_PROXY"%string →
          environ (snd out) !! n = environ s !! n).
Proof. intros out Hall. by apply post_hook_environ. Qed.

Lemma post_hook_exports_parameters_witness :
  let ext := Sample.ext (Sample.response 404 (Raise (OtherError "JSONDecodeError")))
               (Ok Sample.items_catalog) in
  let out := post_execution_hook ext Sample.output Sample.after_failed_lookup in
  environ (snd out) !! "AWS_REGION" = Some "RegionOne"%string
  ∧ environ (snd out) !! "HOME" = environ Sample.after_failed_lookup !! "HOME".
Proof.
  intros ext out.
  destruct (post_hook_exports_parameters ext Sample.output
              Sample.after_failed_lookup (proj1 sample_handoff_ready))
    as [Hset Hother].
  split.
  - apply (Hset "AWS_REGION"%string "STAGEOUT_AWS_REGION"%string).
    + in_table.
    + by vm_compute.
  - apply Hother; [| discriminate].
    by apply (bool_decide_unpack _); vm_compute.
Defined.

(** X5. After the hand-off the STAC reader takes the pathway with keys:
    with non-empty access and secret keys among the parameters,
    [CustomStacIO()] in the environment the hook leaves asks for a client
    with exactly the stage-out endpoint, region and keys. Whether
    [create_client] accepts them is its own matter. *)
Theorem reader_uses_exported_credentials (ext : Externals) (output : dict)
  (s : State) (endpoint key secret region : string) :
  Forall (exportable (conf (self s))) exported_parameters →
  conf_param (conf (self s)) "STAGEOUT_AWS_SERVICEURL" = Ok (VStr endpoint) →
  conf_param (conf (self s)) "STAGEOUT_AWS_ACCESS_KEY_ID" = Ok (VStr key) →
  conf_param (conf (self s)) "STAGEOUT_AWS_SECRET_ACCESS_KEY" = Ok (VStr secret) →
  conf_param (conf (self s)) "STAGEOUT_AWS_REGION" = Ok (VStr region) →
  key ≠ ""%string → secret ≠ ""%string →
  CustomStacIO.__init__ (environ (snd (post_execution_hook ext output s)))
  = Ok {| CustomStacIO.own_access_point := Some VNone;
          CustomStacIO.s3_client :=
            CustomStacIO.WithKeys (Some region) (Some endpoint)
                                  (Some key) (Some secret) |}.
Proof.
  intros Hall He Hk Hs Hr Hkey Hsecret.
  assert (Hin : ∀ name param,
            (name, param) ∈ exported_parameters →
            ∀ txt, conf_param (conf (self s)) param = Ok (VStr txt) →
            environ (snd (post_execution_hook ext output s)) !! name = Some txt).
  { intros name param Hin txt Hp.
    by apply (proj1 (post_hook_environ ext output s Hall) name param). }
  unfold CustomStacIO.__init__, CustomStacIO.environ_item,
    CustomStacIO.with_keys.
  rewrite (Hin "AWS_ACCESS_KEY_ID" "STAGEOUT_AWS_ACCESS_KEY_ID"
             ltac:(in_table) key Hk).
  rewrite (Hin "AWS_SECRET_ACCESS_KEY" "STAGEOUT_AWS_SECRET_ACCESS_KEY"
             ltac:(in_table) secret Hs).
  rewrite (Hin "AWS_REGION" "STAGEOUT_AWS_REGION" ltac:(in_table) region Hr).
  rewrite (Hin "AWS_S3_ENDPOINT" "STAGEOUT_AWS_SERVICEURL"
             ltac:(in_table) endpoint He).
  cbn [rbind]. unfold str_truthy.
  destruct (String.eqb_spec key ""); [done |].
  destruct (String.eqb_spec secret ""); [done |]. done.
Qed.

Lemma reader_uses_exported_credentials_witness :
  let ext := Sample.ext (Sample.response 404 (Raise (OtherError "JSONDecodeError")))
               (Ok Sample.items_catalog) in
  CustomStacIO.__init__
    (environ (snd (post_execution_hook ext Sample.output
                     Sample.after_failed_lookup)))
  = Ok {| CustomStacIO.own_access_point := Some VNone;
          CustomStacIO.s3_client :=
            CustomStacIO.WithKeys (Some "RegionOne"%string)
              (Some "http://s3-service.zoo.svc.cluster.local:9000"%string)
              (Some "minio-admin"%string)
              (Some "minio-secret-password"%string) |}.
Proof.
  intros ext.
  refine (reader_uses_exported_credentials ext Sample.output
            Sample.after_failed_lookup _ _ _ _
            (proj1 sample_handoff_ready) _ _ _ _ _ _);
    first [by vm_compute | discriminate].
Defined.
(** ** A hand-off that cannot be completed *)

Lemma conf_param_raises (c : Conf) (key : string) (e : exn) :
  conf_param c key = Raise e → ∃ k, e = KeyError k.
Proof.
  unfold conf_param. destruct (additional_parameters c) as [p|].
  - destruct (p !! key); [done |]. intros [= <-]. by eexists.
  - intros [= <-]. by eexists.
Qed.

Lemma export_error_None (c : Conf) (name key : string) :
  export_error (conf_param c key) = None ↔ exportable c (name, key).
Proof.
  unfold export_error, exportable. cbn [snd]. split.
  - destruct (conf_param c key) as [[| | |txt| |]|e]; try done.
    destruct (has_nul txt) eqn:Hnul; [done |]. by exists txt.
  - intros (txt & -> & Hnul). by rewrite Hnul.
Qed.

(** The three ways a parameter stops the hand-off. *)
Lemma export_error_kind (c : Conf) (key : string) (e : exn) :
  export_error (conf_param c key) = Some e →
  (e = TypeError ∧ ∃ v, conf_param c key = Ok v ∧ ∀ txt, v ≠ VStr txt)
  ∨ (e = ValueError
     ∧ ∃ txt, conf_param c key = Ok (VStr txt) ∧ has_nul txt = true)
  ∨ (∃ k, e = KeyError k ∧ conf_param c key = Raise e).
Proof.
  unfold export_error.
  destruct (conf_param c key) as [v|e'] eqn:Hkey.
  - destruct v as [| | |txt| |];
      try (intros [= <-]; left; split; [done |]; eexists; by split).
    destruct (has_nul txt) eqn:Hnul; [| done].
    intros [= <-]. right. left. split; [done |]. by exists txt.
  - intros [= <-]. right. right.
    destruct (conf_param_raises c key e' Hkey) as [k ->]. by exists k.
Qed.

Lemma export_step_raises {B} (name key : string) (e : exn) (k : M B)
  (s : State) :
  export_error (conf_param (conf (self s)) key) = Some e →
  (do v <- param_get key in exec environ_set name v in k) s = (Raise e, s).
Proof.
  unfold export_error, bind, param_get, environ_set, raise.
  destruct (conf_param (conf (self s)) key) as [[| | |txt| |]|e'];
    try (by intros [= <-]).
  destruct (has_nul txt); [by intros [= <-] | done].
Qed.

(** The hand-off copies the parameters in order and stops at the first it
    cannot copy, with what that one raises. *)
Lemma export_all_stops (table before : list (string * string))
  (name key : string) (e : exn) :
  ∀ s,
    first_export_failure (conf (self s)) table before name key e →
    export_all table s = (Raise e, snd (export_all before s))
    ∧ fst (export_all before s) = Ok tt.
Proof.
  revert table. induction before as [|[n k] before IH];
    intros table s ([after ->] & Hbefore & Herr).
  - cbn [app export_all ret fst snd]. split; [| done].
    by apply (export_step_raises name key e).
  - apply Forall_cons in Hbefore as [(txt & Hk & Hnul) Hbefore].
    cbn [snd] in Hk. cbn [app export_all].
    rewrite !(bind_param_get _ _ _ _ Hk). unfold environ_set.
    rewrite Hnul, !bind_modify.
    apply (IH _ (with_environ (insert n txt) s)).
    split; [by exists after |]. by split.
Qed.

Lemma first_export_failure_exists (c : Conf) (table : list (string * string)) :
  Exists (fun nk => ¬ exportable c nk) table →
  ∃ before name key e, first_export_failure c table before name key e.
Proof.
  induction table as [|[n k] table IH]; intros Hbad.
  - by apply Exists_nil in Hbad.
  - destruct (export_error (conf_param c k)) as [e|] eqn:Herr.
    + exists [], n, k, e. split; [by exists table |]. by split.
    + apply (export_error_None c n k) in Herr.
      apply Exists_cons in Hbad as [Hhead|Htail]; [done |].
      destruct (IH Htail) as (before & name & key & e & [after ->] & Hb & He).
      exists ((n, k) :: before), name, key, e.
      split; [by exists after |]. split; [by constructor | done].
Qed.

Lemma first_export_failure_before (c : Conf)
  (before : list (string * string)) (name key : string) (e : exn) :
  first_export_failure c exported_parameters before name key e →
  NoDup (map fst before)
  ∧ (name, key) ∈ exported_parameters
  ∧ ∀ n, n ∈ map fst before → n ≠ "HTTP_PROXY"%string.
Proof.
  intros ([after Htable] & _ & _).
  pose proof exported_names_NoDup as Hnd. rewrite Htable in Hnd.
  rewrite map_app in Hnd. apply NoDup_app in Hnd as (Hnd & _ & _).
  split; [done |]. split.
  - rewrite Htable. apply elem_of_app. right. apply list_elem_of_here.
  - intros n Hn. apply list_elem_of_fmap in Hn as ([n' k] & -> & Hin).
    apply (exported_names_not_proxy n' k). rewrite Htable.
    apply elem_of_app. by left.
Qed.

(** The hook when the hand-off stops at a parameter. *)
Lemma post_hook_handoff_raises (ext : Externals) (output : dict)
  (s : State) (before : list (string * string)) (name key : string)
  (e : exn) :
  let out := post_execution_hook ext output s in
  first_export_failure (conf (self s)) exported_parameters before name key e →
  fst out = Raise e
  ∧ feature_collection (self (snd out)) = feature_collection (self s)
  ∧ http_log (snd out) = http_log s
  ∧ cat (snd out) = None
  ∧ (∀ n k txt,
        (n, k) ∈ before →
        conf_param (conf (self s)) k = Ok (VStr txt) →
        environ (snd out) !! n = Some txt)
  ∧ (∀ n, n ∉ map fst before → n ≠ "HTTP_PROXY"%string →
          environ (snd out) !! n = environ s !! n).
Proof.
  intros out Hfail.
  set (s1 := with_environ (delete "HTTP_PROXY") (with_cat None s)).
  destruct (first_export_failure_before _ _ _ _ _ Hfail) as (Hnd & _ & Hproxy).
  destruct (export_all_stops exported_parameters before name key e s1 Hfail)
    as [Hstop Hok].
  destruct (export_all_environ before s1 Hnd (proj1 (proj2 Hfail)))
    as (_ & Hget & Hother).
  assert (Hbody : post_execution_body ext output s
                  = (Raise e, snd (export_all before s1))).
  { unfold post_execution_body, unset_http_proxy_env. rewrite !bind_modify.
    apply bind_raise. exact Hstop. }
  destruct (hook_wrapper _ _ _ _ Hbody) as (s' & Hhook & Hself & Hlog & Hcat & _).
  assert (Henv : ∀ n, n ≠ "HTTP_PROXY"%string →
            environ (snd out) !! n
            = environ (snd (export_all before s1)) !! n).
  { intros n Hn. subst out. unfold post_execution_hook. rewrite hook_state.
    rewrite restore_other_variables by done. by rewrite Hbody. }
  subst out. unfold post_execution_hook in *. rewrite Hhook in *.
  cbn [fst snd] in *. rewrite Hself, Hlog, Hcat.
  rewrite (keeps_export_all self before) by (by intros).
  rewrite (keeps_export_all http_log before) by (by intros).
  rewrite (keeps_export_all cat before) by (by intros).
  split; [done |]. split; [done |]. split; [done |]. split; [done |].
  split.
  - intros n k txt Hin Hk.
    rewrite Henv.
    + by apply (Hget n k).
    + apply Hproxy. apply list_elem_of_fmap. by exists (n, k).
  - intros n Hn Hne. rewrite Henv, Hother by done.
    subst s1. cbn [environ with_environ with_cat]. by rewrite lookup_delete_ne.
Qed.

(** X6. The hand-off copies its seven parameters in order. When the first
    it cannot copy is missing, or does not hold a string (a stage-out
    variable left at its default [None], say), or holds a string with an
    embedded NUL, the post-execution hook raises there, a [KeyError], a
    [TypeError] or a [ValueError] respectively, before it reads the
    catalog: [feature_collection] is what it was, no HTTP call is made,
    the parameters before that one have been exported, and every other
    variable but HTTP_PROXY is what it was. *)
Theorem post_hook_handoff_failure (ext : Externals) (output : dict)
  (s : State) (before : list (string * string)) (name key : string)
  (e : exn) :
  let out := post_execution_hook ext output s in
  first_export_failure (conf (self s)) exported_parameters before name key e →
  fst out = Raise e
  ∧ ((e = TypeError
      ∧ ∃ v, conf_param (conf (self s)) key = Ok v ∧ ∀ txt, v ≠ VStr txt)
     ∨ (e = ValueError
        ∧ ∃ txt, conf_param (conf (self s)) key = Ok (VStr txt)
                 ∧ has_nul txt = true)
     ∨ (∃ k, e = KeyError k ∧ conf_param (conf (self s)) key = Raise e))
  ∧ feature_collection (self (snd out)) = feature_collection (self s)
  ∧ http_log (snd out) = http_log s
  ∧ cat (snd out) = None
  ∧ (∀ n k txt,
        (n, k) ∈ before →
        conf_param (conf (self s)) k = Ok (VStr txt) →
        environ (snd out) !! n = Some txt)
  ∧ (∀ n, n ∉ map fst before → n ≠ "HTTP_PROXY"%string →
          environ (snd out) !! n = environ s !! n).
Proof.
  intros out Hfail.
  destruct (post_hook_handoff_raises ext output s before name key e Hfail)
    as (H1 & H2 & H3 & H4 & H5 & H6).
  split; [done |].
  split; [apply export_error_kind; apply Hfail |].
  by repeat split.
Qed.

Lemma post_hook_handoff_failure_witness :
  let s := constructed Sample.conf Sample.inputs ∅ in
  let out := post_execution_hook
               (Sample.ext (Sample.response 200 (Ok Sample.details))
                           (Ok Sample.items_catalog))
               Sample.output s in
  fst out = Raise TypeError
  ∧ feature_collection (self (snd out)) = None
  ∧ http_log (snd out) = []
  ∧ environ (snd out) !! "AWS_REGION" = Some "RegionOne"%string
  ∧ environ (snd out) !! "STAGEOUT_PULSAR_URL" = None.
Proof.
  intros s out.
  destruct (post_hook_handoff_failure
              (Sample.ext (Sample.response 200 (Ok Sample.details))
                          (Ok Sample.items_catalog))
              Sample.output s
              [("AWS_S3_ENDPOINT", "STAGEOUT_AWS_SERVICEURL");
               ("AWS_ACCESS_KEY_ID", "STAGEOUT_AWS_ACCESS_KEY_ID");
               ("AWS_SECRET_ACCESS_KEY", "STAGEOUT_AWS_SECRET_ACCESS_KEY");
               ("AWS_REGION", "STAGEOUT_AWS_REGION")]%string
              "STAGEOUT_PULSAR_URL" "STAGEOUT_PULSAR_URL" TypeError)
    as (H1 & _ & H3 & H4 & _ & H6 & H7).
  - split; [by eexists |]. split; [| by vm_compute].
    repeat first [apply Forall_nil | apply Forall_cons; split];
      first [exact I | solve_parameter].
  - split; [exact H1 |]. split; [exact H3 |]. split; [exact H4 |]. split.
    + apply (H6 "AWS_REGION"%string "STAGEOUT_AWS_REGION"%string).
      * in_table.
      * by vm_compute.
    + rewrite H7; [done | | discriminate].
      by apply (bool_decide_unpack _); vm_compute.
Defined.

(** A credential with an embedded NUL, as a workspace answer may hold it,
    is stored by the pre-execution hook and stops the hand-off of the
    post-execution hook with a [ValueError]: AWS_REGION is not set, the
    variables before it are. *)
Lemma nul_credential_stops_handoff :
  let region := String (ascii_of_N 0) "eu" in
  let details :=
    VDict [("storage"%string,
            VDict [("credentials"%string,
                    VDict (dict_set Sample.credentials "region"
                                    (VStr region)))])] in
  let ext := Sample.ext (Sample.response 200 (Ok details))
               (Ok Sample.items_catalog) in
  let pre := pre_execution_hook ext
               (constructed Sample.conf Sample.inputs Sample.env) in
  let out := post_execution_hook ext Sample.output (snd pre) in
  fst pre = Ok tt
  ∧ conf_param (conf (self (snd pre))) "STAGEOUT_AWS_REGION" = Ok (VStr region)
  ∧ fst out = Raise ValueError
  ∧ environ (snd out) !! "AWS_SECRET_ACCESS_KEY" = Some "SK"%string
  ∧ environ (snd out) !! "AWS_REGION" = None
  ∧ feature_collection (self (snd out)) = None.
Proof. vm_compute. by repeat split. Qed.

(** ** The pre-execution hook off the main path *)

Lemma pre_body_reaches_lookup (ext : Externals) (s : State) (ap : value) :
  load_incluster_config ext = Ok tt →
  lookup_access_point ext (workspace_name (self s)) = Ok ap →
  token_decodes ext (self s) →
  ∃ s1,
    pre_execution_body ext s
    = (exec lookup_workspace ext in
       do usid <- gets (fun s => section_get (lenv (conf (self s))) "usid" "") in
       exec param_set "collection_id" (VStr usid) in
       exec param_set "process" (VStr "processing-results") in
       exec param_set "STAGEOUT_WORKSPACE" (VStr (workspace_name (self s))) in
       param_set "STAGEOUT_ACCESS_POINT" ap) s1
    ∧ conf (self s1) = conf (self s)
    ∧ use_workspace (self s1) = use_workspace (self s)
    ∧ http_log s1 = http_log s
    ∧ (str_truthy (ades_rx_token (self s)) = false →
       username (self s1) = username (self s)).
Proof.
  intros Hload Hap Htok.
  destruct (str_truthy (ades_rx_token (self s))) eqn:Htruthy.
  - destruct Htok as [Htok|[claims Hjwt]]; [congruence |].
    eexists. split.
    { by apply (pre_body_prefix ext s ap claims). }
    by repeat split.
  - exists (with_environ (delete "HTTP_PROXY") s). split.
    { unfold pre_execution_body, unset_http_proxy_env.
      rewrite bind_modify, (bind_lift_ok _ _ _ _ Hload), bind_gets. proj.
      rewrite (bind_lift_ok _ _ _ _ Hap), bind_gets. proj.
      rewrite Htruthy. by rewrite bind_ret. }
    by repeat split.
Qed.

Lemma lookup_workspace_without_username (ext : Externals) (s : State) :
  use_workspace (self s) = true →
  username (self s) = None →
  lookup_workspace ext s = (Raise (AttributeError "username"), s).
Proof.
  intros Huse Hname. unfold lookup_workspace.
  rewrite bind_gets, Huse, bind_gets.
  unfold bind, get_username. by rewrite Hname.
Qed.

Lemma lookup_workspace_not_configured (ext : Externals) (s : State) :
  use_workspace (self s) = false → lookup_workspace ext s = (Ok tt, s).
Proof. intros Huse. unfold lookup_workspace. by rewrite bind_gets, Huse. Qed.

(** X7. With the workspace configured and no token in [auth_env], the
    attribute [username] is never assigned: the pre-execution hook raises
    [AttributeError] before any HTTP call and writes nothing into
    [conf]. *)
Theorem pre_hook_without_token (ext : Externals) (s : State) (ap : value) :
  let out := pre_execution_hook ext s in
  load_incluster_config ext = Ok tt →
  lookup_access_point ext (workspace_name (self s)) = Ok ap →
  str_truthy (ades_rx_token (self s)) = false →
  use_workspace (self s) = true →
  username (self s) = None →
  fst out = Raise (AttributeError "username")
  ∧ http_log (snd out) = http_log s
  ∧ conf (self (snd out)) = conf (self s).
Proof.
  intros out Hload Hap Htok Huse Hname.
  destruct (pre_body_reaches_lookup ext s ap Hload Hap (or_introl Htok))
    as (s1 & Hbody & Hconf & Huse1 & Hlog & Hname1).
  rewrite (bind_raise _ _ s1 s1 (AttributeError "username")) in Hbody.
  2: { apply lookup_workspace_without_username; [congruence |].
       rewrite Hname1; done. }
  destruct (hook_wrapper _ _ _ _ Hbody) as (s' & Hhook & Hself & Hlog' & _).
  subst out. unfold pre_execution_hook. rewrite Hhook. cbn [fst snd].
  rewrite Hself, Hlog'. by repeat split.
Qed.

Lemma pre_hook_without_token_witness :
  let c := {| eoepca := eoepca Sample.conf; auth_env := None;
              lenv := lenv Sample.conf; additional_parameters := None |} in
  let s := constructed c Sample.inputs Sample.env in
  let out := pre_execution_hook
               (Sample.ext (Sample.response 200 (Ok Sample.details))
                           (Raise FileNotFoundError)) s in
  fst out = Raise (AttributeError "username")
  ∧ http_log (snd out) = http_log s
  ∧ conf (self (snd out)) = conf (self s).
Proof.
  intros c s out.
  apply (pre_hook_without_token
           (Sample.ext (Sample.response 200 (Ok Sample.details))
                       (Raise FileNotFoundError)) s (VStr "bucket-alice"));
    by vm_compute.
Defined.

(** X8. Without a configured workspace the pre-execution hook makes no
    HTTP call: provided the cluster lookup succeeds and the token, if any,
    decodes, it returns, and the only parameters it writes are the
    collection id (the usid of [lenv], or the empty string), the process
    name, the workspace name and the access point. *)
Theorem pre_hook_without_workspace (ext : Externals) (s : State)
  (p : gmap string value) (ap : value) :
  let out := pre_execution_hook ext s in
  additional_parameters (conf (self s)) = Some p →
  load_incluster_config ext = Ok tt →
  lookup_access_point ext (workspace_name (self s)) = Ok ap →
  token_decodes ext (self s) →
  use_workspace (self s) = false →
  fst out = Ok tt
  ∧ http_log (snd out) = http_log s
  ∧ use_workspace (self (snd out)) = false
  ∧ additional_parameters (conf (self (snd out)))
    = Some (<["STAGEOUT_ACCESS_POINT" := ap]>
              (<["STAGEOUT_WORKSPACE" := VStr (workspace_name (self s))]>
                 (<["process" := VStr "processing-results"]>
                    (<["collection_id" :=
                         VStr (section_get (lenv (conf (self s))) "usid" "")]>
                       p)))).
Proof.
  intros out Hp Hload Hap Htok Huse.
  destruct (pre_body_reaches_lookup ext s ap Hload Hap Htok)
    as (s1 & Hbody & Hconf & Huse1 & Hlog & _).
  rewrite (bind_ok _ _ s1 s1 tt) in Hbody
    by (apply lookup_workspace_not_configured; congruence).
  rewrite bind_gets, Hconf in Hbody.
  rewrite (pre_body_tail _ p) in Hbody by congruence.
  destruct (hook_wrapper _ _ _ _ Hbody) as (s' & Hhook & Hself & Hlog' & _).
  subst out. unfold pre_execution_hook. rewrite Hhook. cbn [fst snd].
  rewrite Hself, Hlog'. proj.
  split; [done |]. split; [done |]. split; [congruence | done].
Qed.

Lemma pre_hook_without_workspace_witness :
  let c := {| eoepca := None; auth_env := auth_env Sample.conf;
              lenv := None; additional_parameters := None |} in
  let s := constructed c Sample.inputs Sample.env in
  let out := pre_execution_hook
               (Sample.ext (Sample.response 200 (Ok Sample.details))
                           (Raise FileNotFoundError)) s in
  fst out = Ok tt
  ∧ http_log (snd out) = []
  ∧ conf_param (conf (self (snd out))) "collection_id" = Ok (VStr "").
Proof.
  intros c s out.
  destruct (pre_hook_without_workspace
              (Sample.ext (Sample.response 200 (Ok Sample.details))
                          (Raise FileNotFoundError)) s _ (VStr "bucket-alice")
              eq_refl eq_refl eq_refl
              (or_intror (ex_intro _ Sample.claims eq_refl)) eq_refl)
    as (Hr & Hlog & _ & Hp).
  split; [exact Hr |]. split; [exact Hlog |].
  unfold conf_param. subst out. rewrite Hp.
  rewrite !lookup_insert_ne by done. by rewrite lookup_insert_eq.
Defined.

Lemma use_workspace_details_raises (resp : Response) (e : exn) (s : State) :
  credentials_dict resp = Raise e →
  use_workspace_details resp s = (Raise e, s).
Proof.
  unfold credentials_dict, use_workspace_details. intros H.
  unfold bind at 1, lift. destruct (json resp) as [body|e1]; [| by injection H as ->].
  cbn [rbind] in H. unfold bind at 1.
  destruct (subscript body "storage") as [storage|e2]; [| by injection H as ->].
  cbn [rbind] in H. unfold bind at 1.
  destruct (subscript storage "credentials") as [creds|e3];
    [| by injection H as ->].
  cbn [rbind] in H. unfold bind at 1.
  destruct creds; try (by injection H as <-). done.
Qed.

(** X9. When the workspace-details GET answers with a good status but the
    body does not yield a credentials dictionary (no JSON, no storage or
    credentials entry, or credentials that are no dictionary), the
    pre-execution hook raises that exception, [use_workspace] stays true
    and no parameter is written. *)
Theorem pre_hook_malformed_details (ext : Externals) (s : State)
  (ap : value) (resp : Response) (e : exn) :
  let out := pre_execution_hook ext s in
  workspace_answers ext (self s) ap resp →
  ok resp = true →
  credentials_dict resp = Raise e →
  fst out = Raise e
  ∧ use_workspace (self (snd out)) = true
  ∧ conf (self (snd out)) = conf (self s).
Proof.
  intros out (Hload & Hap & Htok & Huse & claims & Hjwt & Hget) Hok Hcreds.
  pose proof (pre_body_prefix ext s ap claims Hload Hap Htok Hjwt) as Hbody.
  unfold lookup_workspace in Hbody.
  rewrite bind_assoc, bind_gets in Hbody. proj. rewrite Huse in Hbody.
  rewrite bind_assoc, bind_gets, bind_assoc in Hbody.
  rewrite (bind_get_username (get_user_name claims)) in Hbody by reflexivity.
  rewrite bind_assoc, bind_gets, bind_assoc, bind_gets, bind_assoc in Hbody.
  proj.
  rewrite (bind_http_ok _ _ _ _ _ Hget), Hok in Hbody.
  erewrite bind_raise in Hbody
    by (by apply use_workspace_details_raises).
  destruct (hook_wrapper _ _ _ _ Hbody) as (s' & Hhook & Hself & _).
  subst out. unfold pre_execution_hook. rewrite Hhook. cbn [fst snd].
  rewrite Hself. by repeat split.
Qed.

Lemma pre_hook_malformed_details_witness :
  let resp := Sample.response 200 (Ok (VDict [("status"%string, VStr "ok")])) in
  let s := constructed Sample.conf Sample.inputs Sample.env in
  let out := pre_execution_hook (Sample.ext resp (Raise FileNotFoundError)) s in
  fst out = Raise (KeyError "storage")
  ∧ use_workspace (self (snd out)) = true
  ∧ conf (self (snd out)) = conf (self s).
Proof.
  intros resp s out.
  exact (pre_hook_malformed_details
           (Sample.ext resp (Raise FileNotFoundError)) s (VStr "bucket-alice")
           resp (KeyError "storage")
           (sample_workspace_answers _ _) eq_refl eq_refl).
Defined.

(** ** The proxy variable when none was captured *)

(** X10. If [HTTP_PROXY] was absent, or empty, when the handler was
    constructed, it is absent after every hook, whatever the environment
    held when the hook started: the hook removes the variable and has
    nothing to put back. *)
Theorem hooks_leave_proxy_unset (ext : Externals) (output : dict) (s : State) :
  http_proxy_env (self s) = None ∨ http_proxy_env (self s) = Some ""%string →
  ∀ out,
    out = pre_execution_hook ext s ∨ out = post_execution_hook ext output s →
    environ (snd out) !! "HTTP_PROXY" = None.
Proof.
  intros Hcap out Hout.
  assert (Hbody : ∀ s1,
            proxy_cleared (http_proxy_env (self s)) (http_log s) s1 →
            environ (snd (restore_http_proxy_env s1)) !! "HTTP_PROXY" = None).
  { intros s1 (Hcap1 & Henv & _). unfold restore_http_proxy_env.
    rewrite Hcap1. by destruct Hcap as [-> | ->]. }
  destruct Hout as [-> | ->].
  - unfold pre_execution_hook. rewrite hook_state.
    by apply Hbody, proxy_cleared_pre_body.
  - unfold post_execution_hook. rewrite hook_state.
    by apply Hbody, proxy_cleared_post_body.
Qed.

Lemma hooks_leave_proxy_unset_witness :
  let h := __init__ Sample.conf Sample.inputs ∅ in
  let s := {| self := h; environ := Sample.env; class_access_point := None;
              http_log := []; cat := None |} in
  environ s !! "HTTP_PROXY" = Some "http://proxy:8080"%string
  ∧ environ (snd (pre_execution_hook
                    (Sample.ext (Sample.response 200 (Ok Sample.details))
                                (Raise FileNotFoundError)) s))
      !! "HTTP_PROXY" = None.
Proof.
  intros h s. split; [by vm_compute |].
  refine (hooks_leave_proxy_unset
            (Sample.ext (Sample.response 200 (Ok Sample.details))
                        (Raise FileNotFoundError))
            Sample.output s _ _ (or_introl eq_refl)).
  left. by vm_compute.
Defined.

(** ** The constructor of [CustomStacIO] *)

(** X11. [CustomStacIO()] reads [AWS_ACCESS_KEY_ID] with a subscript: when
    the variable is absent the constructor raises [KeyError], and so it
    does when the key is non-empty and [AWS_SECRET_ACCESS_KEY] is absent.
    The client without explicit credentials is built only when one of the
    two variables is set to the empty string; with both non-empty the
    client takes region, endpoint and keys from the environment. *)
Theorem CustomStacIO_init_pathways (env : gmap string string) :
  (env !! "AWS_ACCESS_KEY_ID" = None →
   CustomStacIO.__init__ env = Raise (KeyError "AWS_ACCESS_KEY_ID"))
  ∧ (env !! "AWS_ACCESS_KEY_ID" = Some ""%string →
     CustomStacIO.__init__ env
     = Ok {| CustomStacIO.own_access_point := Some VNone;
             CustomStacIO.s3_client := CustomStacIO.ServiceAccount |})
  ∧ (∀ key, env !! "AWS_ACCESS_KEY_ID" = Some key → key ≠ ""%string →
       (env !! "AWS_SECRET_ACCESS_KEY" = None →
        CustomStacIO.__init__ env = Raise (KeyError "AWS_SECRET_ACCESS_KEY"))
       ∧ (env !! "AWS_SECRET_ACCESS_KEY" = Some ""%string →
          CustomStacIO.__init__ env
          = Ok {| CustomStacIO.own_access_point := Some VNone;
                  CustomStacIO.s3_client := CustomStacIO.ServiceAccount |})
       ∧ (∀ secret, env !! "AWS_SECRET_ACCESS_KEY" = Some secret →
            secret ≠ ""%string →
            CustomStacIO.__init__ env
            = Ok {| CustomStacIO.own_access_point := Some VNone;
                    CustomStacIO.s3_client :=
                      CustomStacIO.WithKeys (env !! "AWS_REGION")
                        (env !! "AWS_S3_ENDPOINT") (Some key) (Some secret) |})).
Proof.
  unfold CustomStacIO.__init__, CustomStacIO.environ_item,
    CustomStacIO.with_keys.
  split; [by intros -> |]. split; [by intros -> |].
  intros key -> Hkey. cbn [rbind]. unfold str_truthy.
  destruct (String.eqb_spec key ""); [done |]. cbn [negb].
  split; [by intros -> |]. split; [by intros -> |].
  intros secret -> Hsecret. cbn [rbind].
  by destruct (String.eqb_spec secret "").
Qed.

Lemma CustomStacIO_init_pathways_witness :
  CustomStacIO.__init__ (<["AWS_REGION" := "eu-west-2"]> ∅)
  = Raise (KeyError "AWS_ACCESS_KEY_ID")
  ∧ CustomStacIO.__init__ (<["AWS_ACCESS_KEY_ID" := ""]> ∅)
    = Ok {| CustomStacIO.own_access_point := Some VNone;
            CustomStacIO.s3_client := CustomStacIO.ServiceAccount |}.
Proof.
  split.
  - apply (proj1 (CustomStacIO_init_pathways _)). by vm_compute.
  - apply (proj1 (proj2 (CustomStacIO_init_pathways _))). by vm_compute.
Defined.

(** ** Catalog location *)

Lemma prefix_append (p s : string) : String.prefix p (p +:+ s) = true.
Proof.
  induction p as [|c p IH]; simpl; [by destruct s |].
  destruct (Ascii.ascii_dec c c); [exact IH | done].
Qed.

(** X12. The location handed to the STAC reader always starts with the
    object-storage scheme, a location that already does is passed on as it
    is, and normalising twice changes nothing. *)
Theorem s3_path_of_normalises (txt : string) :
  String.prefix "s3://" (s3_path_of txt) = true
  ∧ (String.prefix "s3://" txt = true → s3_path_of txt = txt)
  ∧ s3_path_of (s3_path_of txt) = s3_path_of txt.
Proof.
  assert (H1 : String.prefix "s3://" (s3_path_of txt) = true).
  { unfold s3_path_of. destruct (String.prefix "s3://" txt) eqn:Hp; [done |].
    apply prefix_append. }
  split; [exact H1 |]. split.
  - intros Hp. unfold s3_path_of. by rewrite Hp.
  - unfold s3_path_of at 1. by rewrite H1.
Qed.

Lemma s3_path_of_normalises_witness :
  s3_path_of "s3://ws-alice/run-1/catalog.json" = "s3://ws-alice/run-1/catalog.json"%string.
Proof.
  apply (proj1 (proj2 (s3_path_of_normalises _))). reflexivity.
Defined.

(** ** [init_config_defaults] *)

(** X13. [init_config_defaults] sets each of its thirteen parameters to the
    value of the environment variable of the same name, or to the built-in
    default, whatever the configuration held for it before, and leaves
    every other entry of [additional_parameters] as it was (none, when the
    section was missing). *)
Theorem init_config_defaults_overrides (env : gmap string string) (c : Conf)
  (key : string) :
  (∀ dflt, In (key, dflt) config_defaults →
           conf_param (init_config_defaults env c) key
           = Ok (environ_get env key dflt))
  ∧ (key ∉ map fst config_defaults →
     default ∅ (additional_parameters (init_config_defaults env c)) !! key
     = default ∅ (additional_parameters c) !! key).
Proof.
  split.
  - intros dflt Hin. unfold conf_param, init_config_defaults. proj.
    by rewrite (install_defaults_lookup _ _ _ _ dflt config_defaults_NoDup Hin).
  - intros Hnot. unfold init_config_defaults. proj.
    cbn [default from_option id]. by apply install_defaults_other.
Qed.

Lemma init_config_defaults_overrides_witness :
  let c := {| eoepca := None; auth_env := None; lenv := None;
              additional_parameters :=
                Some (<["STAGEOUT_OUTPUT" := VStr "mine"]> ∅) |} in
  conf_param (init_config_defaults ∅ c) "STAGEOUT_OUTPUT" = Ok (VStr "eoepca").
Proof.
  intros c.
  rewrite (proj1 (init_config_defaults_overrides ∅ c "STAGEOUT_OUTPUT")
             (VStr "eoepca")).
  - by vm_compute.
  - unfold config_defaults. simpl. tauto.
Defined.

(** ** Registration with the workspace *)

Lemma register_run (ext : Externals) (collection : Stac.OutputCollection)
  (d : dict) (s : State) (user : value) (r1 : Response) :
  let ws := {| ws_url := workspace_url (self s);
               ws_prefix := workspace_prefix (self s); ws_user := user |} in
  let token := ades_rx_token (self s) in
  username (self s) = Some user →
  requests_post ext (PostRegisterJson ws token d) = Ok r1 →
  let out := register ext collection d s in
  self (snd out) = self s
  ∧ cat (snd out) = cat s
  ∧ match Stac.get_self_href collection with
    | Raise e =>
        fst out = Raise e
        ∧ map call (http_log (snd out))
          = (map call (http_log s) ++ [PostRegisterJson ws token d])%list
    | Ok self_href =>
        let body := [("type"%string, VStr "stac-item");
                     ("url"%string, self_href)] in
        fst out = match requests_post ext (PostRegister ws token body) with
                  | Ok _ => Ok tt
                  | Raise e => Raise e
                  end
        ∧ map call (http_log (snd out))
          = (map call (http_log s)
             ++ [PostRegisterJson ws token d; PostRegister ws token body])%list
    end.
Proof.
  intros ws token Hname Hpost out.
  assert (Hstart :
            register ext collection d s
            = bind (lift (Stac.get_self_href collection))
                (fun self_href =>
                   do r' <- http (requests_post ext)
                              (PostRegister ws token
                                 [("type"%string, VStr "stac-item");
                                  ("url"%string, self_href)]) in
                   ret tt)
                (with_http_log
                   (fun l => (l ++ [{| call := PostRegisterJson ws token d;
                                       proxy_seen := environ s !! "HTTP_PROXY" |}])%list)
                   s)).
  { unfold register.
    rewrite bind_gets, (bind_get_username user) by done.
    rewrite !bind_gets. fold ws token.
    by rewrite (bind_http_ok _ _ _ _ _ Hpost). }
  subst out. rewrite Hstart.
  destruct (Stac.get_self_href collection) as [href|e].
  - rewrite (bind_lift_ok _ href) by done.
    unfold bind, http, ret.
    destruct (requests_post ext (PostRegister ws token _)) as [r2|e2];
      cbn [fst snd]; proj;
      (split; [done |]); (split; [done |]); (split; [done |]);
      by rewrite !map_app, <- app_assoc.
  - unfold bind, lift. cbn [fst snd]. proj.
    split; [done |]. split; [done |]. split; [done |].
    by rewrite map_app.
Qed.

Lemma post_hook_registers (ext : Externals) (output : dict) (s : State)
  (uri collection_id user : value) (collection : Stac.OutputCollection)
  (c' : option Stac.Catalog) (r1 : Response) :
  let out := post_execution_hook ext output s in
  let ws := {| ws_url := workspace_url (self s);
               ws_prefix := workspace_prefix (self s); ws_user := user |} in
  let token := ades_rx_token (self s) in
  let d := dict_set (Stac.to_dict collection) "id" collection_id in
  handoff_ready s output uri collection_id →
  (∀ s2, self s2 = self s → cat s2 = catalog_at ext uri →
         ∃ s3, consolidate ext collection_id s2 = (Ok (Some collection), s3)
               ∧ self s3 = self s2 ∧ http_log s3 = http_log s2
               ∧ cat s3 = c') →
  use_workspace (self s) = true →
  username (self s) = Some user →
  requests_post ext (PostRegisterJson ws token d) = Ok r1 →
  match Stac.get_self_href collection with
  | Raise e =>
      fst out = Raise e
      ∧ map call (http_log (snd out))
        = (map call (http_log s) ++ [PostRegisterJson ws token d])%list
  | Ok self_href =>
      let body := [("type"%string, VStr "stac-item"); ("url"%string, self_href)] in
      fst out = match requests_post ext (PostRegister ws token body) with
                | Ok _ => Ok tt
                | Raise e => Raise e
                end
      ∧ map call (http_log (snd out))
        = (map call (http_log s)
           ++ [PostRegisterJson ws token d; PostRegister ws token body])%list
  end.
Proof.
  intros out ws token d Hready Hcons Huse Hname Hpost.
  destruct (post_body_prefix ext output s uri collection_id Hready)
    as (s2 & Hbody & Hself2 & Hlog2 & Hcat2).
  destruct (Hcons s2 Hself2 Hcat2) as (s3 & Hrun & Hself3 & Hlog3 & Hcat3).
  rewrite (bind_ok _ _ _ _ _ Hrun) in Hbody.
  unfold publish in Hbody. rewrite bind_modify, bind_gets in Hbody.
  proj. rewrite Hself3, Hself2, Huse in Hbody.
  set (s4 := with_self _ s3) in Hbody.
  assert (Hself4 : ∀ f : Handler → string, 
            (∀ txt h, f (with_feature_collection txt h) = f h) →
            f (self s4) = f (self s)).
  { intros f Hf. subst s4. proj. by rewrite Hf, Hself3, Hself2. }
  pose proof (register_run ext collection d s4 user r1) as Hreg.
  cbn zeta in Hreg.
  rewrite (Hself4 workspace_url), (Hself4 workspace_prefix),
    (Hself4 ades_rx_token) in Hreg by done.
  specialize (Hreg ltac:(subst s4; proj; by rewrite Hself3, Hself2) Hpost).
  destruct Hreg as (_ & _ & Hreg).
  destruct (register ext collection d s4) as [r s5] eqn:Hregister.
  fold d in Hbody. rewrite Hregister in Hbody.
  destruct (hook_wrapper _ _ _ _ Hbody) as (s' & Hhook & _ & Hlog & _).
  subst out. unfold post_execution_hook. rewrite Hhook. cbn [fst snd] in *.
  rewrite Hlog.
  assert (Hlog4 : http_log s4 = http_log s).
  { subst s4. proj. by rewrite Hlog3, Hlog2. }
  rewrite Hlog4 in Hreg. exact Hreg.
Qed.

(** X14. With the workspace in use and a collection taken from the catalog,
    the hook posts the collection to register-json and then its self link
    to register, in that order and in no other call; when both calls
    return a response the hook returns, whatever their status codes. *)
Theorem registration_is_fire_and_forget (ext : Externals) (output : dict)
  (s : State) (uri collection_id user : value) (c : Stac.Catalog)
  (col : Stac.Collection) (rest : list Stac.Collection) (r1 r2 : Response) :
  let out := post_execution_hook ext output s in
  let ws := {| ws_url := workspace_url (self s);
               ws_prefix := workspace_prefix (self s); ws_user := user |} in
  let token := ades_rx_token (self s) in
  let d := dict_set (Stac.collection_dict col) "id" collection_id in
  let body := [("type"%string, VStr "stac-item");
               ("url"%string, Stac.self_href col)] in
  handoff_ready s output uri collection_id →
  catalog_at ext uri = Some c →
  Stac.get_all_collections c = col :: rest →
  use_workspace (self s) = true →
  username (self s) = Some user →
  requests_post ext (PostRegisterJson ws token d) = Ok r1 →
  requests_post ext (PostRegister ws token body) = Ok r2 →
  fst out = Ok tt
  ∧ map call (http_log (snd out))
    = (map call (http_log s)
       ++ [PostRegisterJson ws token d; PostRegister ws token body])%list.
Proof.
  intros out ws token d body Hready Hcat Hcol Huse Hname Hp1 Hp2.
  pose proof (post_hook_registers ext output s uri collection_id user
                (Stac.FromCatalog col) (Some c) r1 Hready) as H.
  cbn zeta in H. cbn [Stac.get_self_href Stac.to_dict] in H.
  fold ws token d body in H. rewrite Hp2 in H. apply H; try done.
  intros s2 Hself2 Hcat2. exists s2.
  rewrite (consolidate_first_collection ext collection_id s2 c col rest)
    by congruence.
  repeat split. congruence.
Qed.

Lemma registration_is_fire_and_forget_witness :
  let ext := {| load_incluster_config := Ok tt;
                read_namespaced_config_map := fun _ _ => Raise ApiException;
                jwt_decode := fun _ => Ok Sample.claims;
                requests_get := fun _ => Ok (Sample.response 200 (Ok Sample.details));
                requests_post := fun _ => Ok (Sample.response 500 (Ok VNone));
                read_file := fun _ => Ok Sample.collection_catalog;
                Link_clone := fun link => link |} in
  fst (post_execution_hook ext Sample.output Sample.after_lookup) = Ok tt.
Proof.
  intros ext.
  refine (proj1 (registration_is_fire_and_forget ext Sample.output
                   Sample.after_lookup (VStr "ws-alice/run-1/catalog.json")
                   (VStr "run-1") (VStr "alice") Sample.collection_catalog
                   Sample.collection [] (Sample.response 500 (Ok VNone))
                   (Sample.response 500 (Ok VNone)) _ eq_refl eq_refl _ _
                   eq_refl eq_refl)).
  - split; [| split].
    + repeat first [apply Forall_nil | apply Forall_cons; split];
        first [exact I | solve_parameter].
    + reflexivity.
    + by vm_compute.
  - by vm_compute.
  - by vm_compute.
Defined.

(** X15. With the workspace in use and no collection in the catalog, the
    collection built from the items, the very dictionary that is serialised
    into [feature_collection], is posted to register-json, and the hook
    then raises [AttributeError]: an item collection has no self link, so
    the register call is never made. *)
Theorem item_collection_registration_raises (ext : Externals) (output : dict)
  (s : State) (uri collection_id user region endpoint : value)
  (c : Stac.Catalog) (r1 : Response) :
  let out := post_execution_hook ext output s in
  let ws := {| ws_url := workspace_url (self s);
               ws_prefix := workspace_prefix (self s); ws_user := user |} in
  let token := ades_rx_token (self s) in
  handoff_ready s output uri collection_id →
  catalog_at ext uri = Some c →
  Stac.get_all_collections c = [] →
  conf_param (conf (self s)) "STAGEOUT_AWS_REGION" = Ok region →
  conf_param (conf (self s)) "STAGEOUT_AWS_SERVICEURL" = Ok endpoint →
  use_workspace (self s) = true →
  username (self s) = Some user →
  (∀ d, requests_post ext (PostRegisterJson ws token d) = Ok r1) →
  ∃ items',
    Forall2 (restamped region endpoint collection_id)
            (Stac.get_all_items c) items'
    ∧ let d := [("type"%string, VStr "FeatureCollection");
                ("features"%string,
                 VList (map (fun i' =>
                               VDict (published_feature (Link_clone ext) i'))
                            items'));
                ("id"%string, collection_id)] in
      fst out = Raise (AttributeError "get_self_href")
      ∧ map call (http_log (snd out))
        = (map call (http_log s) ++ [PostRegisterJson ws token d])%list
      ∧ feature_collection (self (snd out)) = Some (json_dumps (VDict d) 2).
Proof.
  intros out ws token Hready Hcat Hcol Hr He Huse Hname Hpost.
  destruct (items_loop_ok (conf (self s)) collection_id region endpoint
              (Stac.get_all_items c) Hr He) as (items' & Hrun & Hall).
  exists items'. split; [done |].
  destruct (post_hook_items_run ext output s uri collection_id c items'
              Hready Hcat Hcol Hrun) as (_ & Hfc & _).
  pose proof (post_hook_registers ext output s uri collection_id user
                (Stac.new_ItemCollection (Link_clone ext)
                   (map (Stac.Item_clone (Link_clone ext)) items'))
                (Some (set_items c items')) r1
                Hready) as H.
  cbn zeta in H. rewrite to_dict_item_collection in H.
  unfold Stac.new_ItemCollection in H. cbn [Stac.get_self_href] in H.
  destruct H as [Hraise Hlog]; try done.
  intros s2 Hself2 Hcat2.
  exists (with_cat (Some (set_items c items')) s2).
  unfold consolidate. rewrite Hcat2, Hcat, Hcol, Hself2, Hrun.
  by repeat split.
Qed.

Lemma item_collection_registration_raises_witness :
  let ext := Sample.ext (Sample.response 200 (Ok Sample.details))
               (Ok Sample.items_catalog) in
  let out := post_execution_hook ext Sample.output Sample.after_lookup in
  ∃ items',
    Forall2 (restamped (VStr "eu-west-2") (VStr "https://s3.example.org")
               (VStr "run-1"))
            [Sample.item "item-1"; Sample.item "item-2"] items'
    ∧ let d := [("type"%string, VStr "FeatureCollection");
                ("features"%string,
                 VList (map (fun i' =>
                               VDict (published_feature (fun link => link) i'))
                            items'));
                ("id"%string, VStr "run-1")] in
      fst out = Raise (AttributeError "get_self_href")
      ∧ map call (http_log (snd out))
        = (map call (http_log Sample.after_lookup)
           ++ [PostRegisterJson
                 {| ws_url := "http://workspace-api"; ws_prefix := "ws";
                    ws_user := VStr "alice" |} "token" d])%list
      ∧ feature_collection (self (snd out)) = Some (json_dumps (VDict d) 2).
Proof.
  intros ext out.
  refine (item_collection_registration_raises ext Sample.output
            Sample.after_lookup (VStr "ws-alice/run-1/catalog.json")
            (VStr "run-1") (VStr "alice") (VStr "eu-west-2")
            (VStr "https://s3.example.org") Sample.items_catalog
            (Sample.response 200 (Ok VNone)) _ eq_refl eq_refl _ _ _ _ _).
  - split; [| split].
    + repeat first [apply Forall_nil | apply Forall_cons; split];
        first [exact I | solve_parameter].
    + reflexivity.
    + by vm_compute.
  - by vm_compute.
  - by vm_compute.
  - by vm_compute.
  - by vm_compute.
  - done.
Defined.

(** ** The two hooks in sequence *)

Lemma pre_hook_parameters_after_lookup (ext : Externals) (s : State)
  (p : gmap string value) (ap : value) (resp : Response)
  (body storage : value) (creds : dict) :
  additional_parameters (conf (self s)) = Some p →
  workspace_answers ext (self s) ap resp →
  ok resp = true →
  json resp = Ok body →
  subscript body "storage" = Ok storage →
  subscript storage "credentials" = Ok (VDict creds) →
  additional_parameters (conf (self (snd (pre_execution_hook ext s))))
  = Some (<["STAGEOUT_ACCESS_POINT" := ap]>
         (<["STAGEOUT_WORKSPACE" := VStr (workspace_name (self s))]>
         (<["process" := VStr "processing-results"]>
         (<["collection_id" :=
              VStr (section_get (lenv (conf (self s))) "usid" "")]>
         (<["STAGEOUT_OUTPUT" := dict_get_or_none creds "bucketname"]>
         (<["STAGEOUT_AWS_REGION" := dict_get_or_none creds "region"]>
         (<["STAGEOUT_AWS_SECRET_ACCESS_KEY" := dict_get_or_none creds "secret"]>
         (<["STAGEOUT_AWS_ACCESS_KEY_ID" := dict_get_or_none creds "access"]>
         (<["STAGEOUT_AWS_SERVICEURL" := dict_get_or_none creds "endpoint"]>
            p))))))))).
Proof.
  intros Hp Hws Hok Hjson Hstorage Hcreds.
  destruct (pre_body_lookup_ok ext s p ap resp body storage creds
              Hp Hws Hok Hjson Hstorage Hcreds) as (s1 & Hrun & _ & Hparams).
  destruct (hook_wrapper _ _ _ _ Hrun) as (s' & Hhook & Hself & _).
  unfold pre_execution_hook. rewrite Hhook. cbn [snd]. by rewrite Hself.
Qed.

(** X16. The credentials the pre-execution hook receives from the workspace
    are the ones the post-execution hook exports: after the two hooks, run
    one after the other, the AWS variables of the environment hold the
    endpoint, access key, secret key and region of the workspace answer,
    provided these are strings without an embedded NUL and the remaining
    hand-off parameters (pulsar URL, workspace domain, access point) are
    such strings too. *)
Theorem workspace_credentials_reach_environment (ext ext' : Externals)
  (output : dict) (s : State) (p : gmap string value) (resp : Response)
  (body storage : value) (creds : dict)
  (bucket endpoint access secret region pulsar domain : string) :
  let s1 := snd (pre_execution_hook ext s) in
  let out := post_execution_hook ext' output s1 in
  additional_parameters (conf (self s)) = Some p →
  workspace_answers ext (self s) (VStr bucket) resp →
  status_code resp = 200 →
  json resp = Ok body →
  subscript body "storage" = Ok storage →
  subscript storage "credentials" = Ok (VDict creds) →
  dict_get creds "endpoint" = Some (VStr endpoint) →
  dict_get creds "access" = Some (VStr access) →
  dict_get creds "secret" = Some (VStr secret) →
  dict_get creds "region" = Some (VStr region) →
  p !! "STAGEOUT_PULSAR_URL" = Some (VStr pulsar) →
  p !! "WORKSPACE_DOMAIN" = Some (VStr domain) →
  Forall (fun txt => has_nul txt = false)
         [bucket; endpoint; access; secret; region; pulsar; domain] →
  environ (snd out) !! "AWS_S3_ENDPOINT" = Some endpoint
  ∧ environ (snd out) !! "AWS_ACCESS_KEY_ID" = Some access
  ∧ environ (snd out) !! "AWS_SECRET_ACCESS_KEY" = Some secret
  ∧ environ (snd out) !! "AWS_REGION" = Some region
  ∧ environ (snd out) !! "STAGEOUT_ACCESS_POINT" = Some bucket.
Proof.
  intros s1 out Hp Hws Hstatus Hjson Hstorage Hcreds
    Hendpoint Haccess Hsecret Hregion Hpulsar Hdomain Hnul.
  repeat (apply Forall_cons in Hnul as [? Hnul]).
  assert (Hok : ok resp = true) by (unfold ok; by rewrite Hstatus).
  pose proof (pre_hook_parameters_after_lookup ext s p (VStr bucket) resp
                body storage creds Hp Hws Hok Hjson Hstorage Hcreds) as Hparams.
  fold s1 in Hparams. unfold dict_get_or_none in Hparams.
  rewrite Hendpoint, Haccess, Hsecret, Hregion in Hparams.
  cbn [default from_option id] in Hparams.
  assert (Hget : ∀ key txt,
            (<["STAGEOUT_ACCESS_POINT" := VStr bucket]>
            (<["STAGEOUT_WORKSPACE" := VStr (workspace_name (self s))]>
            (<["process" := VStr "processing-results"]>
            (<["collection_id" :=
                 VStr (section_get (lenv (conf (self s))) "usid" "")]>
            (<["STAGEOUT_OUTPUT" := default VNone (dict_get creds "bucketname")]>
            (<["STAGEOUT_AWS_REGION" := VStr region]>
            (<["STAGEOUT_AWS_SECRET_ACCESS_KEY" := VStr secret]>
            (<["STAGEOUT_AWS_ACCESS_KEY_ID" := VStr access]>
            (<["STAGEOUT_AWS_SERVICEURL" := VStr endpoint]> p)))))))))
            !! key = Some (VStr txt) →
            conf_param (conf (self s1)) key = Ok (VStr txt)).
  { intros key txt Hkey. unfold conf_param. by rewrite Hparams, Hkey. }
  assert (Hall : Forall (exportable (conf (self s1))) exported_parameters).
  { unfold exported_parameters, exportable.
    repeat first [apply Forall_nil | apply Forall_cons; split];
      first [exact I | cbn [snd]].
    - exists endpoint. split; [| done]. apply Hget.
      rewrite !lookup_insert_ne by done. apply lookup_insert_eq.
    - exists access. split; [| done]. apply Hget.
      rewrite !lookup_insert_ne by done. apply lookup_insert_eq.
    - exists secret. split; [| done]. apply Hget.
      rewrite !lookup_insert_ne by done. apply lookup_insert_eq.
    - exists region. split; [| done]. apply Hget.
      rewrite !lookup_insert_ne by done. apply lookup_insert_eq.
    - exists pulsar. split; [| done]. apply Hget.
      by rewrite !lookup_insert_ne by done.
    - exists domain. split; [| done]. apply Hget.
      by rewrite !lookup_insert_ne by done.
    - exists bucket. split; [| done]. apply Hget. apply lookup_insert_eq. }
  pose proof (proj1 (post_hook_environ ext' output s1 Hall)) as Henv.
  subst out.
  repeat split.
  - apply (Henv _ "STAGEOUT_AWS_SERVICEURL"%string); [in_table |]. apply Hget.
    rewrite !lookup_insert_ne by done. apply lookup_insert_eq.
  - apply (Henv _ "STAGEOUT_AWS_ACCESS_KEY_ID"%string); [in_table |]. apply Hget.
    rewrite !lookup_insert_ne by done. apply lookup_insert_eq.
  - apply (Henv _ "STAGEOUT_AWS_SECRET_ACCESS_KEY"%string); [in_table |]. apply Hget.
    rewrite !lookup_insert_ne by done. apply lookup_insert_eq.
  - apply (Henv _ "STAGEOUT_AWS_REGION"%string); [in_table |]. apply Hget.
    rewrite !lookup_insert_ne by done. apply lookup_insert_eq.
  - apply (Henv _ "STAGEOUT_ACCESS_POINT"%string); [in_table |]. apply Hget. apply lookup_insert_eq.
Qed.

Lemma workspace_credentials_reach_environment_witness :
  let ext := Sample.ext (Sample.response 200 (Ok Sample.details))
               (Ok Sample.collection_catalog) in
  let s := constructed Sample.conf Sample.inputs Sample.env in
  let out := post_execution_hook ext Sample.output
               (snd (pre_execution_hook ext s)) in
  environ (snd out) !! "AWS_S3_ENDPOINT" = Some "https://s3.example.org"%string
  ∧ environ (snd out) !! "AWS_ACCESS_KEY_ID" = Some "AK"%string.
Proof.
  intros ext s out.
  destruct (workspace_credentials_reach_environment ext ext Sample.output s
              _ (Sample.response 200 (Ok Sample.details)) Sample.details
              (VDict [("credentials"%string, VDict Sample.credentials)])
              Sample.credentials "bucket-alice" "https://s3.example.org"
              "AK" "SK" "eu-west-2" "pulsar://broker:6650" "example.org"
              eq_refl (sample_workspace_answers _ _) eq_refl eq_refl eq_refl
              eq_refl eq_refl eq_refl eq_refl eq_refl
              ltac:(by vm_compute) ltac:(by vm_compute)
              ltac:(by repeat constructor))
    as (H1 & H2 & _).
  split; [exact H1 | exact H2].
Defined.

Lemma lookup_access_point_api_exception (ext : Externals) (name : string) :
  read_namespaced_config_map ext "workspace-config" ("ws-" +:+ name)
  = Raise ApiException →
  lookup_access_point ext name = Ok VNone.
Proof. intros H. unfold lookup_access_point. by rewrite H. Qed.

Lemma exported_keys_cases (name key : string) :
  (name, key) ∈ exported_parameters →
  key ≠ "collection_id"%string ∧ key ≠ "process"%string
  ∧ key ≠ "STAGEOUT_WORKSPACE"%string.
Proof.
  unfold exported_parameters. intros H.
  repeat (apply elem_of_cons in H as [[= -> ->]|H]; [by repeat split |]).
  by apply elem_of_nil in H.
Qed.

(** X17. An [ApiException] from the config-map lookup is tolerated by the
    pre-execution hook, which stores [None] as the access point and, with
    no workspace configured, returns; the post-execution hook that follows
    cannot export that [None] and raises before it reads the catalog,
    leaving [feature_collection] unset. What it raises comes from the
    first parameter the hand-off cannot copy: a [TypeError] or a
    [KeyError] when the strings among the parameters are free of NUL, as
    those taken from the environment are, and a [ValueError] otherwise. *)
Theorem missing_config_map_stops_post_hook (ext ext' : Externals)
  (output : dict) (s : State) (p : gmap string value) :
  let pre := pre_execution_hook ext s in
  let out := post_execution_hook ext' output (snd pre) in
  additional_parameters (conf (self s)) = Some p →
  load_incluster_config ext = Ok tt →
  read_namespaced_config_map ext "workspace-config"
    ("ws-" +:+ workspace_name (self s)) = Raise ApiException →
  token_decodes ext (self s) →
  use_workspace (self s) = false →
  fst pre = Ok tt
  ∧ conf_param (conf (self (snd pre))) "STAGEOUT_ACCESS_POINT" = Ok VNone
  ∧ (∃ e, fst out = Raise e
          ∧ (e = TypeError ∨ e = ValueError ∨ ∃ k, e = KeyError k)
          ∧ (exports_nul_free (conf (self s)) →
             e = TypeError ∨ ∃ k, e = KeyError k))
  ∧ feature_collection (self (snd out)) = feature_collection (self (snd pre))
  ∧ cat (snd out) = None.
Proof.
  intros pre out Hp Hload Hmap Htok Huse.
  pose proof (lookup_access_point_api_exception _ _ Hmap) as Hap.
  destruct (pre_body_reaches_lookup ext s VNone Hload Hap Htok)
    as (s1 & Hbody & Hconf & Huse1 & Hlog & _).
  rewrite (bind_ok _ _ s1 s1 tt) in Hbody
    by (apply lookup_workspace_not_configured; congruence).
  rewrite bind_gets, Hconf in Hbody.
  rewrite (pre_body_tail _ p) in Hbody by congruence.
  destruct (hook_wrapper _ _ _ _ Hbody) as (s' & Hhook & Hself & _).
  assert (Hpre : pre = (Ok tt, s')) by exact Hhook.
  assert (Hparam : conf_param (conf (self s')) "STAGEOUT_ACCESS_POINT" = Ok VNone).
  { rewrite Hself. unfold conf_param. proj. by rewrite lookup_insert_eq. }
  assert (Hkept : ∀ name key,
            (name, key) ∈ exported_parameters →
            key ≠ "STAGEOUT_ACCESS_POINT"%string →
            conf_param (conf (self s')) key = conf_param (conf (self s)) key).
  { intros name key Hin Hne.
    destruct (exported_keys_cases name key Hin) as (H1 & H2 & H3).
    rewrite Hself. unfold conf_param. proj. rewrite Hp.
    by rewrite !lookup_insert_ne by done. }
  subst out. rewrite Hpre. cbn [fst snd].
  split; [done |]. split; [done |].
  destruct (first_export_failure_exists (conf (self s')) exported_parameters)
    as (before & name & key & e & Hfail).
  { unfold exported_parameters. do 6 apply Exists_cons_tl. apply Exists_cons_hd.
    intros (txt & Htxt & _). cbn [snd] in Htxt. by rewrite Hparam in Htxt. }
  destruct (post_hook_handoff_raises ext' output s' before name key e Hfail)
    as (He & Hfc' & _ & Hc & _).
  split; [| by split].
  exists e. split; [done |].
  destruct (export_error_kind _ _ _ (proj2 (proj2 Hfail)))
    as [[-> _]|[[-> (txt & Hkey & Hnul)]|[k [-> _]]]].
  - split; [by left |]. intros _. by left.
  - split; [right; by left |]. intros Hfree. exfalso.
    destruct (first_export_failure_before _ _ _ _ _ Hfail) as (_ & Hin & _).
    destruct (decide (key = "STAGEOUT_ACCESS_POINT"%string)) as [->|Hne].
    + by rewrite Hparam in Hkey.
    + rewrite (Hkept name key Hin Hne) in Hkey.
      by rewrite (Hfree name key txt Hin Hkey) in Hnul.
  - split; [right; right; by exists k |]. intros _. right. by exists k.
Qed.

Lemma missing_config_map_stops_post_hook_witness :
  let ext := {| load_incluster_config := Ok tt;
                read_namespaced_config_map := fun _ _ => Raise ApiException;
                jwt_decode := fun _ => Ok Sample.claims;
                requests_get := fun _ => Raise (OtherError "ConnectionError");
                requests_post := fun _ => Raise (OtherError "ConnectionError");
                read_file := fun _ => Ok Sample.collection_catalog;
                Link_clone := fun link => link |} in
  let c := {| eoepca := None; auth_env := auth_env Sample.conf;
              lenv := lenv Sample.conf; additional_parameters := None |} in
  let pre := pre_execution_hook ext (constructed c Sample.inputs Sample.env) in
  fst pre = Ok tt
  ∧ ∃ e, fst (post_execution_hook ext Sample.output (snd pre)) = Raise e.
Proof.
  intros ext c pre.
  destruct (missing_config_map_stops_post_hook ext ext Sample.output
              (constructed c Sample.inputs Sample.env) _
              eq_refl eq_refl eq_refl
              (or_intror (ex_intro _ Sample.claims eq_refl)) eq_refl)
    as (H1 & _ & (e & He & _) & _).
  split; [exact H1 | by exists e].
Defined.
(** ** What the storage annotation keeps *)

(** X18. The storage annotation of an asset (lines 258-264) changes nothing
    but the five storage fields: href, media type, title, description and
    roles are as before, and so is every extra field under another key.
    The asset stays well formed. *)
Theorem annotate_asset_keeps_fields (c : Conf) (a a' : Stac.Asset) :
  asset_well_formed a →
  annotate_asset c a = Ok a' →
  Stac.href a' = Stac.href a
  ∧ Stac.media_type a' = Stac.media_type a
  ∧ Stac.title a' = Stac.title a
  ∧ Stac.description a' = Stac.description a
  ∧ Stac.roles a' = Stac.roles a
  ∧ (∀ k, k ∉ storage_keys →
          dict_get (Stac.extra_fields a') k = dict_get (Stac.extra_fields a) k)
  ∧ asset_well_formed a'.
Proof. exact (annotate_asset_frame c a a'). Qed.

Lemma annotate_asset_keeps_fields_witness :
  Stac.href Sample.annotated_asset = Stac.href Sample.asset
  ∧ Stac.roles Sample.annotated_asset = Stac.roles Sample.asset.
Proof.
  destruct (annotate_asset_keeps_fields
              (conf (self Sample.after_failed_lookup))
              Sample.asset Sample.annotated_asset)
    as (H1 & _ & _ & _ & H5 & _).
  - split; [apply NoDup_nil_2 | apply Forall_nil_2].
  - by vm_compute.
  - split; [exact H1 | exact H5].
Defined.

(** ** The post-execution hook without a workspace *)

(** X19. When the workspace is not in use and the catalog is read, the
    post-execution hook returns without a single HTTP call, whichever way
    the collection is obtained. *)
Theorem post_hook_without_workspace (ext : Externals) (output : dict)
  (s : State) (uri collection_id : value) (c : Stac.Catalog) :
  let out := post_execution_hook ext output s in
  handoff_ready s output uri collection_id →
  catalog_at ext uri = Some c →
  use_workspace (self s) = false →
  fst out = Ok tt ∧ http_log (snd out) = http_log s.
Proof.
  intros out Hready Hcat Huse.
  destruct (Stac.get_all_collections c) as [|col rest] eqn:Hcol.
  - destruct (exported_has "STAGEOUT_AWS_REGION" s (proj1 Hready))
      as [region Hr]; [in_table |].
    destruct (exported_has "STAGEOUT_AWS_SERVICEURL" s (proj1 Hready))
      as [endpoint He]; [in_table |].
    destruct (items_loop_ok (conf (self s)) collection_id (VStr region)
                (VStr endpoint) (Stac.get_all_items c) Hr He)
      as (items' & Hrun & _).
    destruct (post_hook_items_run ext output s uri collection_id c items'
                Hready Hcat Hcol Hrun) as (_ & _ & Hquiet).
    by apply Hquiet.
  - destruct (post_hook_publishes ext output s uri collection_id
                (Some (Stac.FromCatalog col)) (Some c) Hready)
      as (_ & _ & Hquiet).
    + intros s2 Hself2 Hcat2. exists s2.
      rewrite (consolidate_first_collection ext collection_id s2 c col rest)
        by congruence.
      repeat split. congruence.
    + by apply Hquiet.
Qed.

Lemma post_hook_without_workspace_witness :
  let ext := Sample.ext (Sample.response 404 (Raise (OtherError "JSONDecodeError")))
               (Ok Sample.items_catalog) in
  let out := post_execution_hook ext Sample.output Sample.after_failed_lookup in
  fst out = Ok tt ∧ http_log (snd out) = http_log Sample.after_failed_lookup.
Proof.
  intros ext out.
  refine (post_hook_without_workspace ext Sample.output
            Sample.after_failed_lookup (VStr "ws-alice/run-1/catalog.json")
            (VStr "run-1") Sample.items_catalog sample_handoff_ready eq_refl _).
  by vm_compute.
Defined.
